(** * ESAA core: event store, projector, validator paths and replay

    A shallow embedding of the Python sources under [src/esaa] and the
    properties of the specification checked against it.

    Conventions of the embedding.
    - A Python value that came out of [json.loads] is a [json] tree.  Floats
      are not represented.  A Python [str] is the [string] of its UTF-8
      bytes, so comparing strings byte by byte is comparing them code point
      by code point; strings that hold lone surrogates are not represented.
    - A [dict] with string keys is an association list in insertion order,
      which is the order Python iterates it in.
    - Exceptions are values of [exn].  Only the stable [code] of an
      [ESAAError] is kept, not its formatted message.
    - Code that mutates the projector state in place is written in a state
      and exception monad; the state a computation leaves behind when it
      raises is kept, as in-place mutation leaves it.
    - [deepcopy] is the identity: values here are not shared. *)

From Stdlib Require Import List String Ascii ZArith Bool Lia Arith DecimalString.

From Stdlib Require Import Sorted Permutation.
From Stdlib Require OrderedTypeEx DecimalPos.

Import ListNotations.

Local Open Scope string_scope.

Local Open Scope Z_scope.

Set Implicit Arguments.

Set Warnings "-register-all".

(** ** Python values *)

Inductive json : Type :=
| JNull
| JBool (b : bool)
| JInt (n : Z)
| JStr (s : string)
| JArr (xs : list json)
| JObj (kvs : list (string * json)).

Definition dict := list (string * json).

Module Dict.

Fixpoint get {V : Type} (k : string) (d : list (string * V)) : option V :=
  match d with
  | [] => None
  | (k', v) :: r => if String.eqb k' k then Some v else get k r
  end.

Definition mem {V : Type} (k : string) (d : list (string * V)) : bool :=
  match get k d with Some _ => true | None => false end.

(** [d[k] = v]: an existing key keeps its place, a new one goes last. *)
Fixpoint set {V : Type} (k : string) (v : V) (d : list (string * V))
  : list (string * V) :=
  match d with
  | [] => [(k, v)]
  | (k', v') :: r =>
      if String.eqb k' k then (k, v) :: r else (k', v') :: set k v r
  end.

Fixpoint remove {V : Type} (k : string) (d : list (string * V))
  : list (string * V) :=
  match d with
  | [] => []
  | (k', v') :: r =>
      if String.eqb k' k then r else (k', v') :: remove k r
  end.

Definition get_default {V : Type} (k : string) (dflt : V)
  (d : list (string * V)) : V :=
  match get k d with Some v => v | None => dflt end.

(** [d.setdefault(k, v)], the dict after the call. *)
Definition setdefault {V : Type} (k : string) (v : V)
  (d : list (string * V)) : list (string * V) :=
  if mem k d then d else set k v d.

End Dict.

(** Python's [==] on values.  [True == 1] and [False == 0]; two dicts are
    equal when they have as many keys and agree on each. *)
Fixpoint py_eq (a b : json) {struct a} : bool :=
  match a, b with
  | JNull, JNull => true
  | JBool x, JBool y => Bool.eqb x y
  | JBool x, JInt n => Z.eqb (Z.b2z x) n
  | JInt n, JBool x => Z.eqb n (Z.b2z x)
  | JInt m, JInt n => Z.eqb m n
  | JStr s, JStr t => String.eqb s t
  | JArr xs, JArr ys =>
      (fix go (xs ys : list json) {struct xs} : bool :=
         match xs, ys with
         | [], [] => true
         | x :: xs', y :: ys' => py_eq x y && go xs' ys'
         | _, _ => false
         end) xs ys
  | JObj kvs, JObj kws =>
      Nat.eqb (List.length kvs) (List.length kws) &&
      (fix go (kvs : list (string * json)) : bool :=
         match kvs with
         | [] => true
         | (k, v) :: r =>
             match Dict.get k kws with
             | Some w => py_eq v w
             | None => false
             end && go r
         end) kvs
  | _, _ => false
  end.

(** [bool(v)] *)
Definition truthy (v : json) : bool :=
  match v with
  | JNull => false
  | JBool b => b
  | JInt n => negb (Z.eqb n 0)
  | JStr s => negb (String.eqb s "")
  | JArr xs => match xs with [] => false | _ => true end
  | JObj kvs => match kvs with [] => false | _ => true end
  end.

(** Lists and dicts cannot be hashed: they are refused as set members and
    as dict keys with a [TypeError]. *)
Definition hashable (v : json) : bool :=
  match v with
  | JArr _ | JObj _ => false
  | _ => true
  end.

(** [isinstance(v, int)]: [bool] is a subclass of [int]. *)
Definition isinstance_int (v : json) : option Z :=
  match v with
  | JInt n => Some n
  | JBool b => Some (Z.b2z b)
  | _ => None
  end.

Definition isinstance_str (v : json) : bool :=
  match v with JStr _ => true | _ => false end.

(** ** Exceptions (errors.py) *)

Inductive exn : Type :=
| ESAAError (code : string)
| CorruptedStoreError (code : string)
| KeyError (key : string)
| TypeError
| AttributeError
| ValueError
| IndexError.

(** [class CorruptedStoreError(ESAAError)]: an [except ESAAError] clause
    catches both, an [except CorruptedStoreError] clause only the second. *)
Definition is_ESAAError (e : exn) : bool :=
  match e with
  | ESAAError _ | CorruptedStoreError _ => true
  | _ => false
  end.

Definition is_CorruptedStoreError (e : exn) : bool :=
  match e with
  | CorruptedStoreError _ => true
  | _ => false
  end.

Definition code_of (e : exn) : option string :=
  match e with
  | ESAAError c | CorruptedStoreError c => Some c
  | _ => None
  end.

Inductive result (A : Type) : Type :=
| Ok (a : A)
| Raise (e : exn).

Arguments Ok {A} a.

Arguments Raise {A} e.

Module Res.

Definition bind {A B : Type} (r : result A) (k : A -> result B) : result B :=
  match r with
  | Ok a => k a
  | Raise e => Raise e
  end.

Definition map {A B : Type} (f : A -> B) (r : result A) : result B :=
  match r with
  | Ok a => Ok (f a)
  | Raise e => Raise e
  end.

End Res.

Declare Scope res_scope.

Delimit Scope res_scope with res.

Notation "'let?' x ':=' c 'in' k" :=
  (Res.bind c (fun x => k))
  (at level 10, x pattern, c at level 100, k at level 200) : res_scope.

Local Open Scope res_scope.

(** [v[k]] for a string [k]: only a dict can be indexed by a string. *)
Definition getitem (v : json) (k : string) : result json :=
  match v with
  | JObj d =>
      match Dict.get k d with
      | Some x => Ok x
      | None => Raise (KeyError k)
      end
  | _ => Raise TypeError
  end.

Definition dict_getitem (d : dict) (k : string) : result json :=
  match Dict.get k d with
  | Some x => Ok x
  | None => Raise (KeyError k)
  end.

(** The receiver of a [.get] or [.setdefault] call: any value but a dict has
    no such method. *)
Definition as_dict (v : json) : result dict :=
  match v with
  | JObj d => Ok d
  | _ => Raise AttributeError
  end.

(** [d.get(k)], with [None] for a missing key. *)
Definition dict_get (d : dict) (k : string) : json :=
  Dict.get_default k JNull d.

(** ** Strings *)

Module Str.

Definition code (a : ascii) : N := N_of_ascii a.

Definition starts_with (p s : string) : bool := String.prefix p s.

(** [s.replace(a, b)] for single characters. *)
Fixpoint replace_char (a b : ascii) (s : string) : string :=
  match s with
  | EmptyString => EmptyString
  | String c r =>
      String (if Ascii.eqb c a then b else c) (replace_char a b r)
  end.

Fixpoint mem_char (c : ascii) (cs : string) : bool :=
  match cs with
  | EmptyString => false
  | String a r => Ascii.eqb a c || mem_char c r
  end.

(** [s.lstrip(chars)]: drops every leading character that occurs in
    [chars]; [chars] is a set of characters, not a prefix. *)
Fixpoint lstrip (chars s : string) : string :=
  match s with
  | EmptyString => EmptyString
  | String c r => if mem_char c chars then lstrip chars r else s
  end.

(** [s.split(c)] *)
Fixpoint split (c : ascii) (s : string) : list string :=
  match s with
  | EmptyString => [EmptyString]
  | String a r =>
      match split c r with
      | [] => [String a EmptyString]
      | h :: t =>
          if Ascii.eqb a c then EmptyString :: h :: t
          else String a h :: t
      end
  end.

(** The length in bytes of the white-space character [s] starts with,
    [0] when it starts with none.  White space is what [str.isspace]
    accepts: U+0009..U+000D, U+001C..U+0020, U+0085, U+00A0, U+1680,
    U+2000..U+200A, U+2028, U+2029, U+202F, U+205F, U+3000. *)
Definition space_prefix (s : string) : nat :=
  match s with
  | EmptyString => 0%nat
  | String a r =>
      let x := code a in
      if ((9 <=? x) && (x <=? 13) || (28 <=? x) && (x <=? 32))%N then 1%nat
      else match r with
           | EmptyString => 0%nat
           | String b r' =>
               let y := code b in
               if ((x =? 194) && ((y =? 133) || (y =? 160)))%N then 2%nat
               else match r' with
                    | EmptyString => 0%nat
                    | String c _ =>
                        let z := code c in
                        if ((x =? 225) && (y =? 154) && (z =? 128)
                            || (x =? 226) && (y =? 128)
                               && ((128 <=? z) && (z <=? 138)
                                   || (z =? 168) || (z =? 169) || (z =? 175))
                            || (x =? 226) && (y =? 129) && (z =? 159)
                            || (x =? 227) && (y =? 128) && (z =? 128))%N
                        then 3%nat else 0%nat
                    end
           end
  end.

Fixpoint drop (n : nat) (s : string) : string :=
  match n, s with
  | S n', String _ r => drop n' r
  | _, _ => s
  end.

Fixpoint blank_fuel (fuel : nat) (s : string) : bool :=
  match s with
  | EmptyString => true
  | _ =>
      match fuel with
      | O => false
      | S f =>
          match space_prefix s with
          | O => false
          | n => blank_fuel f (drop n s)
          end
      end
  end.

(** [not s.strip()]: the string holds white space only. *)
Definition blank (s : string) : bool := blank_fuel (String.length s) s.

(** The characters of a string, as [list(s)] yields them: a byte of the
    form 10xxxxxx continues the character before it. *)
Fixpoint chars (s : string) : list string :=
  match s with
  | EmptyString => []
  | String a r =>
      match chars r with
      | h :: t =>
          match r with
          | String b _ =>
              if ((128 <=? code b) && (code b <? 192))%N
              then String a h :: t
              else String a EmptyString :: h :: t
          | EmptyString => String a EmptyString :: h :: t
          end
      | [] => [String a EmptyString]
      end
  end.

(** Decimal digits of an integer, as [str(n)] and [json.dumps(n)] print
    them. *)
Definition of_Z (n : Z) : string :=
  DecimalString.NilZero.string_of_int (Z.to_int n).

Fixpoint zeros (n : nat) : string :=
  match n with
  | O => EmptyString
  | S n' => String "0" (zeros n')
  end.

(** [format(n, "0<w>d")]: zero padded to width [w], the sign counted in
    the width. *)
Definition zero_padded (w : nat) (n : Z) : string :=
  if n <? 0 then
    let d := of_Z (- n) in
    String "-" (zeros (w - 1 - String.length d) ++ d)
  else
    let d := of_Z n in
    zeros (w - String.length d) ++ d.

Definition is_ascii_digit (a : ascii) : bool :=
  ((48 <=? code a) && (code a <=? 57))%N.

Definition hex_digit (n : N) : ascii :=
  if (n <? 10)%N then ascii_of_N (48 + n) else ascii_of_N (87 + n).

(** Stable insertion sort, the order [sorted] gives on keys that are all
    strings. *)
Fixpoint insert_by_key {V : Type} (x : string * V)
  (l : list (string * V)) : list (string * V) :=
  match l with
  | [] => [x]
  | y :: r =>
      if String.ltb (fst x) (fst y) then x :: y :: r
      else y :: insert_by_key x r
  end.

Definition sort_by_key {V : Type} (l : list (string * V))
  : list (string * V) :=
  fold_left (fun acc x => insert_by_key x acc) l [].

End Str.

(** ** utils.py *)

Definition dquote : ascii := "034"%char.

(** [json.dumps] escapes, with [ensure_ascii=False], the quote, the
    backslash and the control characters below U+0020; every other
    character is written as it is. *)
Definition json_escape_char (a : ascii) : string :=
  let x := Str.code a in
  if (x =? 34)%N then String "\" (String dquote "")
  else if (x =? 92)%N then String "\" (String "\" "")
  else if (x =? 10)%N then String "\" "n"
  else if (x =? 13)%N then String "\" "r"
  else if (x =? 9)%N then String "\" "t"
  else if (x =? 8)%N then String "\" "b"
  else if (x =? 12)%N then String "\" "f"
  else if (x <? 32)%N then
    String "\" ("u00" ++ String (Str.hex_digit (x / 16))
                         (String (Str.hex_digit (x mod 16)) ""))
  else String a "".

Fixpoint json_escape (s : string) : string :=
  match s with
  | EmptyString => EmptyString
  | String a r => json_escape_char a ++ json_escape r
  end.

Definition json_quote (s : string) : string :=
  String dquote (json_escape s ++ String dquote "").

Fixpoint join (sep : string) (l : list string) : string :=
  match l with
  | [] => EmptyString
  | [x] => x
  | x :: r => x ++ sep ++ join sep r
  end.

(** [json.dumps(value, ensure_ascii=False, sort_keys=True,
    separators=(",", ":"))].  The members of an object are serialized
    first and then ordered by key, which is the text [sort_keys] yields. *)
Fixpoint json_dumps_canonical (v : json) : string :=
  match v with
  | JNull => "null"
  | JBool true => "true"
  | JBool false => "false"
  | JInt n => Str.of_Z n
  | JStr s => json_quote s
  | JArr xs => "[" ++ join "," (List.map json_dumps_canonical xs) ++ "]"
  | JObj kvs =>
      "{" ++ join ","
               (List.map (fun kv => json_quote (fst kv) ++ ":" ++ snd kv)
                  (Str.sort_by_key
                     (List.map (fun kv => (fst kv, json_dumps_canonical (snd kv)))
                        kvs)))
          ++ "}"
  end.

(** [canonical_json_bytes]: the text is already the UTF-8 bytes. *)
Definition canonical_json_bytes (value : json) : list Byte.byte :=
  list_byte_of_string (json_dumps_canonical value ++ String "010" "").

(** [normalize_rel_path]: [path.replace("\\", "/").lstrip("./")] *)
Definition normalize_rel_path (path : string) : string :=
  Str.lstrip "./" (Str.replace_char "\" "/" path).

(** ** validator.py: safe paths *)

(** [PurePosixPath(s).parts]: the root, if any, then the components that
    are neither empty nor ["."].  Exactly two leading slashes make the root
    ["//"], any other number the root ["/"]. *)
Definition posix_parts (s : string) : list string :=
  let comps :=
    List.filter (fun p => negb (String.eqb p "" || String.eqb p "."))
      (Str.split "/" s) in
  if Str.starts_with "//" s && negb (Str.starts_with "///" s) then "//" :: comps
  else if Str.starts_with "/" s then "/" :: comps
  else comps.

Definition _validate_safe_path (path : string) : result string :=
  let norm := normalize_rel_path path in
  if String.eqb norm "" || Str.starts_with "/" norm || Str.starts_with ".." norm
  then Raise (ESAAError "BOUNDARY_VIOLATION")
  else
    let parts := posix_parts norm in
    if List.existsb (fun part => String.eqb part "..") parts
    then Raise (ESAAError "BOUNDARY_VIOLATION")
    else Ok norm.

(** ** constants.py *)

Definition SCHEMA_VERSION : string := "0.4.0".

Definition ESAA_VERSION : string := "0.4.x".

Definition CANONICAL_ACTIONS : list string :=
  ["run.start"; "run.end"; "task.create"; "claim"; "complete"; "review";
   "issue.report"; "hotfix.create"; "issue.resolve"; "output.rejected";
   "orchestrator.file.write"; "orchestrator.view.mutate";
   "verify.start"; "verify.ok"; "verify.fail"].

(** [v in S] for a set [S] of strings: an unhashable [v] raises. *)
Definition in_str_set (v : json) (S : list string) : result bool :=
  match v with
  | JStr s => Ok (List.existsb (String.eqb s) S)
  | JArr _ | JObj _ => Raise TypeError
  | _ => Ok false
  end.

(** ** compat.py *)

Definition normalize_legacy_event (raw : dict) : result dict :=
  let event := raw in
  let event :=
    if negb (Dict.mem "payload" event) && Dict.mem "data" event then
      Dict.set "payload" (dict_get event "data") (Dict.remove "data" event)
    else if Dict.mem "data" event then Dict.remove "data" event
    else event in
  let? event :=
    if py_eq (dict_get event "action") (JStr "run.init") then
      let event := Dict.set "action" (JStr "run.start") event in
      let event := Dict.setdefault "payload" (JObj []) event in
      let? payload := as_dict (dict_get event "payload") in
      Ok (Dict.set "payload"
            (JObj (Dict.setdefault "status" (JStr "initialized") payload))
            event)
    else Ok event in
  Ok (Dict.setdefault "schema_version" (JStr "0.3.0") event).

Definition normalize_legacy_verify_status (status : json) : json :=
  if py_eq status (JStr "fail") then JStr "mismatch" else status.

(** ** store.py *)

Definition required_fields : list string :=
  ["schema_version"; "event_id"; "event_seq"; "ts"; "actor"; "action";
   "payload"].

(** One turn of the loop of [parse_event_store] on a decoded line.  It
    returns the event to append and the new [seen_ids] and [last_seq]. *)
Definition parse_line (raw : dict) (seen_ids : list json) (last_seq : Z)
  : result (dict * list json * Z) :=
  let? event := normalize_legacy_event raw in
  match isinstance_int (dict_get event "event_seq") with
  | None => Raise (CorruptedStoreError "EVENT_SEQ_INVALID")
  | Some seq =>
      if negb (seq =? last_seq + 1)
      then Raise (CorruptedStoreError "EVENT_SEQ_NON_MONOTONIC")
      else
        let last_seq := seq in
        let event :=
          if negb (Dict.mem "event_id" event)
          then Dict.set "event_id"
                 (JStr ("LEGACY-EV-" ++ Str.zero_padded 8 seq)) event
          else event in
        let? event_id := dict_getitem event "event_id" in
        if negb (hashable event_id) then Raise TypeError
        else if List.existsb (py_eq event_id) seen_ids
        then Raise (CorruptedStoreError "EVENT_ID_DUPLICATE")
        else
          let seen_ids := event_id :: seen_ids in
          let missing :=
            List.filter (fun k => negb (Dict.mem k event)) required_fields in
          match missing with
          | _ :: _ => Raise (CorruptedStoreError "EVENT_MISSING_FIELDS")
          | [] =>
              let? action := dict_getitem event "action" in
              let? known := in_str_set action CANONICAL_ACTIONS in
              if negb known then Raise (CorruptedStoreError "UNKNOWN_ACTION")
              else Ok (event, seen_ids, last_seq)
          end
  end.

(** The loop of [parse_event_store].  A line is [None] when [json.loads]
    refuses it and [Some raw] when it decodes to the object [raw]; lines
    that decode to a JSON value other than an object are not represented. *)
Fixpoint parse_lines (lines : list (option dict)) (events : list dict)
  (seen_ids : list json) (last_seq : Z) : result (list dict) :=
  match lines with
  | [] => Ok events
  | None :: _ => Raise (CorruptedStoreError "JSONL_INVALID")
  | Some raw :: rest =>
      let? (event, seen_ids', last_seq') := parse_line raw seen_ids last_seq in
      parse_lines rest (events ++ [event]) seen_ids' last_seq'
  end.

(** [parse_event_store] on the non-blank lines of the log, decoded. *)
Definition parse_event_store (lines : list (option dict)) : result (list dict) :=
  parse_lines lines [] [] 0.

(** The stored event of [test_legacy_event_is_normalized]. *)
Definition legacy_line : dict :=
  [("schema_version", JStr "0.3.0"); ("event_seq", JInt 1);
   ("ts", JStr "2026-02-23T16:44:23Z"); ("actor", JStr "orchestrator");
   ("action", JStr "run.init");
   ("data", JObj [("run_id", JStr "RUN-1");
                  ("master_correlation_id", JStr "CID-1")])].

(** ** projector.py: the state *)

(** [state["meta"]["run"]] *)
Record run_meta : Type := mk_run_meta {
  run_id : json;
  status : json;
  last_event_seq : json;
  projection_hash_sha256 : json;
  verify_status : json
}.

(** [state["meta"]] *)
Record meta_t : Type := mk_meta {
  schema_version : json;
  esaa_version : json;
  immutable_done : json;
  master_correlation_id : json;
  run : run_meta;
  updated_at : json
}.

(** The dict [_empty_state] builds, whose keys never change: a record with
    one field per key.  Task, issue and lesson records stay dicts: their
    keys depend on the events.  [_issues] is keyed by the [issue_id] of
    the payload, which can be any hashable value. *)
Record state : Type := mk_state {
  meta : meta_t;
  project : json;
  tasks : list dict;
  indexes : dict;
  _issues : list (json * dict);
  _lessons : list dict
}.

Definition with_run (f : run_meta -> run_meta) (st : state) : state :=
  let m := meta st in
  mk_state
    (mk_meta (schema_version m) (esaa_version m) (immutable_done m)
       (master_correlation_id m) (f (run m)) (updated_at m))
    (project st) (tasks st) (indexes st) (_issues st) (_lessons st).

Definition set_run_id (v : json) (r : run_meta) : run_meta :=
  mk_run_meta v (status r) (last_event_seq r) (projection_hash_sha256 r)
    (verify_status r).

Definition set_status (v : json) (r : run_meta) : run_meta :=
  mk_run_meta (run_id r) v (last_event_seq r) (projection_hash_sha256 r)
    (verify_status r).

Definition set_last_event_seq (v : json) (r : run_meta) : run_meta :=
  mk_run_meta (run_id r) (status r) v (projection_hash_sha256 r)
    (verify_status r).

Definition set_projection_hash_sha256 (v : json) (r : run_meta) : run_meta :=
  mk_run_meta (run_id r) (status r) (last_event_seq r) v (verify_status r).

Definition set_verify_status (v : json) (r : run_meta) : run_meta :=
  mk_run_meta (run_id r) (status r) (last_event_seq r)
    (projection_hash_sha256 r) v.

Definition set_master_correlation_id (v : json) (st : state) : state :=
  let m := meta st in
  mk_state
    (mk_meta (schema_version m) (esaa_version m) (immutable_done m) v (run m)
       (updated_at m))
    (project st) (tasks st) (indexes st) (_issues st) (_lessons st).

Definition set_updated_at (v : json) (st : state) : state :=
  let m := meta st in
  mk_state
    (mk_meta (schema_version m) (esaa_version m) (immutable_done m)
       (master_correlation_id m) (run m) v)
    (project st) (tasks st) (indexes st) (_issues st) (_lessons st).

Definition set_tasks (ts : list dict) (st : state) : state :=
  mk_state (meta st) (project st) ts (indexes st) (_issues st) (_lessons st).

Definition set_indexes (ix : dict) (st : state) : state :=
  mk_state (meta st) (project st) (tasks st) ix (_issues st) (_lessons st).

Definition set_issues (iss : list (json * dict)) (st : state) : state :=
  mk_state (meta st) (project st) (tasks st) (indexes st) iss (_lessons st).

Definition set_lessons (ls : list dict) (st : state) : state :=
  mk_state (meta st) (project st) (tasks st) (indexes st) (_issues st) ls.

(** [_empty_state]; [now] is what [utc_now_iso()] returns at the call. *)
Definition _empty_state (now : string) (project_name : json) : state :=
  mk_state
    (mk_meta (JStr SCHEMA_VERSION) (JStr ESAA_VERSION) (JBool true) JNull
       (mk_run_meta JNull (JStr "initialized") (JInt 0) (JStr "")
          (JStr "unknown"))
       (JStr now))
    (JObj [("name", project_name); ("audit_scope", JStr ".roadmap/")])
    []
    [("by_status", JObj []); ("by_kind", JObj [])]
    []
    [].

(** ** The monad of the projector: state and exceptions *)

Definition M (A : Type) : Type := state -> result A * state.

Definition ret {A : Type} (a : A) : M A := fun st => (Ok a, st).

Definition raise {A : Type} (e : exn) : M A := fun st => (Raise e, st).

Definition bind {A B : Type} (m : M A) (k : A -> M B) : M B :=
  fun st =>
    match m st with
    | (Ok a, st') => k a st'
    | (Raise e, st') => (Raise e, st')
    end.

Definition lift {A : Type} (r : result A) : M A := fun st => (r, st).

Definition gets {A : Type} (f : state -> A) : M A := fun st => (Ok (f st), st).

Definition modify (f : state -> state) : M unit := fun st => (Ok tt, f st).

Declare Scope proj_scope.

Delimit Scope proj_scope with proj.

Notation "x <- c ;; k" := (bind c (fun x => k))
  (at level 61, c at next level, right associativity) : proj_scope.

Notation "c ;; k" := (bind c (fun _ => k))
  (at level 61, right associativity) : proj_scope.

Local Open Scope proj_scope.

(** ** References into the state

    [_task_by_id] returns one of the dicts of [state["tasks"]], and what the
    caller writes to it is written to the state.  The reference is the index
    of the dict in the list; the list only grows, so an index stays valid. *)

Definition task_ref := nat.

Fixpoint update_nth {A : Type} (i : nat) (f : A -> A) (l : list A) : list A :=
  match l, i with
  | [], _ => []
  | x :: r, O => f x :: r
  | x :: r, S i' => x :: update_nth i' f r
  end.

(** [task[k]].  A reference always points into the list; the [IndexError]
    of the other case is there to make the function total. *)
Definition task_getitem (t : task_ref) (k : string) : M json :=
  fun st =>
    match nth_error (tasks st) t with
    | Some d => (dict_getitem d k, st)
    | None => (Raise IndexError, st)
    end.

(** [task.get(k)] *)
Definition task_get (t : task_ref) (k : string) : M json :=
  fun st =>
    match nth_error (tasks st) t with
    | Some d => (Ok (dict_get d k), st)
    | None => (Raise IndexError, st)
    end.

(** [task[k] = v] *)
Definition task_setitem (t : task_ref) (k : string) (v : json) : M unit :=
  modify (fun st => set_tasks (update_nth t (Dict.set k v) (tasks st)) st).

Fixpoint find_task (ts : list dict) (task_id : json) (i : nat) : result task_ref :=
  match ts with
  | [] => Raise (ESAAError "TASK_NOT_FOUND")
  | task :: r =>
      let? tid := dict_getitem task "task_id" in
      if py_eq tid task_id then Ok i else find_task r task_id (S i)
  end.

Definition _task_by_id (task_id : json) : M task_ref :=
  fun st => (find_task (tasks st) task_id 0%nat, st).

(** Dicts keyed by hashable values: key lookup is by [==]. *)
Fixpoint kget {V : Type} (k : json) (d : list (json * V)) : option V :=
  match d with
  | [] => None
  | (k', v) :: r => if py_eq k' k then Some v else kget k r
  end.

Fixpoint kupdate {V : Type} (k : json) (f : V -> V) (d : list (json * V))
  : list (json * V) :=
  match d with
  | [] => []
  | (k', v) :: r =>
      if py_eq k' k then (k', f v) :: r else (k', v) :: kupdate k f r
  end.

(** [d.setdefault(k, v)], the dict after the call. *)
Definition ksetdefault {V : Type} (k : json) (v : V) (d : list (json * V))
  : list (json * V) :=
  match kget k d with
  | Some _ => d
  | None => d ++ [(k, v)]
  end.

(** [issue[k]] and [issue[k] = v] through the reference the issue's key is. *)
Definition issue_getitem (key : json) (k : string) : M json :=
  fun st =>
    match kget key (_issues st) with
    | Some d => (dict_getitem d k, st)
    | None => (Raise (KeyError k), st)
    end.

Definition issue_get (key : json) (k : string) (dflt : json) : M json :=
  fun st =>
    match kget key (_issues st) with
    | Some d => (Ok (Dict.get_default k dflt d), st)
    | None => (Raise (KeyError k), st)
    end.

Definition issue_setitem (key : json) (k : string) (v : json) : M unit :=
  modify (fun st => set_issues (kupdate key (Dict.set k v) (_issues st)) st).

(** [issue[outer][k] = v]: the value at [outer] must be a dict. *)
Definition issue_setitem2 (key : json) (outer k : string) (v : json) : M unit :=
  inner <- issue_getitem key outer ;;
  match inner with
  | JObj d => issue_setitem key outer (JObj (Dict.set k v d))
  | _ => raise TypeError
  end.

(** ** projector.py: applying one event *)

(** [list(v)] *)
Definition py_list (v : json) : result (list json) :=
  match v with
  | JArr xs => Ok xs
  | JStr s => Ok (List.map JStr (Str.chars s))
  | JObj kvs => Ok (List.map (fun kv => JStr (fst kv)) kvs)
  | _ => Raise TypeError
  end.

Definition hotfix_fields : list string :=
  ["issue_id"; "fixes"; "scope_patch"; "required_verification"; "baseline_id"].

Definition _new_task (payload : json) : result dict :=
  let? p := as_dict payload in
  let? title := dict_getitem p "title" in
  let description := Dict.get_default "description" title p in
  let description :=
    match description with
    | JStr s => if Str.blank s then title else description
    | _ => title
    end in
  let? task_id := dict_getitem p "task_id" in
  let? task_kind := dict_getitem p "task_kind" in
  let? depends_on := py_list (Dict.get_default "depends_on" (JArr []) p) in
  let? targets := py_list (Dict.get_default "targets" (JArr []) p) in
  let task :=
    [("task_id", task_id);
     ("task_kind", task_kind);
     ("title", title);
     ("description", description);
     ("status", JStr "todo");
     ("depends_on", JArr depends_on);
     ("targets", JArr targets);
     ("outputs", Dict.get_default "outputs" (JObj [("files", JArr [])]) p);
     ("immutability", JObj [("done_is_immutable", JBool true)])] in
  if truthy (dict_get p "is_hotfix") then
    Ok (List.fold_left
          (fun task field =>
             if Dict.mem field p then Dict.set field (dict_get p field) task
             else task)
          hotfix_fields
          (Dict.set "is_hotfix" (JBool true) task))
  else Ok task.

Definition _ensure_owner (task : task_ref) (actor : json) : M unit :=
  owner <- task_get task "assigned_to" ;;
  if negb (py_eq owner actor) then raise (ESAAError "NOT_LOCK_OWNER")
  else ret tt.

Definition _apply_claim (event : dict) : M unit :=
  payload <- lift (dict_getitem event "payload") ;;
  task_id <- lift (getitem payload "task_id") ;;
  task <- _task_by_id task_id ;;
  st <- task_getitem task "status" ;;
  if py_eq st (JStr "done") then raise (ESAAError "IMMUTABLE_DONE")
  else
    st <- task_getitem task "status" ;;
    busy <- lift (in_str_set st ["in_progress"; "review"]) ;;
    owner <- task_get task "assigned_to" ;;
    if busy || truthy owner then raise (ESAAError "LOCKED_TASK")
    else
      task_setitem task "status" (JStr "in_progress") ;;
      actor <- lift (dict_getitem event "actor") ;;
      task_setitem task "assigned_to" actor ;;
      ts <- lift (dict_getitem event "ts") ;;
      task_setitem task "started_at" ts.

Definition _apply_complete (event : dict) : M unit :=
  payload <- lift (dict_getitem event "payload") ;;
  task_id <- lift (getitem payload "task_id") ;;
  task <- _task_by_id task_id ;;
  st <- task_getitem task "status" ;;
  if py_eq st (JStr "done") then raise (ESAAError "IMMUTABLE_DONE")
  else
    st <- task_getitem task "status" ;;
    if negb (py_eq st (JStr "in_progress"))
    then raise (ESAAError "INVALID_TRANSITION")
    else
      actor <- lift (dict_getitem event "actor") ;;
      _ensure_owner task actor ;;
      task_setitem task "status" (JStr "review") ;;
      p <- lift (as_dict payload) ;;
      let verification := dict_get p "verification" in
      (if truthy verification
       then task_setitem task "verification" verification
       else ret tt) ;;
      (if Dict.mem "issue_id" p
       then task_setitem task "issue_id" (dict_get p "issue_id")
       else ret tt) ;;
      (if Dict.mem "fixes" p
       then task_setitem task "fixes" (dict_get p "fixes")
       else ret tt).

Definition _apply_review (event : dict) : M unit :=
  payload <- lift (dict_getitem event "payload") ;;
  task_id <- lift (getitem payload "task_id") ;;
  task <- _task_by_id task_id ;;
  p <- lift (as_dict payload) ;;
  let decision := dict_get p "decision" in
  st <- task_getitem task "status" ;;
  if py_eq st (JStr "done") then raise (ESAAError "IMMUTABLE_DONE")
  else
    st <- task_getitem task "status" ;;
    if negb (py_eq st (JStr "review"))
    then raise (ESAAError "INVALID_TRANSITION")
    else
      actor <- lift (dict_getitem event "actor") ;;
      _ensure_owner task actor ;;
      if py_eq decision (JStr "approve") then
        task_setitem task "status" (JStr "done") ;;
        ts <- lift (dict_getitem event "ts") ;;
        task_setitem task "completed_at" ts
      else if py_eq decision (JStr "request_changes") then
        task_setitem task "status" (JStr "in_progress")
      else raise (ESAAError "INVALID_TRANSITION").

Definition lesson_id_of (n : nat) : string :=
  "LES-" ++ Str.zero_padded 4 (Z.of_nat n + 1).

Definition _apply_issue_report (event : dict) : M unit :=
  payload <- lift (dict_getitem event "payload") ;;
  issue_id <- lift (getitem payload "issue_id") ;;
  p <- lift (as_dict payload) ;;
  affected <- lift (as_dict (Dict.get_default "affected" (JObj []) p)) ;;
  event_seq <- lift (dict_getitem event "event_seq") ;;
  let fresh :=
    [("issue_id", issue_id);
     ("status", JStr "open");
     ("severity", Dict.get_default "severity" (JStr "medium") p);
     ("title", Dict.get_default "title" issue_id p);
     ("baseline_id", dict_get affected "baseline_id");
     ("affected", Dict.get_default "affected" (JObj []) p);
     ("evidence", Dict.get_default "evidence" (JObj []) p);
     ("resolution", JNull);
     ("links", JObj [("reported_by_task_id", dict_get p "task_id");
                     ("fixes_task_id", dict_get p "fixes");
                     ("hotfix_task_id", JNull)]);
     ("timeline", JObj [("created_event_seq", event_seq);
                        ("resolved_event_seq", JNull)])] in
  (if hashable issue_id then ret tt else raise TypeError) ;;
  modify (fun st => set_issues (ksetdefault issue_id fresh (_issues st)) st) ;;
  let issue := issue_id in
  issue_setitem issue "status" (JStr "open") ;;
  old_severity <- issue_getitem issue "severity" ;;
  issue_setitem issue "severity" (Dict.get_default "severity" old_severity p) ;;
  old_title <- issue_getitem issue "title" ;;
  issue_setitem issue "title" (Dict.get_default "title" old_title p) ;;
  old_evidence <- issue_get issue "evidence" (JObj []) ;;
  issue_setitem issue "evidence" (Dict.get_default "evidence" old_evidence p) ;;
  if py_eq (dict_get p "category") (JStr "process")
     && py_eq (dict_get p "subtype") (JStr "lesson")
     && Dict.mem "lesson" p
  then
    let lesson_payload := dict_get p "lesson" in
    n <- gets (fun st => List.length (_lessons st)) ;;
    let lesson_id := JStr (lesson_id_of n) in
    created_at <- lift (dict_getitem event "ts") ;;
    mistake <- lift (getitem lesson_payload "mistake") ;;
    rule <- lift (getitem lesson_payload "rule") ;;
    scope <- lift (getitem lesson_payload "scope") ;;
    enforcement <- lift (getitem lesson_payload "enforcement") ;;
    event_id <- lift (dict_getitem event "event_id") ;;
    modify (fun st =>
      set_lessons
        (_lessons st ++
           [[("lesson_id", lesson_id);
             ("status", JStr "active");
             ("created_at", created_at);
             ("title", Dict.get_default "title" lesson_id p);
             ("mistake", mistake);
             ("rule", rule);
             ("scope", scope);
             ("enforcement", enforcement);
             ("source_refs",
               JArr [JObj [("task_id", dict_get p "task_id");
                           ("event_id", event_id)]])]])
        st)
  else ret tt.

(** The loop of [_apply_hotfix_create] that looks for the id. *)
Fixpoint has_task_id (ts : list dict) (task_id : json) : result bool :=
  match ts with
  | [] => Ok false
  | task :: r =>
      let? tid := dict_getitem task "task_id" in
      if py_eq tid task_id then Ok true else has_task_id r task_id
  end.

Definition _apply_hotfix_create (event : dict) : M unit :=
  payload <- lift (dict_getitem event "payload") ;;
  task_id <- lift (getitem payload "task_id") ;;
  ts <- gets tasks ;;
  dup <- lift (has_task_id ts task_id) ;;
  if dup then raise (ESAAError "DUPLICATE_TASK")
  else
    task <- lift (_new_task payload) ;;
    modify (fun st => set_tasks (tasks st ++ [task]) st) ;;
    p <- lift (as_dict payload) ;;
    let issue_id := dict_get p "issue_id" in
    if truthy issue_id then
      (if hashable issue_id then ret tt else raise TypeError) ;;
      iss <- gets _issues ;;
      match kget issue_id iss with
      | Some _ => issue_setitem2 issue_id "links" "hotfix_task_id" task_id
      | None => ret tt
      end
    else ret tt.

Definition _apply_issue_resolve (event : dict) : M unit :=
  payload <- lift (dict_getitem event "payload") ;;
  issue_id <- lift (getitem payload "issue_id") ;;
  (if hashable issue_id then ret tt else raise TypeError) ;;
  iss <- gets _issues ;;
  match kget issue_id iss with
  | None | Some [] => raise (ESAAError "ISSUE_NOT_FOUND")
  | Some (_ :: _) =>
      p <- lift (as_dict payload) ;;
      issue_setitem issue_id "status" (JStr "resolved") ;;
      issue_setitem issue_id "resolution"
        (Dict.get_default "resolution" (JObj []) p) ;;
      event_seq <- lift (dict_getitem event "event_seq") ;;
      timeline <- issue_getitem issue_id "timeline" ;;
      match timeline with
      | JObj d =>
          issue_setitem issue_id "timeline"
            (JObj (Dict.set "resolved_event_seq" event_seq d))
      | _ => raise TypeError
      end
  end.

Definition audit_only_actions : list string :=
  ["output.rejected"; "orchestrator.file.write"; "orchestrator.view.mutate";
   "verify.start"].

Definition is_action (action : json) (name : string) : bool :=
  py_eq action (JStr name).

Definition _apply_event (event : dict) : M unit :=
  action <- lift (dict_getitem event "action") ;;
  payload <- lift (dict_getitem event "payload") ;;
  (if is_action action "run.start" then
     p <- lift (as_dict payload) ;;
     modify (set_master_correlation_id (dict_get p "master_correlation_id")) ;;
     old <- gets (fun st => run_id (run (meta st))) ;;
     modify (with_run (set_run_id (Dict.get_default "run_id" old p))) ;;
     modify (with_run (set_status
                         (Dict.get_default "status" (JStr "initialized") p)))
   else if is_action action "run.end" then
     p <- lift (as_dict payload) ;;
     modify (with_run (set_status
                         (Dict.get_default "status" (JStr "success") p)))
   else if is_action action "task.create" then
     task <- lift (_new_task payload) ;;
     modify (fun st => set_tasks (tasks st ++ [task]) st)
   else if is_action action "claim" then _apply_claim event
   else if is_action action "complete" then _apply_complete event
   else if is_action action "review" then _apply_review event
   else if is_action action "issue.report" then _apply_issue_report event
   else if is_action action "hotfix.create" then _apply_hotfix_create event
   else if is_action action "issue.resolve" then _apply_issue_resolve event
   else if is_action action "verify.ok" then
     modify (with_run (set_verify_status (JStr "ok")))
   else if is_action action "verify.fail" then
     p <- lift (as_dict payload) ;;
     modify (with_run (set_verify_status
                         (Dict.get_default "verify_status" (JStr "mismatch") p)))
   else
     audit <- lift (in_str_set action audit_only_actions) ;;
     if audit then ret tt else raise (ESAAError "UNKNOWN_ACTION")) ;;
  event_seq <- lift (dict_getitem event "event_seq") ;;
  modify (with_run (set_last_event_seq event_seq)) ;;
  ts <- lift (dict_getitem event "ts") ;;
  modify (set_updated_at ts).

(** The loop of [materialize]: the first exception ends it. *)
Fixpoint apply_events (events : list dict) : M unit :=
  match events with
  | [] => ret tt
  | event :: rest => _apply_event event ;; apply_events rest
  end.

(** Python's [<] on values that can be dict keys: numbers with numbers,
    strings with strings, a [TypeError] for anything else.  It is applied
    to dict keys only, which are hashable, so never to two lists. *)
Definition key_lt (a b : json) : result bool :=
  match isinstance_int a, isinstance_int b with
  | Some x, Some y => Ok (x <? y)
  | _, _ =>
      match a, b with
      | JStr s, JStr t => Ok (String.ltb s t)
      | _, _ => Raise TypeError
      end
  end.

Fixpoint insert_sorted {A : Type} (x : json * A) (l : list (json * A))
  : result (list (json * A)) :=
  match l with
  | [] => Ok [x]
  | y :: r =>
      let? lt := key_lt (fst x) (fst y) in
      if lt then Ok (x :: y :: r)
      else let? r' := insert_sorted x r in Ok (y :: r')
  end.

(** [sorted(items, key=...)] on items paired with their keys: a stable
    sort, and a [TypeError] as soon as two keys cannot be compared. *)
Fixpoint sorted_by_key {A : Type} (acc l : list (json * A))
  : result (list (json * A)) :=
  match l with
  | [] => Ok acc
  | x :: r => let? acc' := insert_sorted x acc in sorted_by_key acc' r
  end.

Fixpoint mapM {A B : Type} (f : A -> result B) (l : list A) : result (list B) :=
  match l with
  | [] => Ok []
  | x :: r => let? y := f x in let? ys := mapM f r in Ok (y :: ys)
  end.

(** [d.setdefault(k, []).append(x)]: [setdefault] is called, and raises
    on an unhashable key, before the argument [x] is evaluated. *)
Definition kappend (k : json) (x : result json) (d : list (json * list json))
  : result (list (json * list json)) :=
  if hashable k
  then let? v := x in
       Ok (kupdate k (fun l => (l ++ [v])%list) (ksetdefault k [] d))
  else Raise TypeError.

(** ** [str.isdigit] and [int]

    Which characters beyond ASCII are digits is a matter of the Unicode
    database of the interpreter: [unicodedata.digit(c, None)] and
    [unicodedata.decimal(c, None)] are taken as they are; they are only
    asked about characters that are not ASCII. *)

Section Unicode.

Variable unicodedata_digit : string -> option Z.

Variable unicodedata_decimal : string -> option Z.

(** The ASCII character a one-character string holds, if it holds one. *)
Definition ascii_of_char (c : string) : option ascii :=
  match c with
  | String a EmptyString => if (Str.code a <? 128)%N then Some a else None
  | _ => None
  end.

(** [c.isdigit()] for one character. *)
Definition char_isdigit (c : string) : bool :=
  match ascii_of_char c with
  | Some a => Str.is_ascii_digit a
  | None =>
      match unicodedata_digit c with
      | Some _ => true
      | None => false
      end
  end.

(** [s.isdigit()]: the string is not empty and every character of it is a
    digit. *)
Definition str_isdigit (s : string) : bool :=
  match Str.chars s with
  | [] => false
  | cs => List.forallb char_isdigit cs
  end.

(** The white space [int] skips around a number: space, [\t], [\n],
    [\v], [\f] and [\r]. *)
Definition int_space (a : ascii) : bool :=
  let x := Str.code a in
  ((9 <=? x) && (x <=? 13) || (x =? 32))%N.

(** What [int] reads for one character of its argument: an ASCII
    character as it is, white space beyond ASCII as a space, a decimal
    digit of another script as the ASCII digit of its value.  Any other
    character ends the text with a ['?'], which no number holds: [None]. *)
Definition int_char (c : string) : option ascii :=
  match ascii_of_char c with
  | Some a => Some a
  | None =>
      if (1 <? Str.space_prefix c)%nat then Some " "%char
      else
        match unicodedata_decimal c with
        | Some d => Some (ascii_of_N (48 + Z.to_N d))
        | None => None
        end
  end.

Fixpoint int_text (cs : list string) : option (list ascii) :=
  match cs with
  | [] => Some []
  | c :: r =>
      match int_char c with
      | Some a => option_map (cons a) (int_text r)
      | None => None
      end
  end.

Fixpoint skip_int_space (l : list ascii) : list ascii :=
  match l with
  | a :: r => if int_space a then skip_int_space r else l
  | [] => []
  end.

(** The digits of the number, with the underscores [int] allows between
    two of them: the value read so far, the number of digits read, whether
    the character before was an underscore.  Returns the value, the number
    of digits and the text left; [None] for an underscore that is not
    between two digits. *)
Fixpoint scan_int (acc : Z) (digits : nat) (underscore : bool)
  (l : list ascii) : option (Z * nat * list ascii) :=
  match l with
  | a :: r =>
      if Str.is_ascii_digit a
      then scan_int (10 * acc + (Z.of_N (Str.code a) - 48)) (S digits) false r
      else if Ascii.eqb a "_"
      then (if underscore then None else scan_int acc digits true r)
      else if underscore then None else Some (acc, digits, l)
  | [] => if underscore then None else Some (acc, digits, [])
  end.

(** [sys.int_info.default_max_str_digits]: [int] refuses a decimal text
    of more digits. *)
Definition int_max_str_digits : nat := 4300.

(** The sign a number starts with. *)
Definition int_sign (l : list ascii) : Z * list ascii :=
  match l with
  | "+"%char :: r => (1, r)
  | "-"%char :: r => (-1, r)
  | _ => (1, l)
  end.

(** [int(s)] for a string, in base 10: white space, a sign, digits with
    single underscores between them, white space.  Anything else is a
    [ValueError], and so is a number of more than [int_max_str_digits]
    digits. *)
Definition int_of_str (s : string) : result Z :=
  match int_text (Str.chars s) with
  | None => Raise ValueError
  | Some text =>
      let (sign, l) := int_sign (skip_int_space text) in
      match l with
      | "_"%char :: _ => Raise ValueError
      | _ =>
          match scan_int 0 0 false l with
          | None => Raise ValueError
          | Some (v, digits, rest) =>
              if (digits =? 0)%nat then Raise ValueError
              else if (int_max_str_digits <? digits)%nat then Raise ValueError
              else
                match skip_int_space rest with
                | [] => Ok (sign * v)
                | _ => Raise ValueError
                end
          end
      end
  end.

(** [int(v)] *)
Definition py_int (v : json) : result Z :=
  match v with
  | JInt n => Ok n
  | JBool b => Ok (Z.b2z b)
  | JStr s => int_of_str s
  | _ => Raise TypeError
  end.

End Unicode.

Definition meta_json (m : meta_t) : json :=
  JObj [("schema_version", schema_version m);
        ("esaa_version", esaa_version m);
        ("immutable_done", immutable_done m);
        ("master_correlation_id", master_correlation_id m);
        ("run", JObj [("run_id", run_id (run m));
                      ("status", status (run m));
                      ("last_event_seq", last_event_seq (run m));
                      ("projection_hash_sha256", projection_hash_sha256 (run m));
                      ("verify_status", verify_status (run m))]);
        ("updated_at", updated_at m)].

(** The [roadmap] dict of [materialize]. *)
Definition roadmap_json (st : state) : json :=
  JObj [("meta", meta_json (meta st));
        ("project", project st);
        ("tasks", JArr (List.map JObj (tasks st)));
        ("indexes", JObj (indexes st))].

Record issues_view_t : Type := mk_issues_view {
  iv_meta : dict;
  iv_issues : list dict;
  iv_open_by_baseline : list (json * list json)
}.

Record lessons_view_t : Type := mk_lessons_view {
  lv_meta : dict;
  lv_lessons : list dict;
  lv_by_task_kind : list (json * list json);
  lv_by_enforcement_applies_to : list (json * list json)
}.

(** The issue list in [issue_id] order and the [open_by_baseline] index. *)
Definition issues_index (iss : list (json * dict))
  : result (list dict * list (json * list json)) :=
  let? keyed :=
    mapM (fun kv => let? k := dict_getitem (snd kv) "issue_id" in Ok (k, snd kv))
      iss in
  let? sorted := sorted_by_key [] keyed in
  let issues := List.map snd sorted in
  let? open_by_baseline :=
    List.fold_left
      (fun acc issue =>
         let? acc := acc in
         let? st := dict_getitem issue "status" in
         if negb (py_eq st (JStr "open")) then Ok acc
         else
           let b := dict_get issue "baseline_id" in
           let baseline := if truthy b then b else JStr "unknown" in
           kappend baseline (dict_getitem issue "issue_id") acc)
      issues (Ok []) in
  let? index := sorted_by_key [] open_by_baseline in
  Ok (issues, index).

(** The [by_task_kind] and [by_enforcement_applies_to] indexes. *)
Definition lessons_index (lessons : list dict)
  : result (list (json * list json) * list (json * list json)) :=
  let? (by_task_kind, by_enforcement) :=
    List.fold_left
      (fun acc lesson =>
         let? (by_task_kind, by_enforcement) := acc in
         let? scope := dict_getitem lesson "scope" in
         let? scope_d := as_dict scope in
         let? kinds := py_list (Dict.get_default "task_kinds" (JArr []) scope_d) in
         let? by_task_kind :=
           List.fold_left
             (fun acc kind =>
                let? acc := acc in
                kappend kind (dict_getitem lesson "lesson_id") acc)
             kinds (Ok by_task_kind) in
         let? enforcement := dict_getitem lesson "enforcement" in
         let? applies_to := getitem enforcement "applies_to" in
         let? by_enforcement :=
           kappend applies_to (dict_getitem lesson "lesson_id") by_enforcement in
         Ok (by_task_kind, by_enforcement))
      lessons (Ok ([], [])) in
  let? k := sorted_by_key [] by_task_kind in
  let? e := sorted_by_key [] by_enforcement in
  Ok (k, e).

(** ** projector.py: [materialize], and [replay] of service.py

    Two functions of Python itself are taken as they are: the SHA-256
    digest of [hashlib], in hexadecimal, and [str] on a list or a dict. *)

Section Materialize.

Variable sha256_hexdigest : list Byte.byte -> string.

Variable py_repr : json -> string.

Variable unicodedata_digit : string -> option Z.

Variable unicodedata_decimal : string -> option Z.

(** [sha256_hex] of utils.py *)
Definition sha256_hex (value : json) : string :=
  sha256_hexdigest (canonical_json_bytes value).

(** [str(v)] *)
Definition py_str (v : json) : string :=
  match v with
  | JStr s => s
  | JInt n => Str.of_Z n
  | JBool true => "True"
  | JBool false => "False"
  | JNull => "None"
  | JArr _ | JObj _ => py_repr v
  end.

Definition _index_counts (ts : list dict) (key : string) : dict :=
  let out :=
    List.fold_left
      (fun out task =>
         let value := py_str (Dict.get_default key (JStr "unknown") task) in
         Dict.set value (Dict.get_default value 0 out + 1) out)
      ts [] in
  List.map (fun kv => (fst kv, JInt (snd kv))) (Str.sort_by_key out).

Definition compute_projection_hash (roadmap : json) : result string :=
  let? m := getitem roadmap "meta" in
  let? sv := getitem m "schema_version" in
  let? p := getitem roadmap "project" in
  let? ts := getitem roadmap "tasks" in
  let? ix := getitem roadmap "indexes" in
  Ok (sha256_hex
        (JObj [("schema_version", sv); ("project", p); ("tasks", ts);
               ("indexes", ix)])).

Definition view_meta : dict :=
  [("schema_version", JStr SCHEMA_VERSION);
   ("esaa_version", JStr ESAA_VERSION);
   ("generated_by", JStr "esaa.project");
   ("source_event_store", JStr ".roadmap/activity.jsonl")].

(** What [materialize] does once the events are applied. *)
Definition finish (st : state)
  : result (json * issues_view_t * lessons_view_t) :=
  let st :=
    set_indexes
      (Dict.set "by_status" (JObj (_index_counts (tasks st) "status"))
         (indexes st)) st in
  let st :=
    set_indexes
      (Dict.set "by_kind" (JObj (_index_counts (tasks st) "task_kind"))
         (indexes st)) st in
  let st :=
    with_run
      (set_verify_status
         (normalize_legacy_verify_status (verify_status (run (meta st)))))
      st in
  let? h := compute_projection_hash (roadmap_json st) in
  let st := with_run (set_projection_hash_sha256 (JStr h)) st in
  let roadmap := roadmap_json st in
  let? (issues, open_by_baseline) := issues_index (_issues st) in
  let issues_view :=
    mk_issues_view
      (view_meta ++
         [("last_event_seq", last_event_seq (run (meta st)));
          ("updated_at", updated_at (meta st))])%list
      issues open_by_baseline in
  let? (by_task_kind, by_enforcement) := lessons_index (_lessons st) in
  let lessons_view :=
    mk_lessons_view
      (view_meta ++ [("updated_at", updated_at (meta st))])%list
      (_lessons st) by_task_kind by_enforcement in
  Ok (roadmap, issues_view, lessons_view).

(** [materialize(events, project_name)]; [now] is the wall-clock time
    [_empty_state] reads. *)
Definition materialize (now : string) (events : list dict)
  (project_name : json) : result (json * issues_view_t * lessons_view_t) :=
  match apply_events events (_empty_state now project_name) with
  | (Ok _, st) => finish st
  | (Raise e, _) => Raise e
  end.

(** The [projection_hash_sha256] a materialization reports. *)
Definition reported_hash (roadmap : json) : result json :=
  let? m := getitem roadmap "meta" in
  let? r := getitem m "run" in
  getitem r "projection_hash_sha256".

Definition roadmap_of (r : json * issues_view_t * lessons_view_t) : json :=
  fst (fst r).

(** The comprehension [[ev for ev in events if int(ev["event_seq"]) <=
    seq_limit]]. *)
Fixpoint select_until_seq (events : list dict) (seq_limit : Z)
  : result (list dict) :=
  match events with
  | [] => Ok []
  | ev :: rest =>
      let? v := dict_getitem ev "event_seq" in
      let? n := py_int unicodedata_decimal v in
      let? tl := select_until_seq rest seq_limit in
      Ok (if n <=? seq_limit then ev :: tl else tl)
  end.

(** The loop that stops after the event whose [event_id] is [until]. *)
Fixpoint select_until_id (events : list dict) (until : string)
  : result (list dict) :=
  match events with
  | [] => Ok []
  | event :: rest =>
      let? eid := dict_getitem event "event_id" in
      if py_eq eid (JStr until) then Ok [event]
      else let? tl := select_until_id rest until in Ok (event :: tl)
  end.

(** The dict [replay] returns for the events it selected and the roadmap
    they materialize to. *)
Definition replay_result (selected : list dict) (roadmap : json)
  : result dict :=
  let? m := getitem roadmap "meta" in
  let? r := getitem m "run" in
  let? seq := getitem r "last_event_seq" in
  let? h := getitem r "projection_hash_sha256" in
  Ok [("events_replayed", JInt (Z.of_nat (List.length selected)));
      ("last_event_seq", seq);
      ("projection_hash_sha256", h);
      ("verify_status", JStr "ok")].

(** [ESAAService.replay]: [lines] is the event log as [parse_event_store]
    reads it.  Writing the views to disk when [write_views] is set does
    not change what is returned and is left out. *)
Definition replay (now : string) (lines : list (option dict))
  (until : option string) : result dict :=
  let? events := parse_event_store lines in
  let? selected :=
    match until with
    | None | Some EmptyString => Ok events
    | Some u =>
        if str_isdigit unicodedata_digit u
        then
          let? seq_limit := int_of_str unicodedata_decimal u in
          select_until_seq events seq_limit
        else select_until_id events u
    end in
  let? out := materialize now selected (JStr "esaa-core") in
  replay_result selected (roadmap_of out).

End Materialize.

(** [make_event] of service.py, at the time [ts]. *)
Definition make_event (ts : string) (event_seq : Z) (actor action : string)
  (payload : json) : dict :=
  [("schema_version", JStr SCHEMA_VERSION);
   ("event_id", JStr ("EV-" ++ Str.zero_padded 8 event_seq));
   ("event_seq", JInt event_seq);
   ("ts", JStr ts);
   ("actor", JStr actor);
   ("action", JStr action);
   ("payload", payload)].

(** ** The scenarios of tests/test_projection_workflow.py *)

Module Scenario.

Definition t0 : string := "2026-02-23T16:44:23Z".

Definition _task_payload : json :=
  JObj [("task_id", JStr "T-1"); ("task_kind", JStr "impl");
        ("title", JStr "Task"); ("description", JStr "Task description");
        ("depends_on", JArr []); ("targets", JArr []);
        ("outputs", JObj [("files", JArr [JStr "src/T-1.txt"])])].

Definition run_start : dict :=
  make_event t0 1 "orchestrator" "run.start"
    (JObj [("run_id", JStr "RUN-1"); ("status", JStr "initialized")]).

Definition create : dict := make_event t0 2 "orchestrator" "task.create" _task_payload.

Definition claim_by (seq : Z) (actor : string) : dict :=
  make_event t0 seq actor "claim" (JObj [("task_id", JStr "T-1")]).

Definition complete_by (seq : Z) (actor : string) : dict :=
  make_event t0 seq actor "complete"
    (JObj [("task_id", JStr "T-1");
           ("verification", JObj [("checks", JArr [JStr "ok"])])]).

Definition review_by (seq : Z) (actor decision : string) : dict :=
  make_event t0 seq actor "review"
    (JObj [("task_id", JStr "T-1"); ("decision", JStr decision)]).

(** Stand-ins for the two functions of Python [materialize] is given. *)
Definition no_digest (_ : list Byte.byte) : string := "".

Definition no_repr (_ : json) : string := "".

(** A digest that tells any two texts apart: the text itself. *)
Definition text_digest (bytes : list Byte.byte) : string :=
  string_of_list_byte bytes.

(** A Unicode database that knows no digit beyond ASCII. *)
Definition no_digit (_ : string) : option Z := None.

Definition outcome (events : list dict) : result json :=
  Res.map (@roadmap_of) (materialize no_digest no_repr t0 events (JStr "esaa-core")).

Definition task_status (roadmap : json) : result (list json) :=
  let? ts := getitem roadmap "tasks" in
  match ts with
  | JArr l => mapM (fun t => getitem t "status") l
  | _ => Raise TypeError
  end.

End Scenario.

(** ** store.py: the next sequence number *)

Section NextEventSeq.

Variable unicodedata_decimal : string -> option Z.

(** [next_event_seq]: [events[-1]] is the last event. *)
Definition next_event_seq (events : list dict) : result Z :=
  match List.rev events with
  | [] => Ok 1
  | last_event :: _ =>
      let? v := dict_getitem last_event "event_seq" in
      let? n := py_int unicodedata_decimal v in
      Ok (n + 1)
  end.

End NextEventSeq.

(** ** service.py: choosing the next task *)

(** The loop of [all]: the first task that is not done ends it. *)
Fixpoint all_status_done (ts : list dict) : result bool :=
  match ts with
  | [] => Ok true
  | task :: r =>
      let? s := dict_getitem task "status" in
      if py_eq s (JStr "done") then all_status_done r else Ok false
  end.

(** [all_tasks_done]: [bool(tasks) and all(...)]. *)
Definition all_tasks_done (ts : list dict) : result bool :=
  match ts with
  | [] => Ok false
  | _ :: _ => all_status_done ts
  end.

(** [d[k] = v] on a dict keyed by hashable values: the value of an equal
    key is replaced where it stands, a new key goes to the end. *)
Definition kset {V : Type} (k : json) (v : V) (d : list (json * V))
  : list (json * V) :=
  match kget k d with
  | Some _ => kupdate k (fun _ => v) d
  | None => d ++ [(k, v)]
  end.

(** The dict comprehension [{task["task_id"]: task for task in tasks}]. *)
Fixpoint by_id_of (ts : list dict) (acc : list (json * dict))
  : result (list (json * dict)) :=
  match ts with
  | [] => Ok acc
  | task :: r =>
      let? k := dict_getitem task "task_id" in
      if hashable k then by_id_of r (kset k task acc) else Raise TypeError
  end.

(** The list comprehension [[task for task in tasks if task["status"] ==
    status]]. *)
Fixpoint with_status (ts : list dict) (status : string) : result (list dict) :=
  match ts with
  | [] => Ok []
  | task :: r =>
      let? s := dict_getitem task "status" in
      let? tl := with_status r status in
      Ok (if py_eq s (JStr status) then task :: tl else tl)
  end.

(** [sorted(candidates, key=lambda item: item["task_id"])]: the keys are
    computed first, then compared. *)
Definition sorted_by_task_id (ts : list dict) : result (list dict) :=
  let? keyed :=
    mapM (fun task => let? k := dict_getitem task "task_id" in Ok (k, task))
      ts in
  let? sorted := sorted_by_key [] keyed in
  Ok (List.map snd sorted).

(** [all(by_id[dep]["status"] == "done" for dep in deps if dep in by_id)] *)
Fixpoint deps_done (by_id : list (json * dict)) (deps : list json)
  : result bool :=
  match deps with
  | [] => Ok true
  | dep :: r =>
      if hashable dep then
        match kget dep by_id with
        | None => deps_done by_id r
        | Some task =>
            let? s := dict_getitem task "status" in
            if py_eq s (JStr "done") then deps_done by_id r else Ok false
        end
      else Raise TypeError
  end.

(** The loop over the [todo] tasks. *)
Fixpoint first_ready (by_id : list (json * dict)) (todo : list dict)
  : result (option dict) :=
  match todo with
  | [] => Ok None
  | task :: r =>
      let? deps := py_list (Dict.get_default "depends_on" (JArr []) task) in
      let? ready := deps_done by_id deps in
      if ready then Ok (Some task) else first_ready by_id r
  end.

(** [select_next_task] *)
Definition select_next_task (ts : list dict) : result (option dict) :=
  let? by_id := by_id_of ts [] in
  let? candidates := with_status ts "review" in
  let? candidates := sorted_by_task_id candidates in
  match candidates with
  | first :: _ => Ok (Some first)
  | [] =>
      let? candidates := with_status ts "in_progress" in
      let? candidates := sorted_by_task_id candidates in
      match candidates with
      | first :: _ => Ok (Some first)
      | [] =>
          let? todo := with_status ts "todo" in
          let? todo := sorted_by_task_id todo in
          first_ready by_id todo
      end
  end.

(** ** service.py: the hotfix event of an issue *)

Section Hotfix.

Variable py_repr : json -> string.

Variable unicodedata_decimal : string -> option Z.

(** The loop of [build_hotfix_event] over the events there are. *)
Fixpoint has_hotfix_event (events : list dict) (hotfix_task_id : string)
  : result bool :=
  match events with
  | [] => Ok false
  | event :: r =>
      let? action := dict_getitem event "action" in
      if py_eq action (JStr "hotfix.create") then
        let? payload := dict_getitem event "payload" in
        let? p := as_dict payload in
        if py_eq (dict_get p "task_id") (JStr hotfix_task_id) then Ok true
        else has_hotfix_event r hotfix_task_id
      else has_hotfix_event r hotfix_task_id
  end.

(** The payload of the hotfix event; an f-string formats a value with
    [str]. *)
Definition hotfix_payload (issue_payload : dict) (baseline_id : json) : dict :=
  let issue_id := dict_get issue_payload "issue_id" in
  let hotfix_task_id := "HF-" ++ py_str py_repr issue_id in
  [("task_id", JStr hotfix_task_id);
   ("task_kind", JStr "impl");
   ("title", JStr ("Hotfix for " ++ py_str py_repr issue_id));
   ("description",
     JStr ("Apply a minimal hotfix to resolve issue "
           ++ py_str py_repr issue_id
           ++ " without regressing immutable done tasks."));
   ("depends_on", JArr []);
   ("targets", JArr [issue_id]);
   ("outputs",
     JObj [("files", JArr [JStr ("src/hotfix/" ++ hotfix_task_id ++ ".txt")])]);
   ("is_hotfix", JBool true);
   ("issue_id", issue_id);
   ("fixes", dict_get issue_payload "fixes");
   ("scope_patch",
     Dict.get_default "scope_patch" (JArr [JStr "src/hotfix/"]) issue_payload);
   ("required_verification",
     Dict.get_default "required_verification"
       (JArr [JStr "unit"; JStr "regression"]) issue_payload);
   ("baseline_id", baseline_id)].

(** [build_hotfix_event]; [ts] is the time [make_event] reads. *)
Definition build_hotfix_event (ts : string) (current_events : list dict)
  (issue_payload : dict) : result (option dict) :=
  let issue_id := dict_get issue_payload "issue_id" in
  let fixes := dict_get issue_payload "fixes" in
  if negb (truthy issue_id) || negb (truthy fixes) then Ok None
  else
    let hotfix_task_id := "HF-" ++ py_str py_repr issue_id in
    let? found := has_hotfix_event current_events hotfix_task_id in
    if found then Ok None
    else
      let? seq := next_event_seq unicodedata_decimal current_events in
      let? affected :=
        as_dict (Dict.get_default "affected" (JObj []) issue_payload) in
      Ok (Some (make_event ts seq "orchestrator" "hotfix.create"
                  (JObj (hotfix_payload issue_payload
                           (Dict.get_default "baseline_id" (JStr "B-000")
                              affected))))).

End Hotfix.

(** ** service.py: [project] and [verify]

    The event store is the list of lines [parse_event_store] reads, and
    [roadmap.json] holds the value that was saved to it last, or nothing:
    [json.dumps] followed by [json.loads] gives the value back.  The
    message of an exception, which the embedding does not keep, is a
    function of the exception. *)

Module Service.

Section Verify.

Variable sha256_hexdigest : list Byte.byte -> string.

Variable py_repr : json -> string.

Variable exn_message : exn -> string.

(** [len(v)] of a value that is a list. *)
Definition py_len (v : json) : result Z :=
  match v with
  | JArr xs => Ok (Z.of_nat (List.length xs))
  | JStr s => Ok (Z.of_nat (List.length (Str.chars s)))
  | JObj kvs => Ok (Z.of_nat (List.length kvs))
  | _ => Raise TypeError
  end.

(** [ESAAService.project]: the dict it returns and the roadmap it saves. *)
Definition project (now : string) (lines : list (option dict))
  : result (dict * json) :=
  let? events := parse_event_store lines in
  let? (roadmap, issues, lessons) :=
    materialize sha256_hexdigest py_repr now events (JStr "esaa-core") in
  let? m := getitem roadmap "meta" in
  let? r := getitem m "run" in
  let? seq := getitem r "last_event_seq" in
  let? m := getitem roadmap "meta" in
  let? r := getitem m "run" in
  let? h := getitem r "projection_hash_sha256" in
  let? ts := getitem roadmap "tasks" in
  let? n := py_len ts in
  Ok ([("last_event_seq", seq);
       ("projection_hash_sha256", h);
       ("tasks", JInt n);
       ("issues", JInt (Z.of_nat (List.length (iv_issues issues))));
       ("lessons", JInt (Z.of_nat (List.length (lv_lessons lessons))))],
      roadmap).

(** [stored.get("meta", {}).get("run", {}).get(key)] *)
Definition stored_run_field (stored : json) (key : string) : result json :=
  let? s := as_dict stored in
  let? m := as_dict (Dict.get_default "meta" (JObj []) s) in
  let? r := as_dict (Dict.get_default "run" (JObj []) m) in
  Ok (dict_get r key).

(** [projected["meta"]["run"][key]] *)
Definition projected_run_field (projected : json) (key : string)
  : result json :=
  let? m := getitem projected "meta" in
  let? r := getitem m "run" in
  getitem r key.

(** [ESAAService.verify]; [stored] is what [load_roadmap] returns. *)
Definition verify (now : string) (lines : list (option dict))
  (stored : option json) : result dict :=
  match
    (let? events := parse_event_store lines in
     materialize sha256_hexdigest py_repr now events (JStr "esaa-core"))
  with
  | Raise exc =>
      if is_CorruptedStoreError exc then
        Ok [("verify_status", JStr "corrupted");
            ("error_code",
              match code_of exc with Some c => JStr c | None => JNull end);
            ("error_message", JStr (exn_message exc));
            ("last_event_seq", JNull);
            ("projection_hash_sha256", JNull)]
      else Raise exc
  | Ok (projected, _, _) =>
      match stored with
      | None =>
          let? seq := projected_run_field projected "last_event_seq" in
          let? h := projected_run_field projected "projection_hash_sha256" in
          Ok [("verify_status", JStr "mismatch");
              ("reason", JStr "roadmap_missing");
              ("last_event_seq", seq);
              ("projection_hash_sha256", h)]
      | Some stored =>
          let? computed_hash :=
            projected_run_field projected "projection_hash_sha256" in
          let? stored_hash :=
            stored_run_field stored "projection_hash_sha256" in
          let? computed_seq :=
            projected_run_field projected "last_event_seq" in
          let? stored_seq := stored_run_field stored "last_event_seq" in
          if py_eq computed_hash stored_hash && py_eq computed_seq stored_seq
          then
            Ok [("verify_status", JStr "ok");
                ("last_event_seq", computed_seq);
                ("projection_hash_sha256", computed_hash)]
          else
            Ok [("verify_status", JStr "mismatch");
                ("last_event_seq", computed_seq);
                ("projection_hash_sha256", computed_hash);
                ("stored_last_event_seq", stored_seq);
                ("stored_projection_hash_sha256", stored_hash)]
      end
  end.

End Verify.

End Service.

(** ** validator.py: the write boundaries

    [fnmatch.fnmatch] of Python is taken as it is.  The contract is the
    value [yaml.safe_load] returns for [AGENT_CONTRACT.yaml], whose
    mappings have string keys. *)

(** [v[k]] for any key [k]: a dict is looked up, a list or a string is
    indexed by an [int], from the end when it is negative. *)
Definition getitem_any (v k : json) : result json :=
  match v with
  | JObj d =>
      match k with
      | JStr s => dict_getitem d s
      | JArr _ | JObj _ => Raise TypeError
      | JNull => Raise (KeyError "None")
      | JBool true => Raise (KeyError "True")
      | JBool false => Raise (KeyError "False")
      | JInt n => Raise (KeyError (Str.of_Z n))
      end
  | JArr xs =>
      match isinstance_int k with
      | Some n =>
          let len := Z.of_nat (List.length xs) in
          if (0 <=? n) && (n <? len) then
            match nth_error xs (Z.to_nat n) with
            | Some x => Ok x
            | None => Raise IndexError
            end
          else if (- len <=? n) && (n <? 0) then
            match nth_error xs (Z.to_nat (n + len)) with
            | Some x => Ok x
            | None => Raise IndexError
            end
          else Raise IndexError
      | None => Raise TypeError
      end
  | JStr s =>
      match isinstance_int k with
      | Some n =>
          let cs := Str.chars s in
          let len := Z.of_nat (List.length cs) in
          if (0 <=? n) && (n <? len) then
            match nth_error cs (Z.to_nat n) with
            | Some x => Ok (JStr x)
            | None => Raise IndexError
            end
          else if (- len <=? n) && (n <? 0) then
            match nth_error cs (Z.to_nat (n + len)) with
            | Some x => Ok (JStr x)
            | None => Raise IndexError
            end
          else Raise IndexError
      | None => Raise TypeError
      end
  | _ => Raise TypeError
  end.

Section Boundaries.

Variable fnmatch : string -> string -> bool.

(** The loop of [any] in [_matches_any]: a pattern that is not a string
    has no [replace]. *)
Fixpoint matches_any_loop (path : string) (patterns : list json)
  : result bool :=
  match patterns with
  | [] => Ok false
  | pattern :: r =>
      match pattern with
      | JStr p =>
          if fnmatch path (Str.replace_char "\" "/" p) then Ok true
          else matches_any_loop path r
      | _ => Raise AttributeError
      end
  end.

(** [_matches_any] *)
Definition _matches_any (path : string) (patterns : json) : result bool :=
  let? ps := py_list patterns in
  matches_any_loop path ps.

(** [any(path.startswith(normalize_rel_path(prefix)) for prefix in
    scope_patch)] *)
Fixpoint in_scope_loop (path : string) (prefixes : list json) : result bool :=
  match prefixes with
  | [] => Ok false
  | prefix :: r =>
      match prefix with
      | JStr p =>
          if Str.starts_with (normalize_rel_path p) path then Ok true
          else in_scope_loop path r
      | _ => Raise AttributeError
      end
  end.

(** The body of the loop of [_validate_boundaries], for one update. *)
Definition check_update (allowlist denylist scope_patch_enabled : json)
  (task : dict) (scope_patch : json) (item : json) : result unit :=
  let? raw := getitem item "path" in
  let? path :=
    match raw with
    | JStr p => _validate_safe_path p
    | _ => Raise AttributeError
    end in
  let? allowed := _matches_any path allowlist in
  if negb allowed then Raise (ESAAError "BOUNDARY_VIOLATION")
  else
    let? denied :=
      if truthy denylist then _matches_any path denylist else Ok false in
    if denied then Raise (ESAAError "BOUNDARY_VIOLATION")
    else if truthy scope_patch_enabled && truthy (dict_get task "is_hotfix")
    then
      if negb (truthy scope_patch) then Raise (ESAAError "BOUNDARY_VIOLATION")
      else
        let? prefixes := py_list scope_patch in
        let? inside := in_scope_loop path prefixes in
        if negb inside then Raise (ESAAError "BOUNDARY_VIOLATION")
        else Ok tt
    else Ok tt.

Fixpoint check_updates (allowlist denylist scope_patch_enabled : json)
  (task : dict) (scope_patch : json) (updates : list json) : result unit :=
  match updates with
  | [] => Ok tt
  | item :: r =>
      let? _ := check_update allowlist denylist scope_patch_enabled task
                  scope_patch item in
      check_updates allowlist denylist scope_patch_enabled task scope_patch r
  end.

(** The first statements of [_validate_boundaries]: the allowlist and the
    denylist of the task's kind, and whether patches are scoped. *)
Definition task_boundaries (contract : json) (task : dict)
  : result (json * json * json) :=
  let? b := getitem contract "boundaries" in
  let? by_kind := getitem b "by_task_kind" in
  let? kind := dict_getitem task "task_kind" in
  let? boundaries := getitem_any by_kind kind in
  let? allowlist := getitem boundaries "write" in
  let? bd := as_dict boundaries in
  let denylist := Dict.get_default "forbidden_write" (JArr []) bd in
  let? b := getitem contract "boundaries" in
  let? ps := getitem b "patch_scope" in
  let? scope_patch_enabled := getitem ps "enabled" in
  Ok (allowlist, denylist, scope_patch_enabled).

(** [_validate_boundaries] *)
Definition _validate_boundaries (updates : list json) (contract : json)
  (task : dict) : result unit :=
  let? (allowlist, denylist, scope_patch_enabled) :=
    task_boundaries contract task in
  let scope_patch := Dict.get_default "scope_patch" (JArr []) task in
  check_updates allowlist denylist scope_patch_enabled task scope_patch
    updates.

End Boundaries.

(** * Scenarios and predicates of the specification *)

(** The order of two object members by their keys. *)
Definition key_le {V : Type} (a b : string * V) : Prop :=
  String.leb (fst a) (fst b) = true.

(** The event carries the number [n] as its [event_seq]. *)
Definition event_seq_is (ev : dict) (n : Z) : Prop :=
  exists v, Dict.get "event_seq" ev = Some v /\ isinstance_int v = Some n.

(** The events are numbered [k+1], [k+2], ... in order. *)
Inductive numbered : Z -> list dict -> Prop :=
| numbered_nil k : numbered k []
| numbered_cons k ev rest :
    event_seq_is ev (k + 1) -> numbered (k + 1) rest -> numbered k (ev :: rest).

(** A stored event whose [event_seq] is the JSON value [true]. *)
Definition boolean_seq_line : dict :=
  [("schema_version", JStr "0.4.0"); ("event_id", JStr "EV-00000001");
   ("event_seq", JBool true); ("ts", JStr "2026-02-23T16:44:23Z");
   ("actor", JStr "orchestrator"); ("action", JStr "run.start");
   ("payload", JObj [])].

(** [m] keeps [P]: if [P] holds of the state [m] starts in, it holds of the
    state [m] leaves, whether [m] returns or raises. *)
Definition stable {A : Type} (P : state -> Prop) (m : M A) : Prop :=
  forall st, P st -> P (snd (m st)).

(** A property of the task list alone. *)
Definition on_tasks (Q : list dict -> Prop) : state -> Prop :=
  fun st => Q (tasks st).

(** The task record has status ["done"]. *)
Definition is_done (task : dict) : Prop :=
  Dict.get "status" task = Some (JStr "done").

(** The record at index [j] of the task list is [d]. *)
Definition holds_at (j : nat) (d : dict) : state -> Prop :=
  on_tasks (fun ts => nth_error ts j = Some d).

(** The state after the task T-1 was created, claimed, completed and
    approved. *)
Definition done_state : state :=
  snd (apply_events
         [Scenario.run_start; Scenario.create; Scenario.claim_by 3 "agent-a";
          Scenario.complete_by 4 "agent-a";
          Scenario.review_by 5 "agent-a" "approve"]
         (_empty_state Scenario.t0 (JStr "esaa-core"))).

(** The record of T-1 in [done_state]. *)
Definition done_task : dict :=
  [("task_id", JStr "T-1"); ("task_kind", JStr "impl"); ("title", JStr "Task");
   ("description", JStr "Task description"); ("status", JStr "done");
   ("depends_on", JArr []); ("targets", JArr []);
   ("outputs", JObj [("files", JArr [JStr "src/T-1.txt"])]);
   ("immutability", JObj [("done_is_immutable", JBool true)]);
   ("assigned_to", JStr "agent-a"); ("started_at", JStr Scenario.t0);
   ("verification", JObj [("checks", JArr [JStr "ok"])]);
   ("completed_at", JStr Scenario.t0)].

(** The status a task must be in for the action. *)
Definition required_status (action : string) : string :=
  if String.eqb action "complete" then "in_progress" else "review".

(** The state after the task T-1 was created, claimed and completed by
    agent-a: it is in review. *)
Definition review_state : state :=
  snd (apply_events
         [Scenario.run_start; Scenario.create; Scenario.claim_by 3 "agent-a";
          Scenario.complete_by 4 "agent-a"]
         (_empty_state Scenario.t0 (JStr "esaa-core"))).

(** The state after T-1 was created and claimed by agent-a. *)
Definition claimed_state : state :=
  snd (apply_events
         [Scenario.run_start; Scenario.create; Scenario.claim_by 3 "agent-a"]
         (_empty_state Scenario.t0 (JStr "esaa-core"))).

(** A status other than ["todo"]. *)
Definition locked_value (v : json) : Prop :=
  v = JStr "in_progress" \/ v = JStr "review" \/ v = JStr "done".

(** The task was claimed at some time: it is in progress, in review or
    done. *)
Definition locked (task : dict) : Prop :=
  exists v, Dict.get "status" task = Some v /\ locked_value v.

(** Looking [tid] up gives the record at [i], and that record is locked. *)
Definition held (tid : json) (i : nat) : state -> Prop :=
  on_tasks (fun ts =>
    find_task ts tid 0 = Ok i /\
    exists task, nth_error ts i = Some task /\ locked task).

(** [m] raises nothing but what [ok] allows. *)
Definition raises_only {A : Type} (ok : exn -> Prop) (m : M A) : Prop :=
  forall st e, fst (m st) = Raise e -> ok e.

(** The same for a result. *)
Definition result_raises_only {A : Type} (ok : exn -> Prop) (r : result A)
  : Prop :=
  forall e, r = Raise e -> ok e.

(** An exception that is not the [ESAAError] with code [DUPLICATE_TASK]. *)
Definition not_duplicate (e : exn) : Prop := e <> ESAAError "DUPLICATE_TASK".

(** An [issue.report] event for the issue I-1. *)
Definition report (seq : Z) (severity title baseline log : string) : dict :=
  make_event Scenario.t0 seq "agent-qa" "issue.report"
    (JObj [("issue_id", JStr "I-1"); ("severity", JStr severity);
           ("title", JStr title);
           ("affected", JObj [("baseline_id", JStr baseline)]);
           ("evidence", JObj [("log", JStr log)])]).

(** The state after issue I-1 was reported against baseline B-1. *)
Definition reported_state : state :=
  snd (apply_events [Scenario.run_start; report 2 "low" "first" "B-1" "a"]
         (_empty_state Scenario.t0 (JStr "esaa-core"))).

(** The test of [_apply_issue_report] for a report that carries a lesson. *)
Definition is_lesson_report (p : dict) : bool :=
  py_eq (dict_get p "category") (JStr "process")
  && py_eq (dict_get p "subtype") (JStr "lesson")
  && Dict.mem "lesson" p.

(** The issue stored under [key] is [issue]. *)
Definition issues_are (key : json) (issue : dict) : state -> Prop :=
  fun st => kget key (_issues st) = Some issue.

(** [m] commutes with a change of [meta.updated_at]: it neither reads nor
    writes that field. *)
Definition timeless {A : Type} (m : M A) : Prop :=
  forall t st,
    m (set_updated_at t st) = (fst (m st), set_updated_at t (snd (m st))).

(** What [m] returns does not depend on the [meta.updated_at] it starts
    with, nor does the state it leaves when it succeeds; when it raises,
    the field is as it was. *)
Definition overwrites_time {A : Type} (m : M A) : Prop :=
  forall t st,
    m (set_updated_at t st)
    = match m st with
      | (Ok a, st') => (Ok a, st')
      | (Raise e, st') => (Raise e, set_updated_at t st')
      end.

(** Two states that differ in [meta.updated_at] at most. *)
Definition same_but_time (s1 s2 : state) : Prop :=
  set_updated_at JNull s1 = set_updated_at JNull s2.

(** The part of a roadmap that is hashed. *)
Definition hashed_part (roadmap : json) : result json :=
  let? m := getitem roadmap "meta" in
  let? sv := getitem m "schema_version" in
  let? p := getitem roadmap "project" in
  let? ts := getitem roadmap "tasks" in
  let? ix := getitem roadmap "indexes" in
  Ok (JObj [("schema_version", sv); ("project", p); ("tasks", ts);
            ("indexes", ix)]).

(** The indexes of the emitted roadmap; [py_repr] is [str] on a list or a
    dict. *)
Definition final_indexes (py_repr : json -> string) (st : state) : dict :=
  Dict.set "by_kind" (JObj (_index_counts py_repr (tasks st) "task_kind"))
    (Dict.set "by_status" (JObj (_index_counts py_repr (tasks st) "status"))
       (indexes st)).

(** The part of the roadmap of [st] that is hashed. *)
Definition hashed_of_state (py_repr : json -> string) (st : state) : json :=
  JObj [("schema_version", schema_version (meta st));
        ("project", project st);
        ("tasks", JArr (List.map JObj (tasks st)));
        ("indexes", JObj (final_indexes py_repr st))].

(** The hash a materialization reports, or the exception it ends with. *)
Definition hash_of (r : result (json * issues_view_t * lessons_view_t))
  : result json :=
  Res.bind (Res.map (@roadmap_of) r) reported_hash.

(** A log of three events: run start, creation of T-1, claim of T-1. *)
Definition three_line_log : list (option dict) :=
  [Some Scenario.run_start; Some Scenario.create;
   Some (Scenario.claim_by 3 "agent-a")].

(** ** Predicates of further properties *)

(** The character [a] does not occur in [s]. *)
Fixpoint char_free (a : ascii) (s : string) : Prop :=
  match s with
  | EmptyString => True
  | String c r => c <> a /\ char_free a r
  end.

(** What [parse_event_store] asks of an event besides its number and its
    id: the seven required fields and a canonical action. *)
Definition stored_event (ev : dict) : Prop :=
  (forall k, In k required_fields -> Dict.mem k ev = true) /\
  exists a, Dict.get "action" ev = Some (JStr a) /\ In a CANONICAL_ACTIONS.

(** Each event has a hashable [event_id] that is equal to none of [seen]
    and to none of the events before it. *)
Inductive fresh_ids : list json -> list dict -> Prop :=
| fresh_ids_nil seen : fresh_ids seen []
| fresh_ids_cons seen ev id rest :
    Dict.get "event_id" ev = Some id ->
    hashable id = true ->
    List.existsb (py_eq id) seen = false ->
    fresh_ids (id :: seen) rest ->
    fresh_ids seen (ev :: rest).

(** A log as the service writes it: stored events without a legacy
    ["data"] field, numbered from 1, each with an id of its own. *)
Definition well_formed_log (events : list dict) : Prop :=
  Forall stored_event events /\
  Forall (fun ev => Dict.mem "data" ev = false) events /\
  fresh_ids [] events /\
  numbered 0 events.

(** No key occurs twice, as in any Python dict. *)
Definition dict_wf (d : dict) : Prop := NoDup (List.map fst d).

Definition line_wf (line : option dict) : Prop :=
  match line with
  | Some raw => dict_wf raw
  | None => True
  end.

Definition event_id_of (ev : dict) : json := dict_get ev "event_id".

(** The codes of the [ESAAError]s that the handlers of projector.py raise;
    [_apply_event] itself adds [UNKNOWN_ACTION]. *)
Definition handler_codes : list string :=
  ["TASK_NOT_FOUND"; "IMMUTABLE_DONE"; "LOCKED_TASK"; "INVALID_TRANSITION";
   "NOT_LOCK_OWNER"; "DUPLICATE_TASK"; "ISSUE_NOT_FOUND"].

(** An exception of Python itself, or an [ESAAError] (not a
    [CorruptedStoreError]) with one of the handlers' codes. *)
Definition handler_error (e : exn) : Prop :=
  match e with
  | ESAAError c => In c handler_codes
  | CorruptedStoreError _ => False
  | _ => True
  end.

(** The writes the handlers make to a task record they looked up:
    [task[k] = v] with one of three statuses, or with one of six other
    keys. *)
Definition task_write (k : string) (v : json) : Prop :=
  (k = "status" /\ In v [JStr "in_progress"; JStr "review"; JStr "done"]) \/
  In k ["assigned_to"; "started_at"; "completed_at"; "verification";
        "issue_id"; "fixes"].

(** The keys of a task record that a handler may write. *)
Definition mutable_task_keys : list string :=
  ["status"; "assigned_to"; "started_at"; "completed_at"; "verification";
   "issue_id"; "fixes"].

(** The keys [_new_task] gives every task record. *)
Definition task_keys : list string :=
  ["task_id"; "task_kind"; "title"; "description"; "status"; "depends_on";
   "targets"; "outputs"; "immutability"].

(** A task record as the projector keeps it: the nine keys of [_new_task],
    one of the four statuses, lists of dependencies and targets, and the
    immutability marker. *)
Definition valid_task (task : dict) : Prop :=
  (forall k, In k task_keys -> Dict.mem k task = true) /\
  (exists s, Dict.get "status" task = Some (JStr s) /\
             In s ["todo"; "in_progress"; "review"; "done"]) /\
  (exists deps, Dict.get "depends_on" task = Some (JArr deps)) /\
  (exists targets, Dict.get "targets" task = Some (JArr targets)) /\
  Dict.get "immutability" task
  = Some (JObj [("done_is_immutable", JBool true)]).

(** Two states with the same schema version, project, tasks, indexes,
    issues and lessons: they differ in [meta] at most. *)
Definition same_projection (s1 s2 : state) : Prop :=
  schema_version (meta s1) = schema_version (meta s2) /\
  project s1 = project s2 /\ tasks s1 = tasks s2 /\
  indexes s1 = indexes s2 /\ _issues s1 = _issues s2 /\
  _lessons s1 = _lessons s2.

(** What [m] returns or raises depends on that part of the state only, and
    so does that part of the state [m] leaves. *)
Definition respects {A : Type} (m : M A) : Prop :=
  forall s1 s2,
    same_projection s1 s2 ->
    fst (m s1) = fst (m s2) /\ same_projection (snd (m s1)) (snd (m s2)).

(** The actions that [_apply_event] records in [meta.run] or not at all. *)
Definition bookkeeping_actions : list string :=
  ["run.start"; "run.end"; "verify.start"; "verify.ok"; "verify.fail";
   "output.rejected"; "orchestrator.file.write"; "orchestrator.view.mutate"].

(** An event with such an action, a dict for payload, a sequence number
    and a time. *)
Definition bookkeeping (ev : dict) : Prop :=
  exists a p,
    Dict.get "action" ev = Some (JStr a) /\ In a bookkeeping_actions /\
    Dict.get "payload" ev = Some (JObj p) /\
    Dict.mem "event_seq" ev = true /\ Dict.mem "ts" ev = true.

(** What an accepted [claim], [complete] or [review] leaves: the task
    [tid] is still found at [i], its record [t] has become [t'] with
    [P t t'], the other records, the issues and the lessons are as they
    were. *)
Definition task_step (tid : json) (i : nat) (P : dict -> dict -> Prop)
  (st st' : state) : Prop :=
  find_task (tasks st') tid 0 = Ok i /\
  (exists t t',
     nth_error (tasks st) i = Some t /\ nth_error (tasks st') i = Some t' /\
     P t t') /\
  (forall j, j <> i -> nth_error (tasks st') j = nth_error (tasks st) j) /\
  _issues st' = _issues st /\ _lessons st' = _lessons st.


(** The record has the status [s]. *)
Definition has_status (s : string) (task : dict) : Prop :=
  Dict.get "status" task = Some (JStr s).

(** In the order of task ids, [c] does not come before [task]. *)
Definition not_before (task c : dict) : Prop :=
  exists kt kc,
    Dict.get "task_id" task = Some kt /\ Dict.get "task_id" c = Some kc /\
    key_lt kc kt = Ok false.

(** Every dependency of [task] that [by_id] knows is done. *)
Definition ready (by_id : list (json * dict)) (task : dict) : Prop :=
  exists deps,
    py_list (Dict.get_default "depends_on" (JArr []) task) = Ok deps /\
    forall dep t, In dep deps -> kget dep by_id = Some t -> has_status "done" t.

(** Two task records: a done specification and the implementation that
    waits for it. *)
Definition spec_done : dict :=
  [("task_id", JStr "T-1000"); ("status", JStr "done");
   ("depends_on", JArr [])].

Definition impl_todo : dict :=
  [("task_id", JStr "T-1010"); ("status", JStr "todo");
   ("depends_on", JArr [JStr "T-1000"])].

(** Three records, the first and the last under the same id. *)
Definition t1_todo : dict :=
  [("task_id", JStr "T-1"); ("status", JStr "todo"); ("depends_on", JArr [])].

Definition t2_todo : dict :=
  [("task_id", JStr "T-2"); ("status", JStr "todo");
   ("depends_on", JArr [JStr "T-1"])].

Definition t1_done : dict :=
  [("task_id", JStr "T-1"); ("status", JStr "done"); ("depends_on", JArr [])].

Definition shared_id_tasks : list dict := [t1_todo; t2_todo; t1_done].

(** [b] does not come before [a]. *)
Definition key_not_before {A : Type} (a b : json * A) : Prop :=
  key_lt (fst b) (fst a) = Ok false.

(** The class of a hashable value under [==]: [True] is [1]. *)
Definition key_class (v : json) : option (Z + string) :=
  match v with
  | JNull => None
  | JBool b => Some (inl (Z.b2z b))
  | JInt n => Some (inl n)
  | JStr s => Some (inr s)
  | JArr _ | JObj _ => None
  end.

(** The keys of a dict are hashable. *)
Definition keys_hashable {V : Type} (d : list (json * V)) : Prop :=
  Forall (fun kv => hashable (fst kv) = true) d.

(** The last record of [ts] whose id equals [dep], if there is one. *)
Definition last_with_id (ts : list dict) (dep : json) (t : dict) : Prop :=
  exists pre post,
    ts = (pre ++ t :: post)%list /\
    py_eq (dict_get t "task_id") dep = true /\
    forall c, In c post -> py_eq (dict_get c "task_id") dep = false.

(** The first one. *)
Definition first_with_id (ts : list dict) (tid : json) (i : nat) (t : dict)
  : Prop :=
  nth_error ts i = Some t /\
  py_eq (dict_get t "task_id") tid = true /\
  forall j c, (j < i)%nat -> nth_error ts j = Some c ->
              py_eq (dict_get c "task_id") tid = false.

(** A property of the issues alone. *)
Definition on_issues (Q : list (json * dict) -> Prop) : state -> Prop :=
  fun st => Q (_issues st).

(** The keys [_apply_issue_report] gives every issue record. *)
Definition issue_keys : list string :=
  ["issue_id"; "status"; "severity"; "title"; "baseline_id"; "affected";
   "evidence"; "resolution"; "links"; "timeline"].

(** The writes the handlers make to an issue record: a status of two, a
    dict for [links] or [timeline], anything for four other keys. *)
Definition issue_write (k : string) (v : json) : Prop :=
  (k = "status" /\ In v [JStr "open"; JStr "resolved"]) \/
  (In k ["links"; "timeline"] /\ exists d, v = JObj d) \/
  In k ["severity"; "title"; "evidence"; "resolution"].

(** An entry of [state["_issues"]] as the projector keeps it: a hashable
    key, and a record with the ten keys of [_apply_issue_report], the key
    for [issue_id], a status that is [open] or [resolved], and dicts for
    [links] and [timeline]. *)
Definition valid_issue (entry : json * dict) : Prop :=
  hashable (fst entry) = true /\
  (forall k, In k issue_keys -> Dict.mem k (snd entry) = true) /\
  (exists id, Dict.get "issue_id" (snd entry) = Some id /\
              py_eq id (fst entry) = true) /\
  (exists s, Dict.get "status" (snd entry) = Some (JStr s) /\
             In s ["open"; "resolved"]) /\
  (exists links, Dict.get "links" (snd entry) = Some (JObj links)) /\
  (exists timeline, Dict.get "timeline" (snd entry) = Some (JObj timeline)).

(** The value [_index_counts] files a task under. *)
Definition index_value (py_repr : json -> string) (key : string) (task : dict)
  : string :=
  py_str py_repr (Dict.get_default key (JStr "unknown") task).

(** The number of tasks filed under [s]. *)
Definition count_value (py_repr : json -> string) (key s : string)
  (ts : list dict) : nat :=
  List.length
    (List.filter (fun task => String.eqb (index_value py_repr key task) s) ts).

(** The sum of the counts of an index. *)
Definition count_sum (d : dict) : Z :=
  List.fold_right
    (fun kv acc => match snd kv with JInt n => n + acc | _ => acc end) 0 d.

(** The sum of the values of a counter. *)
Definition zsum (d : list (string * Z)) : Z :=
  List.fold_right (fun kv acc => snd kv + acc) 0 d.

(** One of the patterns matches the path. *)
Definition some_pattern_matches (fnmatch : string -> string -> bool)
  (path : string) (patterns : json) : Prop :=
  exists ps pattern,
    py_list patterns = Ok ps /\ In (JStr pattern) ps /\
    fnmatch path (Str.replace_char "\" "/" pattern) = true.

(** None of them does. *)
Definition no_pattern_matches (fnmatch : string -> string -> bool)
  (path : string) (patterns : json) : Prop :=
  exists ps,
    py_list patterns = Ok ps /\
    forall pattern, In pattern ps ->
      exists p, pattern = JStr p /\
                fnmatch path (Str.replace_char "\" "/" p) = false.

(** The path lies under one of the prefixes. *)
Definition under_some_prefix (path : string) (prefixes : json) : Prop :=
  exists ps prefix,
    py_list prefixes = Ok ps /\ In (JStr prefix) ps /\
    Str.starts_with (normalize_rel_path prefix) path = true.

(** A contract that lets implementation tasks write under [src/] but not
    under [src/secret/], a task of that kind and one update. *)
Definition sample_contract : json :=
  JObj [("boundaries",
          JObj [("by_task_kind",
                  JObj [("impl",
                          JObj [("write", JArr [JStr "src/*"]);
                                ("forbidden_write",
                                  JArr [JStr "src/secret/*"])])]);
                ("patch_scope", JObj [("enabled", JBool true)])])].

Definition sample_task : dict :=
  [("task_id", JStr "T-1010"); ("task_kind", JStr "impl")].

Definition sample_update : json :=
  JObj [("path", JStr "src\T-1010.txt"); ("content", JStr "x")].

(** A matcher for the sample: the pattern [p*] matches what starts with
    [p]; any other pattern matches itself. *)
Definition prefix_match (name pattern : string) : bool :=
  match List.rev (list_ascii_of_string pattern) with
  | "*"%char :: r =>
      String.prefix (string_of_list_ascii (List.rev r)) name
  | _ => String.eqb name pattern
  end.

(** ** Canonical JSON, in the words of the specification *)

(** [canonical_text value text]: [text] is a canonical JSON text of
    [value].  Scalars are written as JSON writes them; an array is its
    items between brackets, a comma and nothing else between two of them;
    an object is its members between braces, each written [key:value] with
    nothing around the colon, in the order of their keys, a comma and
    nothing else between two of them; items and member values are
    canonical texts themselves. *)
Inductive canonical_text : json -> string -> Prop :=
| canonical_null : canonical_text JNull "null"
| canonical_true : canonical_text (JBool true) "true"
| canonical_false : canonical_text (JBool false) "false"
| canonical_int n : canonical_text (JInt n) (Str.of_Z n)
| canonical_str s : canonical_text (JStr s) (json_quote s)
| canonical_arr items texts :
    Forall2 canonical_text items texts ->
    canonical_text (JArr items) ("[" ++ join "," texts ++ "]")
| canonical_obj members texts sorted :
    Forall2
      (fun member text =>
         fst text = fst member /\ canonical_text (snd member) (snd text))
      members texts ->
    Permutation sorted texts ->
    Sorted key_le sorted ->
    canonical_text (JObj members)
      ("{" ++ join ","
                (List.map (fun text => json_quote (fst text) ++ ":" ++ snd text)
                   sorted)
           ++ "}").

(** ** Decimal numerals *)




(** * Properties *)

(** ** The embedding on the tests of the repository *)

Example zero_padded_1 : Str.zero_padded 8 1 = "00000001".
Proof. reflexivity. Qed.

Example zero_padded_wide : Str.zero_padded 4 12345 = "12345".
Proof. reflexivity. Qed.

Example blank_mixed : Str.blank (String " " (String "009" "")) = true.
Proof. reflexivity. Qed.

Example chars_utf8 :
  Str.chars (String "h" (String "195" (String "169" "!")))
  = ["h"; String "195" (String "169" ""); "!"].
Proof. reflexivity. Qed.

Example sort_keys_example :
  Str.sort_by_key [("b", 1); ("a", 2); ("c", 3); ("B", 4)]
  = [("B", 4); ("a", 2); ("b", 1); ("c", 3)].
Proof. reflexivity. Qed.

Example canonical_example :
  json_dumps_canonical
    (JObj [("b", JArr [JInt 1; JNull; JBool true]);
           ("a", JObj [("z", JStr (String "a" (String dquote "b"))); ("k", JInt (-3))])])
  = "{" ++ json_quote "a" ++ ":{" ++ json_quote "k" ++ ":-3," ++ json_quote "z"
        ++ ":" ++ String dquote ("a\" ++ String dquote ("b" ++ String dquote ""))
        ++ "}," ++ json_quote "b" ++ ":[1,null,true]}".
Proof. reflexivity. Qed.

Example safe_path_plain :
  _validate_safe_path "./docs/spec/T-1000.md" = Ok "docs/spec/T-1000.md".
Proof. reflexivity. Qed.

Example safe_path_inner_dotdot :
  _validate_safe_path "docs/../src/x.py" = Raise (ESAAError "BOUNDARY_VIOLATION").
Proof. reflexivity. Qed.

Example safe_path_backslash :
  _validate_safe_path "docs\..\x" = Raise (ESAAError "BOUNDARY_VIOLATION").
Proof. reflexivity. Qed.

Example posix_parts_example :
  posix_parts "a//b/./c/" = ["a"; "b"; "c"].
Proof. reflexivity. Qed.

Example test_legacy_event_is_normalized :
  parse_event_store [Some legacy_line]
  = Ok [[("schema_version", JStr "0.3.0"); ("event_seq", JInt 1);
         ("ts", JStr "2026-02-23T16:44:23Z"); ("actor", JStr "orchestrator");
         ("action", JStr "run.start");
         ("payload", JObj [("run_id", JStr "RUN-1");
                           ("master_correlation_id", JStr "CID-1");
                           ("status", JStr "initialized")]);
         ("event_id", JStr "LEGACY-EV-00000001")]].
Proof. reflexivity. Qed.

Example test_missing_payload_is_rejected :
  parse_event_store
    [Some [("schema_version", JStr "0.4.0"); ("event_id", JStr "EV-00000001");
           ("event_seq", JInt 1); ("ts", JStr "2026-02-23T16:44:23Z");
           ("actor", JStr "orchestrator"); ("action", JStr "run.start")]]
  = Raise (CorruptedStoreError "EVENT_MISSING_FIELDS").
Proof. reflexivity. Qed.

Example test_unknown_action_is_rejected :
  parse_event_store
    [Some [("schema_version", JStr "0.4.0"); ("event_id", JStr "EV-00000001");
           ("event_seq", JInt 1); ("ts", JStr "2026-02-23T16:44:23Z");
           ("actor", JStr "orchestrator"); ("action", JStr "does.not.exist");
           ("payload", JObj [])]]
  = Raise (CorruptedStoreError "UNKNOWN_ACTION").
Proof. reflexivity. Qed.

Example test_complete_by_non_owner_is_rejected :
  Scenario.outcome
    [Scenario.run_start; Scenario.create; Scenario.claim_by 3 "agent-a";
     Scenario.complete_by 4 "agent-b"]
  = Raise (ESAAError "NOT_LOCK_OWNER").
Proof. reflexivity. Qed.

Example test_done_is_immutable :
  Scenario.outcome
    [Scenario.run_start; Scenario.create; Scenario.claim_by 3 "agent-a";
     Scenario.complete_by 4 "agent-a"; Scenario.review_by 5 "agent-a" "approve";
     Scenario.claim_by 6 "agent-a"]
  = Raise (ESAAError "IMMUTABLE_DONE").
Proof. reflexivity. Qed.

Example claim_complete_approve :
  Res.bind
    (Scenario.outcome
       [Scenario.run_start; Scenario.create; Scenario.claim_by 3 "agent-a";
        Scenario.complete_by 4 "agent-a"; Scenario.review_by 5 "agent-a" "approve"])
    Scenario.task_status
  = Ok [JStr "done"].
Proof. reflexivity. Qed.

Example test_task_description_fallback_from_title :
  Res.map (fun t => dict_get t "description")
    (_new_task
       (JObj [("task_id", JStr "T-LEGACY"); ("task_kind", JStr "spec");
              ("title", JStr "Legacy title only"); ("depends_on", JArr []);
              ("targets", JArr []);
              ("outputs", JObj [("files", JArr [JStr "docs/spec/T-LEGACY.md"])])]))
  = Ok (JStr "Legacy title only").
Proof. reflexivity. Qed.

(** ** Dicts *)

Lemma get_set_eq {V : Type} (k : string) (v : V) d :
  Dict.get k (Dict.set k v d) = Some v.
Proof.
  induction d as [|[k' v'] r IH]; simpl.
  - now rewrite String.eqb_refl.
  - destruct (String.eqb k' k) eqn:E; simpl.
    + now rewrite String.eqb_refl.
    + now rewrite E.
Qed.

Lemma get_set_ne {V : Type} (k k0 : string) (v : V) d :
  k <> k0 -> Dict.get k0 (Dict.set k v d) = Dict.get k0 d.
Proof.
  intros Hne. induction d as [|[k' v'] r IH]; simpl.
  - destruct (String.eqb k k0) eqn:E; [apply String.eqb_eq in E; tauto|easy].
  - destruct (String.eqb k' k) eqn:E; simpl.
    + apply String.eqb_eq in E. subst k'.
      destruct (String.eqb k k0) eqn:E0; [apply String.eqb_eq in E0; tauto|easy].
    + destruct (String.eqb k' k0); [easy|apply IH].
Qed.

Lemma get_remove_ne {V : Type} (k k0 : string) (d : list (string * V)) :
  k <> k0 -> Dict.get k0 (Dict.remove k d) = Dict.get k0 d.
Proof.
  intros Hne. induction d as [|[k' v'] r IH]; simpl; [reflexivity|].
  destruct (String.eqb k' k) eqn:E; simpl.
  - apply String.eqb_eq in E. subst k'.
    destruct (String.eqb k k0) eqn:E0; [apply String.eqb_eq in E0; tauto|easy].
  - destruct (String.eqb k' k0); [reflexivity|apply IH].
Qed.

Lemma get_setdefault_ne {V : Type} (k k0 : string) (v : V) d :
  k <> k0 -> Dict.get k0 (Dict.setdefault k v d) = Dict.get k0 d.
Proof.
  intros Hne. unfold Dict.setdefault.
  destruct (Dict.mem k d); [reflexivity|now apply get_set_ne].
Qed.

Lemma get_setdefault_eq {V : Type} (k : string) (v : V) d :
  Dict.get k (Dict.setdefault k v d) = Some (Dict.get_default k v d).
Proof.
  unfold Dict.setdefault, Dict.mem, Dict.get_default.
  destruct (Dict.get k d) eqn:E; [exact E|apply get_set_eq].
Qed.

Lemma mem_get {V : Type} (k : string) (d : list (string * V)) :
  Dict.mem k d = match Dict.get k d with Some _ => true | None => false end.
Proof. reflexivity. Qed.

Lemma dict_get_unfold (d : dict) (k : string) :
  dict_get d k = match Dict.get k d with Some v => v | None => JNull end.
Proof. reflexivity. Qed.

(** Rewrites the lookups of a key in a dict built by [set], [remove] and
    [setdefault] on other keys down to the lookups in the dict one started
    from. *)
Ltac dict_lookup :=
  repeat first
    [ rewrite get_set_eq
    | rewrite get_set_ne by (intro; discriminate)
    | rewrite get_remove_ne by (intro; discriminate)
    | rewrite get_setdefault_ne by (intro; discriminate)
    | rewrite get_setdefault_eq ].

(** ** Canonical JSON: the members of an object come in key order *)

Lemma ltb_leb x y : String.ltb x y = true -> String.leb x y = true.
Proof.
  unfold String.ltb, String.leb. now destruct (String.compare x y).
Qed.

Lemma not_ltb_leb x y : String.ltb x y = false -> String.leb y x = true.
Proof.
  unfold String.ltb, String.leb. rewrite (String.compare_antisym x y).
  now destruct (String.compare y x).
Qed.

Lemma insert_by_key_sorted {V : Type} (x : string * V) l :
  Sorted key_le l -> Sorted key_le (Str.insert_by_key x l).
Proof.
  induction l as [|y r IH]; simpl; intros H.
  - repeat constructor.
  - destruct (String.ltb (fst x) (fst y)) eqn:E.
    + constructor; [exact H|]. constructor. now apply ltb_leb.
    + inversion H as [|? ? Hr Hhd]; subst.
      constructor; [now apply IH|].
      destruct r as [|z r']; simpl.
      * constructor. now apply not_ltb_leb.
      * destruct (String.ltb (fst x) (fst z)).
        -- constructor. now apply not_ltb_leb.
        -- constructor. now inversion Hhd.
Qed.

Lemma insert_by_key_perm {V : Type} (x : string * V) l :
  Permutation (Str.insert_by_key x l) (x :: l).
Proof.
  induction l as [|y r IH]; simpl; [reflexivity|].
  destruct (String.ltb (fst x) (fst y)); [reflexivity|].
  rewrite IH. apply perm_swap.
Qed.

Lemma sort_by_key_acc {V : Type} (l : list (string * V)) :
  forall acc,
    Sorted key_le acc ->
    Sorted key_le (fold_left (fun acc x => Str.insert_by_key x acc) l acc) /\
    Permutation (fold_left (fun acc x => Str.insert_by_key x acc) l acc)
      (acc ++ l).
Proof.
  induction l as [|x r IH]; intros acc H; simpl.
  - split; [exact H|now rewrite app_nil_r].
  - destruct (IH _ (insert_by_key_sorted x H)) as [Hs Hp].
    split; [exact Hs|]. rewrite Hp, insert_by_key_perm.
    apply Permutation_middle.
Qed.

(** [sort_by_key] puts the same members in the order of their keys. *)
Lemma sort_by_key_sorted {V : Type} (l : list (string * V)) :
  Sorted key_le (Str.sort_by_key l) /\ Permutation (Str.sort_by_key l) l.
Proof.
  unfold Str.sort_by_key.
  destruct (@sort_by_key_acc V l [] (Sorted_nil _)) as [Hs Hp].
  split; [exact Hs|exact Hp].
Qed.

(** The canonical text of an object: its members, each once, in the order
    of their keys, written [key:value] with commas between them. *)
Lemma json_dumps_canonical_object kvs :
  exists members,
    Sorted key_le members /\
    Permutation members
      (List.map (fun kv => (fst kv, json_dumps_canonical (snd kv))) kvs) /\
    json_dumps_canonical (JObj kvs)
    = "{" ++ join ","
               (List.map (fun kv => json_quote (fst kv) ++ ":" ++ snd kv)
                  members)
          ++ "}".
Proof.
  eexists. split; [|split].
  - apply sort_by_key_sorted.
  - apply sort_by_key_sorted.
  - reflexivity.
Qed.

Lemma json_dumps_canonical_obj kvs :
  json_dumps_canonical (JObj kvs)
  = "{" ++ join ","
             (List.map (fun kv => json_quote (fst kv) ++ ":" ++ snd kv)
                (Str.sort_by_key
                   (List.map (fun kv => (fst kv, json_dumps_canonical (snd kv)))
                      kvs)))
        ++ "}".
Proof. reflexivity. Qed.

(** [json_dumps_canonical] writes a canonical text, at every depth. *)
Lemma json_dumps_canonical_text :
  forall value, canonical_text value (json_dumps_canonical value).
Proof.
  fix IH 1. intros [| [] | n | s | items | members];
    try (cbn [json_dumps_canonical]; constructor).
  - induction items as [|x r IHr]; constructor; [apply IH|exact IHr].
  - rewrite json_dumps_canonical_obj.
    apply canonical_obj
      with (texts := List.map
                       (fun kv => (fst kv, json_dumps_canonical (snd kv)))
                       members).
    + induction members as [|[k v] r IHr]; constructor; [|exact IHr].
      split; [reflexivity|apply IH].
    + apply sort_by_key_sorted.
    + apply sort_by_key_sorted.
Qed.

(** ** The validator's path check *)

Lemma lstrip_head chars s :
  match Str.lstrip chars s with
  | EmptyString => True
  | String c _ => Str.mem_char c chars = false
  end.
Proof.
  induction s as [|c r IH]; simpl; [exact I|].
  destruct (Str.mem_char c chars) eqn:E; [exact IH|exact E].
Qed.

(** No normalised path starts with a slash or a dot: the two [startswith]
    tests of [_validate_safe_path] never hold. *)
Lemma normalize_rel_path_head path :
  Str.starts_with "/" (normalize_rel_path path) = false /\
  Str.starts_with ".." (normalize_rel_path path) = false.
Proof.
  unfold normalize_rel_path.
  pose proof (lstrip_head "./" (Str.replace_char "\" "/" path)) as H.
  destruct (Str.lstrip "./" (Str.replace_char "\" "/" path)) as [|c r].
  - split; reflexivity.
  - destruct c as [[] [] [] [] [] [] [] []];
      solve [ discriminate H | split; reflexivity ].
Qed.

(** The empty path is refused. *)
Lemma validate_safe_path_empty :
  _validate_safe_path "" = Raise (ESAAError "BOUNDARY_VIOLATION").
Proof. reflexivity. Qed.

(** C3.  What [_validate_safe_path] does on an absolute path and on paths
    that start with [..] components: [lstrip("./")] removes every leading
    dot and slash, so the path is accepted under the name that is left, and
    no [BOUNDARY_VIOLATION] is raised. *)
Theorem C3_leading_slash_and_dotdot_accepted :
  _validate_safe_path "/etc/passwd" = Ok "etc/passwd" /\
  _validate_safe_path "../secret.txt" = Ok "secret.txt" /\
  _validate_safe_path "..\..\src/evil.py" = Ok "src/evil.py" /\
  normalize_rel_path ".roadmap/roadmap.json" = "roadmap/roadmap.json".
Proof. repeat split; reflexivity. Qed.

(** ** The event store *)

Lemma isinstance_int_dict_get (ev : dict) (k : string) (n : Z) :
  isinstance_int (dict_get ev k) = Some n ->
  exists v, Dict.get k ev = Some v /\ isinstance_int v = Some n.
Proof.
  rewrite dict_get_unfold. destruct (Dict.get k ev) as [v|]; simpl.
  - intros H. now exists v.
  - discriminate.
Qed.

(** A line whose [event_seq] is no [int] is refused with
    [EVENT_SEQ_INVALID], whatever came before it. *)
Lemma parse_line_seq_invalid raw ev seen_ids last_seq :
  normalize_legacy_event raw = Ok ev ->
  isinstance_int (dict_get ev "event_seq") = None ->
  parse_line raw seen_ids last_seq
  = Raise (CorruptedStoreError "EVENT_SEQ_INVALID").
Proof.
  intros Hn Hi. unfold parse_line. rewrite Hn. cbn [Res.bind]. now rewrite Hi.
Qed.

(** A line whose [event_seq] is an [int] other than the one expected is
    refused with [EVENT_SEQ_NON_MONOTONIC]. *)
Lemma parse_line_seq_non_monotonic raw ev seen_ids last_seq n :
  normalize_legacy_event raw = Ok ev ->
  isinstance_int (dict_get ev "event_seq") = Some n ->
  n <> last_seq + 1 ->
  parse_line raw seen_ids last_seq
  = Raise (CorruptedStoreError "EVENT_SEQ_NON_MONOTONIC").
Proof.
  intros Hn Hi Hne. unfold parse_line. rewrite Hn. cbn [Res.bind]. rewrite Hi.
  destruct (Z.eqb_spec n (last_seq + 1)); [contradiction|reflexivity].
Qed.

(** A line that is accepted carries the number after [last_seq]. *)
Lemma parse_line_seq raw seen_ids last_seq ev seen_ids' last_seq' :
  parse_line raw seen_ids last_seq = Ok (ev, seen_ids', last_seq') ->
  last_seq' = last_seq + 1 /\ event_seq_is ev last_seq'.
Proof.
  unfold parse_line.
  destruct (normalize_legacy_event raw) as [e|]; cbn [Res.bind];
    [|discriminate].
  destruct (isinstance_int (dict_get e "event_seq")) as [n|] eqn:Hi;
    [|discriminate].
  destruct (Z.eqb_spec n (last_seq + 1)) as [->|]; cbn [negb];
    [|discriminate].
  apply isinstance_int_dict_get in Hi. destruct Hi as (v & Hv & Hi).
  match goal with
  | |- context [dict_getitem ?x "event_id"] => set (e' := x)
  end.
  assert (He' : Dict.get "event_seq" e' = Some v).
  { subst e'. destruct (negb (Dict.mem "event_id" e)); [|exact Hv].
    now dict_lookup. }
  destruct (dict_getitem e' "event_id") as [eid|]; cbn [Res.bind];
    [|discriminate].
  destruct (negb (hashable eid)); [discriminate|].
  destruct (existsb (py_eq eid) seen_ids); [discriminate|].
  match goal with
  | |- context [filter ?f required_fields] =>
      destruct (filter f required_fields); [|discriminate]
  end.
  destruct (dict_getitem e' "action") as [a|]; cbn [Res.bind];
    [|discriminate].
  destruct (in_str_set a CANONICAL_ACTIONS) as [b|]; cbn [Res.bind];
    [|discriminate].
  destruct b; cbn [negb]; [|discriminate].
  intros H. injection H as <- _ <-. split; [reflexivity|].
  exists v. now split.
Qed.

Lemma parse_lines_numbered lines :
  forall events seen_ids last_seq out,
    parse_lines lines events seen_ids last_seq = Ok out ->
    exists new, out = (events ++ new)%list /\ numbered last_seq new.
Proof.
  induction lines as [|[raw|] rest IH]; intros events seen_ids last_seq out;
    simpl.
  - intros H. injection H as <-. exists []. split.
    + now rewrite app_nil_r.
    + constructor.
  - destruct (parse_line raw seen_ids last_seq) as [[[ev seen'] last']|] eqn:Hp;
      cbn [Res.bind]; [|discriminate].
    intros H. apply IH in H. destruct H as (new & -> & Hnum).
    apply parse_line_seq in Hp. destruct Hp as [-> Hev].
    exists (ev :: new). split.
    + now rewrite <- app_assoc.
    + now constructor.
  - discriminate.
Qed.

(** The events of a log that parses are numbered 1, 2, ..., the number
    being the value of [event_seq] as an [int]. *)
Lemma parse_event_store_numbered lines events :
  parse_event_store lines = Ok events -> numbered 0 events.
Proof.
  intros H. apply parse_lines_numbered in H.
  destruct H as (new & -> & Hnum). exact Hnum.
Qed.

(** [CorruptedStoreError] is its own class of error: an [ESAAError] by
    inheritance, and told apart from one raised by the projector or the
    validator. *)
Lemma corrupted_store_class c :
  is_CorruptedStoreError (CorruptedStoreError c) = true /\
  is_ESAAError (CorruptedStoreError c) = true /\
  is_CorruptedStoreError (ESAAError c) = false.
Proof. repeat split. Qed.

(** C5.  A first line whose [event_seq] is the JSON value [true] is
    accepted: [isinstance(True, int)] holds and [True == 1], so neither
    [EVENT_SEQ_INVALID] nor [EVENT_SEQ_NON_MONOTONIC] is raised and the
    parsed event keeps [true] as its [event_seq]. *)
Theorem C5_boolean_event_seq_accepted :
  parse_event_store [Some boolean_seq_line] = Ok [boolean_seq_line] /\
  Dict.get "event_seq" boolean_seq_line = Some (JBool true).
Proof. split; reflexivity. Qed.

(** C8.  A single stored event with action ["run.init"], a ["data"] object,
    no ["payload"] and no ["event_id"], numbered 1 and carrying ["ts"] and
    ["actor"], parses to one event whose action is ["run.start"], whose
    payload is the former data with ["status"] defaulted to
    ["initialized"], whose [event_id] is ["LEGACY-EV-00000001"] and whose
    [schema_version] is the stored one or else ["0.3.0"]. *)
Theorem C8_legacy_run_init_normalised (raw data : dict) :
  Dict.get "action" raw = Some (JStr "run.init") ->
  Dict.get "data" raw = Some (JObj data) ->
  Dict.get "payload" raw = None ->
  Dict.get "event_id" raw = None ->
  Dict.get "event_seq" raw = Some (JInt 1) ->
  Dict.mem "ts" raw = true ->
  Dict.mem "actor" raw = true ->
  exists event,
    parse_event_store [Some raw] = Ok [event] /\
    Dict.get "action" event = Some (JStr "run.start") /\
    Dict.get "payload" event
    = Some (JObj (Dict.setdefault "status" (JStr "initialized") data)) /\
    Dict.get "event_id" event = Some (JStr "LEGACY-EV-00000001") /\
    Dict.get "schema_version" event
    = Some (Dict.get_default "schema_version" (JStr "0.3.0") raw).
Proof.
  intros Hact Hdata Hpay Hid Hseq Hts Hactor.
  rewrite mem_get in Hts, Hactor.
  destruct (Dict.get "ts" raw) as [ts|] eqn:Ets; [|discriminate].
  destruct (Dict.get "actor" raw) as [actor|] eqn:Eactor; [|discriminate].
  eexists. split.
  - unfold parse_event_store, parse_lines, parse_line, normalize_legacy_event.
    rewrite !mem_get, Hpay, Hdata. cbn [negb andb].
    rewrite !dict_get_unfold. dict_lookup. rewrite Hact, Hdata.
    cbn [py_eq String.eqb Ascii.eqb Bool.eqb andb].
    dict_lookup. unfold Dict.get_default. dict_lookup.
    cbn [as_dict Res.bind].
    rewrite !dict_get_unfold. dict_lookup. rewrite Hseq.
    cbn [isinstance_int Z.eqb Z.add Pos.eqb negb].
    rewrite !mem_get. dict_lookup. rewrite Hid. cbn [negb].
    unfold dict_getitem. dict_lookup. cbn [Res.bind hashable negb existsb].
    unfold required_fields. cbn [filter].
    rewrite !mem_get. dict_lookup. rewrite Hseq, Ets, Eactor.
    cbn [negb Res.bind].
    reflexivity.
  - dict_lookup. repeat split.
    unfold Dict.get_default. dict_lookup. reflexivity.
Qed.

Lemma C8_legacy_run_init_normalised_witness :
  exists event,
    parse_event_store [Some legacy_line] = Ok [event] /\
    Dict.get "action" event = Some (JStr "run.start") /\
    Dict.get "payload" event
    = Some (JObj (Dict.setdefault "status" (JStr "initialized")
                    [("run_id", JStr "RUN-1");
                     ("master_correlation_id", JStr "CID-1")])) /\
    Dict.get "event_id" event = Some (JStr "LEGACY-EV-00000001") /\
    Dict.get "schema_version" event
    = Some (Dict.get_default "schema_version" (JStr "0.3.0") legacy_line).
Proof.
  apply (@C8_legacy_run_init_normalised legacy_line
           [("run_id", JStr "RUN-1"); ("master_correlation_id", JStr "CID-1")]);
    reflexivity.
Defined.

(** ** Reasoning about projector computations *)

Section Stable.

Variable P : state -> Prop.

Lemma stable_ret {A : Type} (a : A) : stable P (ret a).
Proof. intros st H. exact H. Qed.

Lemma stable_raise {A : Type} (e : exn) : stable P (@raise A e).
Proof. intros st H. exact H. Qed.

Lemma stable_lift {A : Type} (r : result A) : stable P (lift r).
Proof. intros st H. exact H. Qed.

Lemma stable_gets {A : Type} (f : state -> A) : stable P (gets f).
Proof. intros st H. exact H. Qed.

Lemma stable_bind {A B : Type} (m : M A) (k : A -> M B) :
  stable P m -> (forall a, stable P (k a)) -> stable P (bind m k).
Proof.
  intros Hm Hk st H. unfold bind. specialize (Hm st H).
  destruct (m st) as [[a|e] st']; simpl in *.
  - now apply Hk.
  - exact Hm.
Qed.

Lemma stable_modify (f : state -> state) :
  (forall st, P st -> P (f st)) -> stable P (modify f).
Proof. intros Hf st H. now apply Hf. Qed.

Lemma stable_task_getitem t k : stable P (task_getitem t k).
Proof.
  intros st H. unfold task_getitem. now destruct (nth_error (tasks st) t).
Qed.

Lemma stable_task_get t k : stable P (task_get t k).
Proof.
  intros st H. unfold task_get. now destruct (nth_error (tasks st) t).
Qed.

Lemma stable_task_by_id tid : stable P (_task_by_id tid).
Proof. intros st H. exact H. Qed.

Lemma stable_issue_getitem key k : stable P (issue_getitem key k).
Proof.
  intros st H. unfold issue_getitem. now destruct (kget key (_issues st)).
Qed.

Lemma stable_issue_get key k dflt : stable P (issue_get key k dflt).
Proof.
  intros st H. unfold issue_get. now destruct (kget key (_issues st)).
Qed.

End Stable.

Lemma stable_on_tasks_modify (Q : list dict -> Prop) (f : state -> state) :
  (forall st, tasks (f st) = tasks st) -> stable (on_tasks Q) (modify f).
Proof.
  intros Hf. apply stable_modify. intros st H. unfold on_tasks.
  now rewrite Hf.
Qed.

Lemma stable_on_tasks_issue_setitem Q key k v :
  stable (on_tasks Q) (issue_setitem key k v).
Proof. now apply stable_on_tasks_modify. Qed.

Lemma stable_ensure_owner P t actor : stable P (_ensure_owner t actor).
Proof.
  unfold _ensure_owner. apply stable_bind; [apply stable_task_get|].
  intros owner. destruct (negb (py_eq owner actor));
    [apply stable_raise|apply stable_ret].
Qed.

Lemma nth_error_update_nth_ne {A : Type} (f : A -> A) (l : list A) :
  forall i j, i <> j -> nth_error (update_nth i f l) j = nth_error l j.
Proof.
  induction l as [|x r IH]; intros [|i] [|j] Hne; simpl; try reflexivity.
  - contradiction.
  - apply IH. congruence.
Qed.

Lemma nth_error_update_nth_eq {A : Type} (f : A -> A) (l : list A) :
  forall i, nth_error (update_nth i f l) i = option_map f (nth_error l i).
Proof.
  induction l as [|x r IH]; intros [|i]; simpl; try reflexivity. apply IH.
Qed.

Lemma nth_error_app_keep {A : Type} (l : list A) (x d : A) (j : nat) :
  nth_error l j = Some d -> nth_error (l ++ [x]) j = Some d.
Proof.
  intros H. rewrite nth_error_app1; [exact H|].
  apply nth_error_Some. congruence.
Qed.

(** ** Done tasks are never written to *)

Section DoneIsImmutable.

Variable j : nat.

Variable d : dict.

Hypothesis d_done : is_done d.

Lemma stable_task_setitem_ne t k v :
  t <> j -> stable (holds_at j d) (task_setitem t k v).
Proof.
  intros Hne. apply stable_modify. intros st H.
  unfold holds_at, on_tasks in *. simpl.
  now rewrite nth_error_update_nth_ne.
Qed.

Lemma stable_append task :
  stable (holds_at j d) (modify (fun st => set_tasks (tasks st ++ [task]) st)).
Proof.
  apply stable_modify. intros st H. unfold holds_at, on_tasks in *. simpl.
  now apply nth_error_app_keep.
Qed.

(** Reading the status of a task tells whether it is the done record at
    [j]: if it is, the status read is ["done"]. *)
Lemma stable_status_guard {A : Type} t (k : json -> M A) :
  (forall s, t <> j \/ py_eq s (JStr "done") = true -> stable (holds_at j d) (k s)) ->
  stable (holds_at j d) (bind (task_getitem t "status") k).
Proof.
  intros Hk st H. unfold bind, task_getitem.
  destruct (nth_error (tasks st) t) as [d'|] eqn:E; [|exact H].
  unfold dict_getitem.
  destruct (Dict.get "status" d') as [s|] eqn:Es; [|exact H].
  apply Hk; [|exact H].
  destruct (Nat.eq_dec t j) as [->|Hne]; [right|now left].
  unfold holds_at, on_tasks in H. rewrite H in E. injection E as <-.
  unfold is_done in d_done. rewrite d_done in Es. now injection Es as <-.
Qed.

Ltac not_the_done_one :=
  match goal with
  | H : ?t <> j \/ _ = true |- ?t <> j =>
      destruct H as [H|H]; [exact H|solve [discriminate H|congruence]]
  end.

Ltac stable_step :=
  first
    [ apply stable_ret | apply stable_raise | apply stable_lift
    | apply stable_gets | apply stable_task_get | apply stable_task_by_id
    | apply stable_ensure_owner | apply stable_issue_getitem
    | apply stable_issue_get | apply stable_append
    | apply stable_on_tasks_modify; intros; reflexivity
    | apply stable_task_setitem_ne; not_the_done_one
    | apply stable_status_guard; intros ? ?
    | apply stable_bind; [|intros ?]
    | match goal with
      | |- stable _ (if ?b then _ else _) => destruct b eqn:?
      | |- stable _ (match ?x with _ => _ end) => destruct x eqn:?
      end ].

Lemma stable_apply_claim event : stable (holds_at j d) (_apply_claim event).
Proof. unfold _apply_claim. repeat stable_step. Qed.

Lemma stable_apply_complete event : stable (holds_at j d) (_apply_complete event).
Proof. unfold _apply_complete. repeat stable_step. Qed.

Lemma stable_apply_review event : stable (holds_at j d) (_apply_review event).
Proof. unfold _apply_review. repeat stable_step. Qed.

Lemma stable_apply_issue_report event :
  stable (holds_at j d) (_apply_issue_report event).
Proof.
  unfold _apply_issue_report, issue_setitem. repeat stable_step.
Qed.

Lemma stable_apply_hotfix_create event :
  stable (holds_at j d) (_apply_hotfix_create event).
Proof.
  unfold _apply_hotfix_create, issue_setitem2, issue_setitem.
  repeat stable_step.
Qed.

Lemma stable_apply_issue_resolve event :
  stable (holds_at j d) (_apply_issue_resolve event).
Proof.
  unfold _apply_issue_resolve, issue_setitem. repeat stable_step.
Qed.

Lemma stable_apply_event event : stable (holds_at j d) (_apply_event event).
Proof.
  unfold _apply_event.
  repeat first
    [ apply stable_apply_claim | apply stable_apply_complete
    | apply stable_apply_review | apply stable_apply_issue_report
    | apply stable_apply_hotfix_create | apply stable_apply_issue_resolve
    | stable_step ].
Qed.

Lemma stable_apply_events events : stable (holds_at j d) (apply_events events).
Proof.
  induction events as [|event rest IH]; simpl.
  - apply stable_ret.
  - apply stable_bind; [apply stable_apply_event|intros _; exact IH].
Qed.

End DoneIsImmutable.

Example done_state_tasks : tasks done_state = [done_task].
Proof. reflexivity. Qed.

Ltac run_m :=
  unfold bind, lift, ret, raise, gets, modify, task_getitem, task_get,
    _task_by_id, dict_getitem.

(** C2.  When the task an event names is done, a claim, a complete or a
    review raises [IMMUTABLE_DONE] and leaves the state as it was; and
    whatever events are applied afterwards, the record of a done task stays
    the same, status and all other fields. *)
Theorem C2_done_is_immutable (st : state) (event : dict) (action : string)
  (payload task_id : json) (i : nat) (task : dict) :
  In action ["claim"; "complete"; "review"] ->
  Dict.get "action" event = Some (JStr action) ->
  Dict.get "payload" event = Some payload ->
  getitem payload "task_id" = Ok task_id ->
  find_task (tasks st) task_id 0 = Ok i ->
  nth_error (tasks st) i = Some task ->
  is_done task ->
  _apply_event event st = (Raise (ESAAError "IMMUTABLE_DONE"), st) /\
  forall events,
    nth_error (tasks (snd (apply_events events st))) i = Some task.
Proof.
  intros Hin Hact Hpay Htid Hfind Hnth Hdone. split.
  - unfold is_done in Hdone.
    assert (Hp : exists p, payload = JObj p).
    { destruct payload; try discriminate Htid. now eexists. }
    destruct Hp as [p ->].
    unfold _apply_event. run_m. rewrite Hact, Hpay.
    destruct Hin as [<-|[<-|[<-|[]]]]; cbn [is_action py_eq String.eqb Ascii.eqb Bool.eqb];
      [unfold _apply_claim|unfold _apply_complete|unfold _apply_review];
      run_m; rewrite Hpay, Htid, Hfind; cbn [as_dict];
      rewrite Hnth, Hdone; reflexivity.
  - intros events.
    apply (@stable_apply_events i task Hdone events st). exact Hnth.
Qed.

Lemma C2_done_is_immutable_witness :
  _apply_event (Scenario.claim_by 6 "agent-a") done_state
  = (Raise (ESAAError "IMMUTABLE_DONE"), done_state) /\
  forall events,
    nth_error (tasks (snd (apply_events events done_state))) 0 = Some done_task.
Proof.
  apply (@C2_done_is_immutable done_state (Scenario.claim_by 6 "agent-a")
           "claim" (JObj [("task_id", JStr "T-1")]) (JStr "T-1") 0%nat done_task).
  - simpl. auto.
  - reflexivity.
  - reflexivity.
  - reflexivity.
  - reflexivity.
  - reflexivity.
  - reflexivity.
Defined.

(** ** Who may complete and review *)

(** C6, as stated, fails: a complete by agent-b on a task that agent-a
    holds and that is in review raises [INVALID_TRANSITION], and a review by
    agent-b of a task that is done raises [IMMUTABLE_DONE]; neither raises
    [NOT_LOCK_OWNER]. *)
Lemma C6_counterexample :
  option_map (fun t => dict_get t "assigned_to") (nth_error (tasks review_state) 0)
  = Some (JStr "agent-a") /\
  py_eq (JStr "agent-a") (JStr "agent-b") = false /\
  _apply_event (Scenario.complete_by 5 "agent-b") review_state
  = (Raise (ESAAError "INVALID_TRANSITION"), review_state) /\
  _apply_event (Scenario.review_by 6 "agent-b" "approve") done_state
  = (Raise (ESAAError "IMMUTABLE_DONE"), done_state).
Proof. repeat split; reflexivity. Qed.

(** C6, amended.  A complete or a review whose actor differs from the
    task's [assigned_to] is always refused and leaves the state as it was.
    The status is checked before the owner: the error is [IMMUTABLE_DONE]
    when the task is done, [NOT_LOCK_OWNER] when the task is in the status
    the action requires ([in_progress] for complete, [review] for review),
    and [INVALID_TRANSITION] in any other status. *)
Theorem C6_non_owner_refused (st : state) (event : dict) (action : string)
  (payload task_id : json) (i : nat) (task : dict) (s actor : json) :
  In action ["complete"; "review"] ->
  Dict.get "action" event = Some (JStr action) ->
  Dict.get "payload" event = Some payload ->
  getitem payload "task_id" = Ok task_id ->
  find_task (tasks st) task_id 0 = Ok i ->
  nth_error (tasks st) i = Some task ->
  Dict.get "status" task = Some s ->
  Dict.get "actor" event = Some actor ->
  py_eq (dict_get task "assigned_to") actor = false ->
  _apply_event event st
  = (Raise (ESAAError
              (if py_eq s (JStr "done") then "IMMUTABLE_DONE"
               else if py_eq s (JStr (required_status action))
                    then "NOT_LOCK_OWNER"
                    else "INVALID_TRANSITION")),
     st).
Proof.
  intros Hin Hact Hpay Htid Hfind Hnth Hs Hactor Hne.
  assert (Hp : exists p, payload = JObj p).
  { destruct payload; try discriminate Htid. now eexists. }
  destruct Hp as [p ->].
  unfold _apply_event. run_m. rewrite Hact, Hpay.
  destruct Hin as [<-|[<-|[]]];
    cbn [is_action py_eq String.eqb Ascii.eqb Bool.eqb required_status];
    [unfold _apply_complete|unfold _apply_review];
    unfold _ensure_owner; run_m; rewrite Hpay, Htid, Hfind; cbn [as_dict];
    rewrite Hnth, Hs;
    destruct (py_eq s (JStr "done")); try reflexivity;
    rewrite Hnth, Hs.
  - destruct (py_eq s (JStr "in_progress")); cbn [negb]; [|reflexivity].
    rewrite Hactor, Hnth, Hne. reflexivity.
  - destruct (py_eq s (JStr "review")); cbn [negb]; [|reflexivity].
    rewrite Hactor, Hnth, Hne. reflexivity.
Qed.

Lemma C6_non_owner_refused_witness :
  _apply_event (Scenario.complete_by 4 "agent-b") claimed_state
  = (Raise (ESAAError "NOT_LOCK_OWNER"), claimed_state).
Proof.
  apply (@C6_non_owner_refused claimed_state (Scenario.complete_by 4 "agent-b")
           "complete"
           (JObj [("task_id", JStr "T-1");
                  ("verification", JObj [("checks", JArr [JStr "ok"])])])
           (JStr "T-1") 0%nat
           [("task_id", JStr "T-1"); ("task_kind", JStr "impl");
            ("title", JStr "Task"); ("description", JStr "Task description");
            ("status", JStr "in_progress"); ("depends_on", JArr []);
            ("targets", JArr []);
            ("outputs", JObj [("files", JArr [JStr "src/T-1.txt"])]);
            ("immutability", JObj [("done_is_immutable", JBool true)]);
            ("assigned_to", JStr "agent-a"); ("started_at", JStr Scenario.t0)]
           (JStr "in_progress") (JStr "agent-b")).
  - simpl. auto.
  - reflexivity.
  - reflexivity.
  - reflexivity.
  - reflexivity.
  - reflexivity.
  - reflexivity.
  - reflexivity.
  - reflexivity.
Defined.

(** ** A lock is never released *)

Lemma find_task_update_nth k v tid ts :
  k <> "task_id" ->
  forall t n,
    find_task (update_nth t (Dict.set k v) ts) tid n = find_task ts tid n.
Proof.
  intros Hk. induction ts as [|x r IH]; intros [|t] n; simpl;
    try reflexivity.
  - unfold dict_getitem. now rewrite get_set_ne.
  - destruct (dict_getitem x "task_id") as [a|]; cbn [Res.bind];
      [|reflexivity].
    destruct (py_eq a tid); [reflexivity|apply IH].
Qed.

Lemma find_task_app tid x ts :
  forall n i,
    find_task ts tid n = Ok i -> find_task (ts ++ [x]) tid n = Ok i.
Proof.
  induction ts as [|y r IH]; intros n i; simpl; [discriminate|].
  destruct (dict_getitem y "task_id") as [a|]; cbn [Res.bind];
    [|discriminate].
  destruct (py_eq a tid); [trivial|apply IH].
Qed.

Section LockKept.

Variable tid : json.

Variable i : nat.

Lemma stable_held_setitem t k v :
  k <> "task_id" ->
  (k = "status" -> locked_value v) ->
  stable (held tid i) (task_setitem t k v).
Proof.
  intros Hk Hv. apply stable_modify. intros st [Hfind (task & Hnth & Hl)].
  unfold held, on_tasks. simpl. split.
  - now rewrite find_task_update_nth.
  - destruct (Nat.eq_dec t i) as [->|Hne].
    + exists (Dict.set k v task). split.
      * now rewrite nth_error_update_nth_eq, Hnth.
      * destruct (String.eqb_spec k "status") as [->|Hks].
        -- exists v. split; [apply get_set_eq|now apply Hv].
        -- destruct Hl as (w & Hw & Hlw). exists w.
           split; [|exact Hlw]. now rewrite get_set_ne.
    + exists task. split; [|exact Hl]. now rewrite nth_error_update_nth_ne.
Qed.

Lemma stable_held_append task :
  stable (held tid i) (modify (fun st => set_tasks (tasks st ++ [task]) st)).
Proof.
  apply stable_modify. intros st [Hfind (t & Hnth & Hl)].
  unfold held, on_tasks. simpl. split.
  - now apply find_task_app.
  - exists t. split; [now apply nth_error_app_keep|exact Hl].
Qed.

Ltac held_step :=
  first
    [ apply stable_ret | apply stable_raise | apply stable_lift
    | apply stable_gets | apply stable_task_get | apply stable_task_getitem
    | apply stable_task_by_id
    | apply stable_ensure_owner | apply stable_issue_getitem
    | apply stable_issue_get | apply stable_held_append
    | apply stable_on_tasks_modify; intros; reflexivity
    | apply stable_held_setitem;
        [ intro; discriminate
        | intro; first [discriminate | unfold locked_value; tauto] ]
    | apply stable_bind; [|intros ?]
    | match goal with
      | |- stable _ (if ?b then _ else _) => destruct b eqn:?
      | |- stable _ (match ?x with _ => _ end) => destruct x eqn:?
      end ].

Lemma held_apply_event event : stable (held tid i) (_apply_event event).
Proof.
  unfold _apply_event, _apply_claim, _apply_complete, _apply_review,
    _apply_issue_report, _apply_hotfix_create, _apply_issue_resolve,
    issue_setitem2, issue_setitem.
  repeat held_step.
Qed.

Lemma held_apply_events events : stable (held tid i) (apply_events events).
Proof.
  induction events as [|event rest IH]; simpl.
  - apply stable_ret.
  - apply stable_bind; [apply held_apply_event|intros _; exact IH].
Qed.

(** In a state where the lock is (held tid i) a claim is refused. *)
Lemma claim_refused st claim payload :
  (held tid i) st ->
  Dict.get "action" claim = Some (JStr "claim") ->
  Dict.get "payload" claim = Some payload ->
  getitem payload "task_id" = Ok tid ->
  exists task code,
    nth_error (tasks st) i = Some task /\
    _apply_event claim st = (Raise (ESAAError code), st) /\
    (is_done task /\ code = "IMMUTABLE_DONE" \/
     ~ is_done task /\ code = "LOCKED_TASK").
Proof.
  intros [Hfind (task & Hnth & (v & Hv & Hl))] Hact Hpay Htid.
  exists task.
  assert (Hrun : forall code,
    (if py_eq v (JStr "done") then "IMMUTABLE_DONE" else "LOCKED_TASK") = code ->
    _apply_event claim st = (Raise (ESAAError code), st)).
  { intros code <-. unfold _apply_event, _apply_claim. run_m.
    rewrite Hact, Hpay. cbn [is_action py_eq String.eqb Ascii.eqb Bool.eqb].
    rewrite Htid, Hfind, Hnth, Hv.
    destruct Hl as [-> | [-> | ->]]; cbn [py_eq String.eqb Ascii.eqb Bool.eqb];
      try reflexivity;
      repeat first [rewrite Hnth | rewrite Hv | progress cbn]; reflexivity. }
  destruct Hl as [-> | [-> | ->]].
  - exists "LOCKED_TASK". split; [exact Hnth|]. split; [now apply Hrun|].
    right. split; [|reflexivity]. unfold is_done. rewrite Hv. discriminate.
  - exists "LOCKED_TASK". split; [exact Hnth|]. split; [now apply Hrun|].
    right. split; [|reflexivity]. unfold is_done. rewrite Hv. discriminate.
  - exists "IMMUTABLE_DONE". split; [exact Hnth|]. split; [now apply Hrun|].
    left. split; [exact Hv|reflexivity].
Qed.

End LockKept.

(** C9, as stated, fails: after a request for changes the task can be
    completed again and approved, and a claim that comes after that raises
    [IMMUTABLE_DONE], not [LOCKED_TASK]. *)
Lemma C9_counterexample :
  Scenario.outcome
    [Scenario.run_start; Scenario.create; Scenario.claim_by 3 "agent-a";
     Scenario.complete_by 4 "agent-a";
     Scenario.review_by 5 "agent-a" "request_changes";
     Scenario.complete_by 6 "agent-a";
     Scenario.review_by 7 "agent-a" "approve";
     Scenario.claim_by 8 "agent-b"]
  = Raise (ESAAError "IMMUTABLE_DONE").
Proof. reflexivity. Qed.

(** C9, amended.  A review with decision [request_changes], by the owner
    of a task in review, sets the status to [in_progress] and changes no
    other field of the task, [assigned_to] and [started_at] included.  From
    then on, whatever events are applied, a claim of that task by any actor
    is refused and changes nothing: with [LOCKED_TASK] as long as the task
    is not done, with [IMMUTABLE_DONE] once it is. *)
Theorem C9_lock_never_released (st : state) (event : dict)
  (payload task_id : json) (i : nat) (task : dict) (actor seq ts : json) :
  Dict.get "action" event = Some (JStr "review") ->
  Dict.get "payload" event = Some payload ->
  getitem payload "task_id" = Ok task_id ->
  getitem payload "decision" = Ok (JStr "request_changes") ->
  find_task (tasks st) task_id 0 = Ok i ->
  nth_error (tasks st) i = Some task ->
  Dict.get "status" task = Some (JStr "review") ->
  Dict.get "actor" event = Some actor ->
  py_eq (dict_get task "assigned_to") actor = true ->
  Dict.get "event_seq" event = Some seq ->
  Dict.get "ts" event = Some ts ->
  fst (_apply_event event st) = Ok tt /\
  tasks (snd (_apply_event event st))
  = update_nth i (Dict.set "status" (JStr "in_progress")) (tasks st) /\
  Dict.get "assigned_to" (Dict.set "status" (JStr "in_progress") task)
  = Dict.get "assigned_to" task /\
  Dict.get "started_at" (Dict.set "status" (JStr "in_progress") task)
  = Dict.get "started_at" task /\
  forall (later : list dict) (claim : dict) (claim_payload : json),
    Dict.get "action" claim = Some (JStr "claim") ->
    Dict.get "payload" claim = Some claim_payload ->
    getitem claim_payload "task_id" = Ok task_id ->
    exists t code,
      nth_error
        (tasks (snd (apply_events later (snd (_apply_event event st))))) i
      = Some t /\
      _apply_event claim (snd (apply_events later (snd (_apply_event event st))))
      = (Raise (ESAAError code),
         snd (apply_events later (snd (_apply_event event st)))) /\
      (is_done t /\ code = "IMMUTABLE_DONE" \/
       ~ is_done t /\ code = "LOCKED_TASK").
Proof.
  intros Hact Hpay Htid Hdec Hfind Hnth Hs Hactor Hown Hseq Hts.
  assert (Hp : exists p, payload = JObj p).
  { destruct payload; try discriminate Htid. now eexists. }
  destruct Hp as [p ->].
  assert (Hd : dict_get p "decision" = JStr "request_changes").
  { unfold getitem in Hdec. rewrite dict_get_unfold.
    destruct (Dict.get "decision" p); [now injection Hdec as ->|discriminate]. }
  assert (Hrun : _apply_event event st
    = (Ok tt,
       set_updated_at ts
         (with_run (set_last_event_seq seq)
            (set_tasks
               (update_nth i (Dict.set "status" (JStr "in_progress")) (tasks st))
               st)))).
  { unfold _apply_event, _apply_review, _ensure_owner, task_setitem. run_m.
    rewrite Hact, Hpay. cbn [is_action py_eq String.eqb Ascii.eqb Bool.eqb].
    rewrite Htid, Hfind. cbn [as_dict]. rewrite Hnth, Hs.
    cbn [py_eq String.eqb Ascii.eqb Bool.eqb negb]. rewrite Hnth, Hs.
    cbn [py_eq String.eqb Ascii.eqb Bool.eqb negb].
    rewrite Hactor, Hnth, Hown. cbn [negb]. rewrite Hd.
    cbn [py_eq String.eqb Ascii.eqb Bool.eqb]. rewrite Hseq, Hts.
    reflexivity. }
  rewrite Hrun. cbn [fst snd].
  split; [reflexivity|]. split; [reflexivity|].
  split; [now rewrite get_set_ne|].
  split; [now rewrite get_set_ne|].
  intros later claim cp Hcact Hcpay Hctid.
  match goal with
  | |- context [apply_events later ?s] => set (st' := s)
  end.
  assert (Hheld : held task_id i st').
  { unfold held, on_tasks. subst st'. simpl. split.
    - rewrite find_task_update_nth; [exact Hfind|discriminate].
    - exists (Dict.set "status" (JStr "in_progress") task). split.
      + now rewrite nth_error_update_nth_eq, Hnth.
      + exists (JStr "in_progress").
        split; [apply get_set_eq|now left]. }
  apply (held_apply_events later) in Hheld.
  destruct (@claim_refused task_id i _ claim cp Hheld Hcact Hcpay Hctid)
    as (t & code & H1 & H2 & H3).
  exists t, code. now repeat split.
Qed.

Lemma C9_lock_never_released_witness :
  fst (_apply_event (Scenario.review_by 5 "agent-a" "request_changes")
         review_state) = Ok tt /\
  option_map (fun t => dict_get t "status")
    (nth_error
       (tasks (snd (_apply_event
                      (Scenario.review_by 5 "agent-a" "request_changes")
                      review_state))) 0)
  = Some (JStr "in_progress").
Proof.
  destruct (@C9_lock_never_released review_state
              (Scenario.review_by 5 "agent-a" "request_changes")
              (JObj [("task_id", JStr "T-1");
                     ("decision", JStr "request_changes")])
              (JStr "T-1") 0%nat
              [("task_id", JStr "T-1"); ("task_kind", JStr "impl");
               ("title", JStr "Task");
               ("description", JStr "Task description");
               ("status", JStr "review"); ("depends_on", JArr []);
               ("targets", JArr []);
               ("outputs", JObj [("files", JArr [JStr "src/T-1.txt"])]);
               ("immutability", JObj [("done_is_immutable", JBool true)]);
               ("assigned_to", JStr "agent-a");
               ("started_at", JStr Scenario.t0);
               ("verification", JObj [("checks", JArr [JStr "ok"])])]
              (JStr "agent-a") (JInt 5) (JStr Scenario.t0)
              eq_refl eq_refl eq_refl eq_refl eq_refl eq_refl eq_refl eq_refl
              eq_refl eq_refl eq_refl)
    as (H1 & H2 & _).
  split; [exact H1|]. rewrite H2. reflexivity.
Defined.

(** ** Duplicate task ids *)

Section RaisesOnly.

Variable ok : exn -> Prop.

Lemma ro_ret {A : Type} (a : A) : raises_only ok (ret a).
Proof. intros st e H. discriminate H. Qed.

Lemma ro_gets {A : Type} (f : state -> A) : raises_only ok (gets f).
Proof. intros st e H. discriminate H. Qed.

Lemma ro_modify f : raises_only ok (modify f).
Proof. intros st e H. discriminate H. Qed.

Lemma ro_raise {A : Type} (e : exn) : ok e -> raises_only ok (@raise A e).
Proof. intros He st e' H. now injection H as <-. Qed.

Lemma ro_lift {A : Type} (r : result A) :
  result_raises_only ok r -> raises_only ok (lift r).
Proof. intros Hr st e H. now apply Hr. Qed.

Lemma ro_bind {A B : Type} (m : M A) (k : A -> M B) :
  raises_only ok m -> (forall a, raises_only ok (k a)) ->
  raises_only ok (bind m k).
Proof.
  intros Hm Hk st e. unfold bind. specialize (Hm st).
  destruct (m st) as [[a|e'] st']; simpl in *.
  - apply Hk.
  - intros H. injection H as <-. now apply Hm.
Qed.

End RaisesOnly.

Lemma nd_dict_getitem d k : result_raises_only not_duplicate (dict_getitem d k).
Proof.
  intros e. unfold dict_getitem. destruct (Dict.get k d); [discriminate|].
  intros H. injection H as <-. discriminate.
Qed.

Lemma nd_getitem v k : result_raises_only not_duplicate (getitem v k).
Proof.
  intros e. unfold getitem. destruct v; try destruct (Dict.get k kvs);
    try discriminate; intros H; injection H as <-; discriminate.
Qed.

Lemma nd_as_dict v : result_raises_only not_duplicate (as_dict v).
Proof.
  intros e. destruct v; simpl; try discriminate;
    intros H; injection H as <-; discriminate.
Qed.

Lemma nd_in_str_set v S : result_raises_only not_duplicate (in_str_set v S).
Proof.
  intros e. destruct v; simpl; try discriminate;
    intros H; injection H as <-; discriminate.
Qed.

Lemma nd_py_list v : result_raises_only not_duplicate (py_list v).
Proof.
  intros e. destruct v; simpl; try discriminate;
    intros H; injection H as <-; discriminate.
Qed.

Lemma nd_res_bind {A B : Type} (r : result A) (k : A -> result B) :
  result_raises_only not_duplicate r ->
  (forall a, result_raises_only not_duplicate (k a)) ->
  result_raises_only not_duplicate (Res.bind r k).
Proof.
  intros Hr Hk e. destruct r as [a|e']; simpl.
  - apply Hk.
  - intros H. injection H as <-. now apply Hr.
Qed.

Lemma nd_ok {A : Type} (a : A) : result_raises_only not_duplicate (Ok a).
Proof. intros e H. discriminate H. Qed.

Lemma nd_new_task payload : result_raises_only not_duplicate (_new_task payload).
Proof.
  unfold _new_task.
  repeat first
    [ apply nd_ok | apply nd_as_dict | apply nd_dict_getitem | apply nd_py_list
    | apply nd_res_bind; [|intros ?]
    | match goal with
      | |- result_raises_only _ (if ?b then _ else _) => destruct b
      end ].
Qed.

Lemma nd_find_task tid ts :
  forall n, result_raises_only not_duplicate (find_task ts tid n).
Proof.
  induction ts as [|t r IH]; intros n; simpl.
  - intros e H. injection H as <-. discriminate.
  - apply nd_res_bind; [apply nd_dict_getitem|]. intros a.
    destruct (py_eq a tid); [apply nd_ok|apply IH].
Qed.

Lemma nd_has_task_id tid ts :
  result_raises_only not_duplicate (has_task_id ts tid).
Proof.
  induction ts as [|t r IH]; simpl.
  - apply nd_ok.
  - apply nd_res_bind; [apply nd_dict_getitem|]. intros a.
    destruct (py_eq a tid); [apply nd_ok|apply IH].
Qed.

Lemma nd_task_by_id tid : raises_only not_duplicate (_task_by_id tid).
Proof. intros st e. unfold _task_by_id. simpl. apply nd_find_task. Qed.

Lemma nd_task_getitem t k : raises_only not_duplicate (task_getitem t k).
Proof.
  intros st e. unfold task_getitem.
  destruct (nth_error (tasks st) t); simpl.
  - apply nd_dict_getitem.
  - intros H. injection H as <-. discriminate.
Qed.

Lemma nd_task_get t k : raises_only not_duplicate (task_get t k).
Proof.
  intros st e. unfold task_get.
  destruct (nth_error (tasks st) t); simpl; [discriminate|].
  intros H. injection H as <-. discriminate.
Qed.

Lemma nd_issue_getitem key k : raises_only not_duplicate (issue_getitem key k).
Proof.
  intros st e. unfold issue_getitem.
  destruct (kget key (_issues st)); simpl.
  - apply nd_dict_getitem.
  - intros H. injection H as <-. discriminate.
Qed.

Lemma nd_issue_get key k dflt :
  raises_only not_duplicate (issue_get key k dflt).
Proof.
  intros st e. unfold issue_get.
  destruct (kget key (_issues st)); simpl; [discriminate|].
  intros H. injection H as <-. discriminate.
Qed.

Ltac nd_step :=
  first
    [ apply ro_ret | apply ro_gets | apply ro_modify
    | apply ro_raise; discriminate
    | apply nd_task_by_id | apply nd_task_getitem | apply nd_task_get
    | apply nd_issue_getitem | apply nd_issue_get
    | apply ro_lift;
        first [ apply nd_dict_getitem | apply nd_getitem | apply nd_as_dict
              | apply nd_in_str_set | apply nd_new_task ]
    | apply ro_bind; [|intros ?]
    | match goal with
      | |- raises_only _ (if ?b then _ else _) => destruct b eqn:?
      | |- raises_only _ (match ?x with _ => _ end) => destruct x eqn:?
      end ].

Lemma py_eq_str_true v s : py_eq v (JStr s) = true -> v = JStr s.
Proof.
  destruct v; simpl; try discriminate. intros H.
  apply String.eqb_eq in H. now subst.
Qed.

Lemma bind_lift_ok {A B : Type} (a : A) (k : A -> M B) :
  bind (lift (Ok a)) k = k a.
Proof. reflexivity. Qed.

(** Of all the actions only [hotfix.create] can raise [DUPLICATE_TASK]. *)
Lemma duplicate_task_only_from_hotfix event st :
  fst (_apply_event event st) = Raise (ESAAError "DUPLICATE_TASK") ->
  Dict.get "action" event = Some (JStr "hotfix.create").
Proof.
  intros H.
  destruct (Dict.get "action" event) as [action|] eqn:Hact.
  - destruct (is_action action "hotfix.create") eqn:Hhf.
    + apply py_eq_str_true in Hhf. now subst.
    + exfalso. revert st H.
      assert (Hro : raises_only not_duplicate (_apply_event event)).
      { unfold _apply_event. unfold dict_getitem at 1. rewrite Hact.
        rewrite bind_lift_ok.
        unfold _apply_claim, _apply_complete, _apply_review,
          _apply_issue_report, _apply_issue_resolve, _ensure_owner,
          task_setitem, issue_setitem.
        rewrite Hhf.
        repeat nd_step. }
      intros st H. now apply Hro in H.
  - unfold _apply_event, bind, lift, dict_getitem in H. rewrite Hact in H.
    discriminate H.
Qed.

Lemma has_task_id_find tid ts :
  has_task_id ts tid = Ok true ->
  forall n, exists i,
    find_task ts tid n = Ok i /\ (i < n + List.length ts)%nat.
Proof.
  induction ts as [|t r IH]; simpl; [discriminate|].
  destruct (dict_getitem t "task_id") as [a|]; cbn [Res.bind]; [|discriminate].
  destruct (py_eq a tid).
  - intros _ n. exists n. split; [reflexivity|lia].
  - intros H n. destruct (IH H (S n)) as (i & Hi & Hlt).
    exists i. split; [exact Hi|lia].
Qed.

(** Whether a [task.create] returns or raises, and what it raises, does
    not depend on the state: the tasks that exist play no part. *)
Lemma task_create_outcome event st1 st2 :
  Dict.get "action" event = Some (JStr "task.create") ->
  fst (_apply_event event st1) = fst (_apply_event event st2).
Proof.
  intros Hact. unfold _apply_event. run_m. rewrite Hact.
  cbn [is_action py_eq String.eqb Ascii.eqb Bool.eqb].
  destruct (Dict.get "payload" event) as [payload|]; [|reflexivity].
  destruct (_new_task payload); [|reflexivity].
  destruct (Dict.get "event_seq" event); [|reflexivity].
  destruct (Dict.get "ts" event); reflexivity.
Qed.

(** C10.  Let an event carry a payload from which [_new_task] builds a
    task, with a [task_id] that a task of the state already has.  As a
    [task.create] the event succeeds: the new record is appended after the
    old ones, and looking the id up still gives the record it gave before,
    one of the old ones.  As a [hotfix.create] it raises [DUPLICATE_TASK]
    and changes nothing.  No action but [hotfix.create] raises
    [DUPLICATE_TASK], and the outcome of any [task.create] is the same
    whatever tasks the state holds. *)
Theorem C10_duplicate_task_ids (st : state) (event : dict)
  (payload task_id seq ts : json) (task : dict) :
  Dict.get "payload" event = Some payload ->
  getitem payload "task_id" = Ok task_id ->
  _new_task payload = Ok task ->
  Dict.get "event_seq" event = Some seq ->
  Dict.get "ts" event = Some ts ->
  has_task_id (tasks st) task_id = Ok true ->
  (Dict.get "action" event = Some (JStr "task.create") ->
   _apply_event event st
   = (Ok tt,
      set_updated_at ts
        (with_run (set_last_event_seq seq)
           (set_tasks (tasks st ++ [task]) st))) /\
   exists i,
     (i < List.length (tasks st))%nat /\
     find_task (tasks st) task_id 0 = Ok i /\
     find_task (tasks st ++ [task]) task_id 0 = Ok i) /\
  (Dict.get "action" event = Some (JStr "hotfix.create") ->
   _apply_event event st = (Raise (ESAAError "DUPLICATE_TASK"), st)) /\
  (forall (other : dict) (st0 : state),
     fst (_apply_event other st0) = Raise (ESAAError "DUPLICATE_TASK") ->
     Dict.get "action" other = Some (JStr "hotfix.create")) /\
  (forall (other : dict) (st1 st2 : state),
     Dict.get "action" other = Some (JStr "task.create") ->
     fst (_apply_event other st1) = fst (_apply_event other st2)).
Proof.
  intros Hpay Htid Hnew Hseq Hts Hdup.
  split; [|split; [|split; [|intros; now apply task_create_outcome]]].
  1: split.
  - unfold _apply_event. run_m. rewrite H, Hpay.
    cbn [is_action py_eq String.eqb Ascii.eqb Bool.eqb].
    rewrite Hnew, Hseq, Hts. reflexivity.
  - destruct (has_task_id_find _ _ Hdup 0%nat) as (i & Hi & Hlt).
    exists i. repeat split; [exact Hlt|exact Hi|now apply find_task_app].
  - intros Hact. unfold _apply_event, _apply_hotfix_create. run_m.
    rewrite Hact, Hpay.
    cbn [is_action py_eq String.eqb Ascii.eqb Bool.eqb].
    rewrite Htid, Hdup. reflexivity.
  - intros other st0. apply duplicate_task_only_from_hotfix.
Qed.

Lemma C10_duplicate_task_ids_witness :
  _apply_event (make_event Scenario.t0 4 "orchestrator" "task.create"
                  Scenario._task_payload) claimed_state
  = (Ok tt,
     set_updated_at (JStr Scenario.t0)
       (with_run (set_last_event_seq (JInt 4))
          (set_tasks
             (tasks claimed_state ++
                [[("task_id", JStr "T-1"); ("task_kind", JStr "impl");
                  ("title", JStr "Task");
                  ("description", JStr "Task description");
                  ("status", JStr "todo"); ("depends_on", JArr []);
                  ("targets", JArr []);
                  ("outputs", JObj [("files", JArr [JStr "src/T-1.txt"])]);
                  ("immutability", JObj [("done_is_immutable", JBool true)])]])
             claimed_state))).
Proof.
  apply (@C10_duplicate_task_ids claimed_state
           (make_event Scenario.t0 4 "orchestrator" "task.create"
              Scenario._task_payload)
           Scenario._task_payload (JStr "T-1") (JInt 4) (JStr Scenario.t0)
           _ eq_refl eq_refl eq_refl eq_refl eq_refl eq_refl).
  reflexivity.
Defined.

Example duplicate_create_then_lookup :
  Res.bind
    (Scenario.outcome
       [Scenario.run_start; Scenario.create; Scenario.claim_by 3 "agent-a";
        make_event Scenario.t0 4 "orchestrator" "task.create"
          Scenario._task_payload;
        Scenario.complete_by 5 "agent-a"])
    Scenario.task_status
  = Ok [JStr "review"; JStr "todo"].
Proof. reflexivity. Qed.

(** ** Reporting an issue again *)

Lemma kget_kupdate {V : Type} (k : json) (f : V -> V) (d : list (json * V)) :
  kget k (kupdate k f d) = option_map f (kget k d).
Proof.
  induction d as [|[k' v] r IH]; simpl; [reflexivity|].
  destruct (py_eq k' k) eqn:E; simpl; rewrite E; [reflexivity|exact IH].
Qed.

Lemma ksetdefault_present {V : Type} (k : json) (v w : V) d :
  kget k d = Some w -> ksetdefault k v d = d.
Proof. intros H. unfold ksetdefault. now rewrite H. Qed.

(** C4, as stated, fails: reporting I-1 again with another [affected]
    object succeeds and takes over severity, title and evidence, but the
    issue keeps the [affected] (and the [baseline_id]) of the first
    report. *)
Lemma C4_counterexample :
  fst (_apply_event (report 3 "high" "second" "B-2" "b") reported_state)
  = Ok tt /\
  option_map
    (fun issue =>
       (dict_get issue "severity", dict_get issue "title",
        dict_get issue "evidence", dict_get issue "affected",
        dict_get issue "baseline_id"))
    (kget (JStr "I-1")
       (_issues (snd (_apply_event (report 3 "high" "second" "B-2" "b")
                        reported_state))))
  = Some (JStr "high", JStr "second", JObj [("log", JStr "b")],
          JObj [("baseline_id", JStr "B-1")], JStr "B-1").
Proof. split; reflexivity. Qed.

Lemma stable_issues_modify key issue (f : state -> state) :
  (forall st, _issues (f st) = _issues st) ->
  stable (issues_are key issue) (modify f).
Proof.
  intros Hf. apply stable_modify. intros st H. unfold issues_are.
  now rewrite Hf.
Qed.

Lemma run_bind_ret {A B : Type} (a : A) (k : A -> M B) st :
  bind (ret a) k st = k a st.
Proof. reflexivity. Qed.

Lemma run_bind_lift {A B : Type} (a : A) (k : A -> M B) st :
  bind (lift (Ok a)) k st = k a st.
Proof. reflexivity. Qed.

Lemma run_bind_modify {B : Type} f (k : unit -> M B) st :
  bind (modify f) k st = k tt (f st).
Proof. reflexivity. Qed.

Lemma run_bind_gets {A B : Type} (f : state -> A) (k : A -> M B) st :
  bind (gets f) k st = k (f st) st.
Proof. reflexivity. Qed.

Lemma run_bind_issue_getitem {B : Type} key k d v (kont : json -> M B) st :
  kget key (_issues st) = Some d ->
  Dict.get k d = Some v ->
  bind (issue_getitem key k) kont st = kont v st.
Proof.
  intros Hd Hv. unfold bind, issue_getitem, dict_getitem.
  now rewrite Hd, Hv.
Qed.

Lemma run_bind_issue_get {B : Type} key k dflt d (kont : json -> M B) st :
  kget key (_issues st) = Some d ->
  bind (issue_get key k dflt) kont st = kont (Dict.get_default k dflt d) st.
Proof. intros Hd. unfold bind, issue_get. now rewrite Hd. Qed.

Lemma run_bind_issue_setitem {B : Type} key k v (kont : unit -> M B) st :
  bind (issue_setitem key k v) kont st
  = kont tt (set_issues (kupdate key (Dict.set k v) (_issues st)) st).
Proof. reflexivity. Qed.

(** C4, amended.  When the [issue_id] of an [issue.report] is already in
    the state, the projector sets the status of the issue back to [open]
    and takes severity, title and evidence from the payload, keeping the
    value the issue has for each of them the payload lacks.  Every other
    field of the issue stays as it is, [affected] and [baseline_id]
    included.  Unless the report carries a lesson, the call returns. *)
Theorem C4_issue_reported_again (st : state) (event p : dict)
  (issue_id seq old_severity old_title : json) (issue affected : dict) :
  Dict.get "payload" event = Some (JObj p) ->
  Dict.get "issue_id" p = Some issue_id ->
  hashable issue_id = true ->
  as_dict (Dict.get_default "affected" (JObj []) p) = Ok affected ->
  Dict.get "event_seq" event = Some seq ->
  kget issue_id (_issues st) = Some issue ->
  Dict.get "severity" issue = Some old_severity ->
  Dict.get "title" issue = Some old_title ->
  exists issue',
    kget issue_id (_issues (snd (_apply_issue_report event st))) = Some issue' /\
    Dict.get "status" issue' = Some (JStr "open") /\
    Dict.get "severity" issue'
    = Some (Dict.get_default "severity" old_severity p) /\
    Dict.get "title" issue' = Some (Dict.get_default "title" old_title p) /\
    Dict.get "evidence" issue'
    = Some (Dict.get_default "evidence"
              (Dict.get_default "evidence" (JObj []) issue) p) /\
    (forall k,
       ~ In k ["status"; "severity"; "title"; "evidence"] ->
       Dict.get k issue' = Dict.get k issue) /\
    Dict.get "affected" issue' = Dict.get "affected" issue /\
    Dict.get "baseline_id" issue' = Dict.get "baseline_id" issue /\
    (is_lesson_report p = false ->
     fst (_apply_issue_report event st) = Ok tt).
Proof.
  intros Hpay Hid Hhash Haff Hseq Hk Hsev Htitle.
  set (issue' :=
    Dict.set "evidence"
      (Dict.get_default "evidence"
         (Dict.get_default "evidence" (JObj []) issue) p)
      (Dict.set "title" (Dict.get_default "title" old_title p)
         (Dict.set "severity" (Dict.get_default "severity" old_severity p)
            (Dict.set "status" (JStr "open") issue)))).
  assert (Hother : forall k,
    ~ In k ["status"; "severity"; "title"; "evidence"] ->
    Dict.get k issue' = Dict.get k issue).
  { intros k Hn. subst issue'. simpl in Hn.
    rewrite !get_set_ne; [reflexivity|intuition congruence..]. }
  exists issue'.
  assert (Hrun : exists (k : M unit) (st1 : state),
    _apply_issue_report event st
    = (if is_lesson_report p then k else ret tt) st1 /\
    issues_are issue_id issue' st1 /\
    stable (issues_are issue_id issue') k).
  { eexists. eexists. split; [|split].
    - unfold _apply_issue_report.
      unfold dict_getitem at 1. rewrite Hpay. rewrite run_bind_lift.
      cbn [getitem]. rewrite Hid. rewrite run_bind_lift.
      cbn [as_dict]. rewrite run_bind_lift.
      rewrite Haff. rewrite run_bind_lift.
      unfold dict_getitem at 1. rewrite Hseq. rewrite run_bind_lift.
      rewrite Hhash. rewrite run_bind_ret.
      rewrite run_bind_modify.
      rewrite (@ksetdefault_present _ issue_id _ issue (_issues st) Hk).
      rewrite run_bind_issue_setitem.
      erewrite run_bind_issue_getitem;
        [ | cbn [_issues set_issues]; rewrite ?kget_kupdate, Hk;
            cbn [option_map]; reflexivity
          | dict_lookup; exact Hsev ].
      rewrite run_bind_issue_setitem.
      erewrite run_bind_issue_getitem;
        [ | cbn [_issues set_issues]; rewrite ?kget_kupdate, Hk;
            cbn [option_map]; reflexivity
          | dict_lookup; exact Htitle ].
      rewrite run_bind_issue_setitem.
      erewrite run_bind_issue_get;
        [ | cbn [_issues set_issues]; rewrite ?kget_kupdate, Hk;
            cbn [option_map]; reflexivity ].
      rewrite run_bind_issue_setitem.
      fold (is_lesson_report p).
      destruct (is_lesson_report p); reflexivity.
    - unfold issues_are. cbn [_issues set_issues].
      rewrite !kget_kupdate, Hk. cbn [option_map]. subst issue'.
      unfold Dict.get_default. dict_lookup. reflexivity.
    - repeat first
        [ apply stable_gets | apply stable_lift
        | apply stable_issues_modify; intros; reflexivity
        | apply stable_bind; [|intros ?] ]. }
  destruct Hrun as (k & st1 & Hrun & Hst1 & Hstable).
  rewrite Hrun.
  split.
  { destruct (is_lesson_report p); [now apply Hstable|exact Hst1]. }
  subst issue'.
  split; [now dict_lookup|].
  split; [now dict_lookup|].
  split; [now dict_lookup|].
  split; [now dict_lookup|].
  split; [exact Hother|].
  split; [now dict_lookup|].
  split; [now dict_lookup|].
  intros ->. reflexivity.
Qed.

Lemma C4_issue_reported_again_witness :
  exists issue',
    kget (JStr "I-1")
      (_issues (snd (_apply_issue_report (report 3 "high" "second" "B-2" "b")
                       reported_state))) = Some issue' /\
    Dict.get "status" issue' = Some (JStr "open") /\
    Dict.get "severity" issue' = Some (JStr "high") /\
    Dict.get "affected" issue' = Some (JObj [("baseline_id", JStr "B-1")]).
Proof.
  destruct (@C4_issue_reported_again reported_state
              (report 3 "high" "second" "B-2" "b")
              [("issue_id", JStr "I-1"); ("severity", JStr "high");
               ("title", JStr "second");
               ("affected", JObj [("baseline_id", JStr "B-2")]);
               ("evidence", JObj [("log", JStr "b")])]
              (JStr "I-1") (JInt 3) (JStr "low") (JStr "first")
              [("issue_id", JStr "I-1"); ("status", JStr "open");
               ("severity", JStr "low"); ("title", JStr "first");
               ("baseline_id", JStr "B-1");
               ("affected", JObj [("baseline_id", JStr "B-1")]);
               ("evidence", JObj [("log", JStr "a")]);
               ("resolution", JNull);
               ("links", JObj [("reported_by_task_id", JNull);
                               ("fixes_task_id", JNull);
                               ("hotfix_task_id", JNull)]);
               ("timeline", JObj [("created_event_seq", JInt 2);
                                  ("resolved_event_seq", JNull)])]
              [("baseline_id", JStr "B-2")]
              eq_refl eq_refl eq_refl eq_refl eq_refl eq_refl eq_refl eq_refl)
    as (issue' & H1 & H2 & H3 & _ & _ & _ & H4 & _).
  exists issue'. repeat split; assumption.
Defined.

(** ** The wall clock does not reach the hash *)

Lemma timeless_ret {A : Type} (a : A) : timeless (ret a).
Proof. intros t st. reflexivity. Qed.

Lemma timeless_raise {A : Type} (e : exn) : timeless (@raise A e).
Proof. intros t st. reflexivity. Qed.

Lemma timeless_lift {A : Type} (r : result A) : timeless (lift r).
Proof. intros t st. reflexivity. Qed.

Lemma timeless_gets {A : Type} (f : state -> A) :
  (forall t st, f (set_updated_at t st) = f st) -> timeless (gets f).
Proof. intros Hf t st. unfold gets. now rewrite Hf. Qed.

Lemma timeless_modify (f : state -> state) :
  (forall t st, f (set_updated_at t st) = set_updated_at t (f st)) ->
  timeless (modify f).
Proof. intros Hf t st. unfold modify. now rewrite Hf. Qed.

Lemma timeless_bind {A B : Type} (m : M A) (k : A -> M B) :
  timeless m -> (forall a, timeless (k a)) -> timeless (bind m k).
Proof.
  intros Hm Hk t st. unfold bind. rewrite Hm.
  destruct (m st) as [[a|e] st']; simpl; [apply Hk|reflexivity].
Qed.

Lemma timeless_task_getitem r k : timeless (task_getitem r k).
Proof.
  intros t st. unfold task_getitem. cbn [tasks set_updated_at].
  now destruct (nth_error (tasks st) r).
Qed.

Lemma timeless_task_get r k : timeless (task_get r k).
Proof.
  intros t st. unfold task_get. cbn [tasks set_updated_at].
  now destruct (nth_error (tasks st) r).
Qed.

Lemma timeless_task_by_id tid : timeless (_task_by_id tid).
Proof. intros t st. reflexivity. Qed.

Lemma timeless_issue_getitem key k : timeless (issue_getitem key k).
Proof.
  intros t st. unfold issue_getitem. cbn [_issues set_updated_at].
  now destruct (kget key (_issues st)).
Qed.

Lemma timeless_issue_get key k dflt : timeless (issue_get key k dflt).
Proof.
  intros t st. unfold issue_get. cbn [_issues set_updated_at].
  now destruct (kget key (_issues st)).
Qed.

Ltac timeless_step :=
  first
    [ apply timeless_ret | apply timeless_raise | apply timeless_lift
    | apply timeless_task_getitem | apply timeless_task_get
    | apply timeless_task_by_id | apply timeless_issue_getitem
    | apply timeless_issue_get
    | apply timeless_gets; intros; reflexivity
    | apply timeless_modify; intros; reflexivity
    | apply timeless_bind; [|intros ?]
    | match goal with
      | |- timeless (if ?b then _ else _) => destruct b
      | |- timeless (match ?x with _ => _ end) => destruct x
      end ].

Lemma overwrites_bind {A B : Type} (m : M A) (k : A -> M B) :
  timeless m -> (forall a, overwrites_time (k a)) ->
  overwrites_time (bind m k).
Proof.
  intros Hm Hk t st. unfold bind. rewrite Hm.
  destruct (m st) as [[a|e] st']; simpl; [apply Hk|reflexivity].
Qed.

Lemma overwrites_set_updated_at ts : overwrites_time (modify (set_updated_at ts)).
Proof. intros t st. reflexivity. Qed.

Lemma overwrites_apply_event event : overwrites_time (_apply_event event).
Proof.
  unfold _apply_event.
  repeat (apply overwrites_bind; [|intros ?]);
    try apply overwrites_set_updated_at.
  all: unfold _apply_claim, _apply_complete, _apply_review,
         _apply_issue_report, _apply_hotfix_create, _apply_issue_resolve,
         _ensure_owner, task_setitem, issue_setitem2, issue_setitem.
  all: repeat timeless_step.
Qed.

Lemma state_time st : st = set_updated_at (updated_at (meta st)) st.
Proof. destruct st as [[? ? ? ? ? ?] ? ? ? ? ?]. reflexivity. Qed.

Lemma same_but_time_set s1 s2 :
  same_but_time s1 s2 -> s2 = set_updated_at (updated_at (meta s2)) s1.
Proof.
  intros H. rewrite (state_time s2) at 1.
  change (set_updated_at (updated_at (meta s2)) s2)
    with (set_updated_at (updated_at (meta s2)) (set_updated_at JNull s2)).
  rewrite <- H. reflexivity.
Qed.

Lemma same_but_time_refl_set t st : same_but_time st (set_updated_at t st).
Proof. reflexivity. Qed.

Lemma apply_event_same_but_time event s1 s2 :
  same_but_time s1 s2 ->
  fst (_apply_event event s1) = fst (_apply_event event s2) /\
  same_but_time (snd (_apply_event event s1)) (snd (_apply_event event s2)).
Proof.
  intros H. rewrite (same_but_time_set H).
  rewrite overwrites_apply_event.
  destruct (_apply_event event s1) as [[a|e] st']; simpl;
    split; reflexivity.
Qed.

Lemma apply_events_same_but_time events :
  forall s1 s2,
    same_but_time s1 s2 ->
    fst (apply_events events s1) = fst (apply_events events s2) /\
    same_but_time (snd (apply_events events s1)) (snd (apply_events events s2)).
Proof.
  induction events as [|event rest IH]; intros s1 s2 H; simpl.
  - split; [reflexivity|exact H].
  - unfold bind.
    destruct (apply_event_same_but_time event H) as [Hr Hs].
    destruct (_apply_event event s1) as [[a1|e1] t1];
      destruct (_apply_event event s2) as [[a2|e2] t2]; simpl in *;
      try discriminate Hr.
    + now apply IH.
    + split; [exact Hr|exact Hs].
Qed.

Lemma same_but_time_fields s1 s2 :
  same_but_time s1 s2 ->
  schema_version (meta s1) = schema_version (meta s2) /\
  run (meta s1) = run (meta s2) /\
  project s1 = project s2 /\ tasks s1 = tasks s2 /\
  indexes s1 = indexes s2 /\ _issues s1 = _issues s2 /\
  _lessons s1 = _lessons s2.
Proof.
  intros H. unfold same_but_time in H.
  repeat split.
  - exact (f_equal (fun s => schema_version (meta s)) H).
  - exact (f_equal (fun s => run (meta s)) H).
  - exact (f_equal project H).
  - exact (f_equal tasks H).
  - exact (f_equal indexes H).
  - exact (f_equal _issues H).
  - exact (f_equal _lessons H).
Qed.

(** ** Decimal numerals *)



















(** ** [str.isdigit] and [int] on a string of ASCII digits *)






(** ** The projection hash *)

Section ProjectionHash.

Variable sha256_hexdigest : list Byte.byte -> string.

Variable py_repr : json -> string.

Variable unicodedata_digit : string -> option Z.

Variable unicodedata_decimal : string -> option Z.

Lemma compute_projection_hash_hashed_part roadmap :
  compute_projection_hash sha256_hexdigest roadmap
  = Res.map (fun v => sha256_hexdigest (canonical_json_bytes v))
      (hashed_part roadmap).
Proof.
  unfold compute_projection_hash, hashed_part, sha256_hex.
  destruct (getitem roadmap "meta") as [m|]; cbn [Res.bind Res.map];
    [|reflexivity].
  destruct (getitem m "schema_version"); cbn [Res.bind Res.map];
    [|reflexivity].
  destruct (getitem roadmap "project"); cbn [Res.bind Res.map];
    [|reflexivity].
  destruct (getitem roadmap "tasks"); cbn [Res.bind Res.map];
    [|reflexivity].
  destruct (getitem roadmap "indexes"); reflexivity.
Qed.

(** What [finish] returns, as far as the roadmap goes. *)
Lemma finish_roadmap st out :
  finish sha256_hexdigest py_repr st = Ok out ->
  hashed_part (roadmap_of out) = Ok (hashed_of_state py_repr st) /\
  reported_hash (roadmap_of out)
  = Ok (JStr (sha256_hexdigest (canonical_json_bytes (hashed_of_state py_repr st)))).
Proof.
  unfold finish.
  cbn [compute_projection_hash roadmap_json getitem Dict.get
       String.eqb Ascii.eqb Bool.eqb meta_json Res.bind].
  destruct (issues_index _) as [[issues open_by_baseline]|];
    cbn [Res.bind]; [|discriminate].
  destruct (lessons_index _) as [[by_task_kind by_enforcement]|];
    cbn [Res.bind]; [|discriminate].
  intros H. injection H as <-. split; reflexivity.
Qed.

(** Whether [finish] returns, and the hash it reports, are the same for
    two states that differ in [meta.updated_at] at most. *)
Lemma finish_same_but_time s1 s2 :
  same_but_time s1 s2 ->
  Res.bind (Res.map (@roadmap_of) (finish sha256_hexdigest py_repr s1))
    reported_hash
  = Res.bind (Res.map (@roadmap_of) (finish sha256_hexdigest py_repr s2))
      reported_hash.
Proof.
  intros H.
  destruct (same_but_time_fields H) as (Hsv & Hrun & Hp & Ht & Hi & Hiss & Hl).
  assert (Hh : hashed_of_state py_repr s1 = hashed_of_state py_repr s2).
  { unfold hashed_of_state, final_indexes. now rewrite Hsv, Hp, Ht, Hi. }
  destruct (finish sha256_hexdigest py_repr s1) as [o1|e1] eqn:E1;
    destruct (finish sha256_hexdigest py_repr s2) as [o2|e2] eqn:E2;
    cbn [Res.map Res.bind].
  - destruct (finish_roadmap _ E1) as [_ ->].
    destruct (finish_roadmap _ E2) as [_ ->]. now rewrite Hh.
  - exfalso. revert E1 E2. unfold finish.
    cbn [compute_projection_hash roadmap_json getitem Dict.get
         String.eqb Ascii.eqb Bool.eqb meta_json Res.bind
         _issues _lessons with_run set_indexes].
    rewrite Hiss, Hl.
    destruct (issues_index (_issues s2)) as [[? ?]|]; cbn [Res.bind];
      [|discriminate].
    destruct (lessons_index (_lessons s2)) as [[? ?]|]; cbn [Res.bind];
      discriminate.
  - exfalso. revert E1 E2. unfold finish.
    cbn [compute_projection_hash roadmap_json getitem Dict.get
         String.eqb Ascii.eqb Bool.eqb meta_json Res.bind
         _issues _lessons with_run set_indexes].
    rewrite Hiss, Hl.
    destruct (issues_index (_issues s2)) as [[? ?]|]; cbn [Res.bind];
      [|discriminate].
    destruct (lessons_index (_lessons s2)) as [[? ?]|]; cbn [Res.bind];
      discriminate.
  - revert E1 E2. unfold finish.
    cbn [compute_projection_hash roadmap_json getitem Dict.get
         String.eqb Ascii.eqb Bool.eqb meta_json Res.bind
         _issues _lessons with_run set_indexes].
    rewrite Hiss, Hl.
    destruct (issues_index (_issues s2)) as [[? ?]|]; cbn [Res.bind];
      [|congruence].
    destruct (lessons_index (_lessons s2)) as [[? ?]|]; cbn [Res.bind];
      congruence.
Qed.


Lemma materialize_any_time now1 now2 events project_name :
  hash_of (materialize sha256_hexdigest py_repr now1 events project_name)
  = hash_of (materialize sha256_hexdigest py_repr now2 events project_name).
Proof.
  unfold materialize.
  assert (H : same_but_time (_empty_state now1 project_name)
                (_empty_state now2 project_name)) by reflexivity.
  destruct (apply_events_same_but_time events H) as [Hr Hs].
  destruct (apply_events events (_empty_state now1 project_name))
    as [[a1|e1] s1];
    destruct (apply_events events (_empty_state now2 project_name))
      as [[a2|e2] s2]; simpl in Hr, Hs; try discriminate Hr.
  - unfold hash_of. now apply finish_same_but_time.
  - now injection Hr as <-.
Qed.

Lemma list_byte_of_string_app s t :
  list_byte_of_string (s ++ t)
  = (list_byte_of_string s ++ list_byte_of_string t)%list.
Proof.
  unfold list_byte_of_string.
  induction s as [|a r IH]; simpl; [reflexivity|]. now rewrite IH.
Qed.

Lemma canonical_json_bytes_newline value :
  canonical_json_bytes value
  = (list_byte_of_string (json_dumps_canonical value) ++ [Byte.x0a])%list.
Proof. unfold canonical_json_bytes. now rewrite list_byte_of_string_app. Qed.

(** C1.  The hash [materialize] writes into the roadmap is the SHA-256
    digest of the canonical JSON of the roadmap's own [schema_version],
    [project], [tasks] and [indexes]; [compute_projection_hash] gives the
    same on any two roadmaps that agree on these four; the canonical bytes
    are the canonical text followed by a newline, and that text has, at
    every depth, the members of an object in the order of their keys, with
    [,] between items and members and [:] between key and value and no
    white space; and two materializations of the same events at two
    wall-clock times report the same hash (or end with the same
    exception). *)
Theorem C1_projection_hash (now1 now2 : string) (events : list dict)
  (project_name : json) :
  hash_of (materialize sha256_hexdigest py_repr now1 events project_name)
  = hash_of (materialize sha256_hexdigest py_repr now2 events project_name) /\
  (forall out,
     materialize sha256_hexdigest py_repr now1 events project_name = Ok out ->
     exists part,
       hashed_part (roadmap_of out) = Ok part /\
       compute_projection_hash sha256_hexdigest (roadmap_of out)
       = Ok (sha256_hexdigest (canonical_json_bytes part)) /\
       reported_hash (roadmap_of out)
       = Ok (JStr (sha256_hexdigest (canonical_json_bytes part)))) /\
  (forall r1 r2,
     hashed_part r1 = hashed_part r2 ->
     compute_projection_hash sha256_hexdigest r1
     = compute_projection_hash sha256_hexdigest r2) /\
  (forall value,
     canonical_json_bytes value
     = (list_byte_of_string (json_dumps_canonical value) ++ [Byte.x0a])%list) /\
  (forall value, canonical_text value (json_dumps_canonical value)).
Proof.
  split; [apply materialize_any_time|]. split; [|split; [|split]].
  - intros out. unfold materialize.
    destruct (apply_events events (_empty_state now1 project_name))
      as [[a|e] st]; [|discriminate].
    intros H. destruct (finish_roadmap _ H) as [Hp Hr].
    exists (hashed_of_state py_repr st). split; [exact Hp|]. split; [|exact Hr].
    rewrite compute_projection_hash_hashed_part, Hp. reflexivity.
  - intros r1 r2 H. rewrite !compute_projection_hash_hashed_part.
    now rewrite H.
  - apply canonical_json_bytes_newline.
  - apply json_dumps_canonical_text.
Qed.

(** ** Replay of a prefix *)


Lemma str_isdigit_not_empty u :
  str_isdigit unicodedata_digit u = true -> u <> EmptyString.
Proof. intros H ->. discriminate H. Qed.




End ProjectionHash.

Lemma C1_projection_hash_witness :
  hash_of
    (materialize Scenario.text_digest Scenario.no_repr "2026-02-23T16:44:23Z"
       [Scenario.run_start; Scenario.create] (JStr "esaa-core"))
  = hash_of
      (materialize Scenario.text_digest Scenario.no_repr "2031-01-01T00:00:00Z"
         [Scenario.run_start; Scenario.create] (JStr "esaa-core")).
Proof.
  exact (proj1 (C1_projection_hash Scenario.text_digest Scenario.no_repr
                  "2026-02-23T16:44:23Z" "2031-01-01T00:00:00Z"
                  [Scenario.run_start; Scenario.create] (JStr "esaa-core"))).
Defined.

(** With the text itself for a digest, the hash of the two events is the
    canonical text of the four hashed parts and a newline. *)
Example projection_hash_text :
  hash_of
    (materialize Scenario.text_digest Scenario.no_repr "2026-02-23T16:44:23Z"
       [Scenario.run_start; Scenario.create] (JStr "esaa-core"))
  = Res.bind
      (Res.map (@roadmap_of)
         (materialize Scenario.text_digest Scenario.no_repr
            "2026-02-23T16:44:23Z" [Scenario.run_start; Scenario.create]
            (JStr "esaa-core")))
      (fun roadmap =>
         Res.map
           (fun part => JStr (json_dumps_canonical part ++ String "010" ""))
           (hashed_part roadmap)).
Proof. reflexivity. Qed.



(** [int] on text: white space around the number and zeros before it
    are read over, a number of 4301 digits is refused. *)
Example int_of_text :
  List.map (int_of_str Scenario.no_digit)
    ["7"; " 41 "; "007"; "-7"; "1_000"; "4 1"; "0x10"; ""]
  = [Ok 7; Ok 41; Ok 7; Ok (-7); Ok 1000; Raise ValueError; Raise ValueError;
     Raise ValueError].
Proof. reflexivity. Qed.

Example int_of_long_text :
  int_of_str Scenario.no_digit (Str.zeros 4299 ++ "2") = Ok 2 /\
  int_of_str Scenario.no_digit (Str.zeros 4300 ++ "2") = Raise ValueError.
Proof. split; vm_compute; reflexivity. Qed.

(** [next_event_seq] after an event numbered by a text. *)
Example next_event_seq_of_text :
  next_event_seq Scenario.no_digit [[("event_seq", JStr "7")]] = Ok 8.
Proof. reflexivity. Qed.

Example test_replay_until_seq :
  Res.map (fun d => (dict_get d "events_replayed", dict_get d "last_event_seq"))
    (replay Scenario.no_digest Scenario.no_repr Scenario.no_digit
       Scenario.no_digit Scenario.t0 three_line_log (Some "2"))
  = Ok (JInt 2, JInt 2).
Proof. reflexivity. Qed.

(** * Further properties of the code *)

(** ** utils.py and validator.py: what an accepted path looks like *)

Lemma replace_char_free a b s :
  a <> b -> char_free a (Str.replace_char a b s).
Proof.
  intros Hab. induction s as [|c r IH]; simpl; [exact I|].
  split; [|exact IH].
  destruct (Ascii.eqb_spec c a); congruence.
Qed.

Lemma replace_char_id a b s :
  char_free a s -> Str.replace_char a b s = s.
Proof.
  induction s as [|c r IH]; simpl; [reflexivity|].
  intros [Hc Hr]. rewrite (IH Hr).
  destruct (Ascii.eqb_spec c a); [contradiction|reflexivity].
Qed.

Lemma lstrip_char_free a chars s :
  char_free a s -> char_free a (Str.lstrip chars s).
Proof.
  induction s as [|c r IH]; simpl; [trivial|].
  intros [Hc Hr]. destruct (Str.mem_char c chars); [now apply IH|].
  now split.
Qed.

Lemma lstrip_idempotent chars s :
  Str.lstrip chars (Str.lstrip chars s) = Str.lstrip chars s.
Proof.
  pose proof (lstrip_head chars s) as H.
  destruct (Str.lstrip chars s) as [|c r]; [reflexivity|].
  simpl. now rewrite H.
Qed.

Lemma normalize_rel_path_char_free path :
  char_free "\" (normalize_rel_path path).
Proof.
  unfold normalize_rel_path. apply lstrip_char_free.
  apply replace_char_free. discriminate.
Qed.

(** Normalising a path twice is normalising it once: the service, which
    normalises each path again before it writes, writes to the path that
    was validated. *)
Lemma normalize_rel_path_idempotent path :
  normalize_rel_path (normalize_rel_path path) = normalize_rel_path path.
Proof.
  unfold normalize_rel_path at 1.
  rewrite (@replace_char_id "\"%char "/"%char _
             (normalize_rel_path_char_free path)).
  unfold normalize_rel_path. apply lstrip_idempotent.
Qed.

Lemma existsb_dotdot_filter l :
  List.existsb (fun part => String.eqb part "..")
    (List.filter (fun p => negb (String.eqb p "" || String.eqb p ".")) l)
  = false ->
  ~ In ".." l.
Proof.
  intros H Hin.
  assert (Hf : In ".."
    (List.filter (fun p => negb (String.eqb p "" || String.eqb p ".")) l)).
  { apply filter_In. split; [exact Hin|reflexivity]. }
  assert (Ht : List.existsb (fun part => String.eqb part "..")
    (List.filter (fun p => negb (String.eqb p "" || String.eqb p ".")) l)
    = true).
  { apply existsb_exists. exists "..". split; [exact Hf|reflexivity]. }
  congruence.
Qed.

(** X1.  A path [_validate_safe_path] accepts is returned in normal form:
    it is not empty, holds no backslash, starts with neither a slash nor a
    dot, and none of its components between slashes is [..]; validating
    or normalising the returned path again gives the same path. *)
Theorem safe_path_accepted (path norm : string) :
  _validate_safe_path path = Ok norm ->
  norm = normalize_rel_path path /\
  norm <> "" /\
  char_free "\" norm /\
  Str.starts_with "/" norm = false /\
  Str.starts_with "." norm = false /\
  ~ In ".." (Str.split "/" norm) /\
  normalize_rel_path norm = norm /\
  _validate_safe_path norm = Ok norm.
Proof.
  unfold _validate_safe_path.
  destruct (normalize_rel_path_head path) as [Hslash Hdd].
  pose proof (normalize_rel_path_idempotent path) as Hidem.
  pose proof (normalize_rel_path_char_free path) as Hfree.
  assert (Hdot : Str.starts_with "." (normalize_rel_path path) = false).
  { pose proof (lstrip_head "./" (Str.replace_char "\" "/" path)) as Hh.
    unfold normalize_rel_path.
    destruct (Str.lstrip "./" (Str.replace_char "\" "/" path)) as [|c r];
      [reflexivity|].
    destruct c as [[] [] [] [] [] [] [] []];
      solve [discriminate Hh|reflexivity]. }
  remember (normalize_rel_path path) as n eqn:Hn.
  assert (Hss : Str.starts_with "//" n = false).
  { clear Hn Hidem Hfree. destruct n as [|c r]; [reflexivity|].
    unfold Str.starts_with in *. cbn [String.prefix] in *.
    destruct (ascii_dec "/" c); [|reflexivity].
    destruct r; discriminate Hslash. }
  rewrite Hslash, Hdd.
  destruct (String.eqb_spec n "") as [He|He]; [discriminate|].
  cbn [orb].
  unfold posix_parts. rewrite Hslash, Hss. cbn [andb].
  destruct (existsb _ _) eqn:Hex; [discriminate|].
  intros H. injection H as <-.
  split; [reflexivity|]. split; [exact He|]. split; [exact Hfree|].
  split; [exact Hslash|]. split; [exact Hdot|].
  split; [now apply existsb_dotdot_filter|].
  split; [exact Hidem|].
  cbv zeta. rewrite !Hidem. rewrite Hslash. rewrite Hdd.
  destruct (String.eqb_spec n "") as [He'|_]; [contradiction|].
  cbn [orb]. rewrite Hss. cbn [andb]. now rewrite Hex.
Qed.

Lemma safe_path_accepted_witness :
  "docs/spec/T-1000.md" = normalize_rel_path ".\docs\spec/T-1000.md" /\
  ~ In ".." (Str.split "/" "docs/spec/T-1000.md").
Proof.
  destruct (@safe_path_accepted ".\docs\spec/T-1000.md" "docs/spec/T-1000.md"
              eq_refl) as (H1 & _ & _ & _ & _ & H2 & _).
  split; [exact H1|exact H2].
Defined.

(** ** utils.py: the canonical text does not depend on member order *)

Lemma leb_cases a b :
  String.leb a b = true <-> OrderedTypeEx.String_as_OT.lt a b \/ a = b.
Proof.
  unfold String.leb.
  pose proof (OrderedTypeEx.String_as_OT.cmp_lt a b) as Hlt.
  pose proof (OrderedTypeEx.String_as_OT.cmp_eq a b) as Heq.
  pose proof (OrderedTypeEx.String_as_OT.cmp_antisym a b) as Hanti.
  pose proof (OrderedTypeEx.String_as_OT.cmp_lt b a) as Hgt.
  unfold OrderedTypeEx.String_as_OT.cmp in *.
  destruct (String.compare a b) eqn:E; split; intros H; try reflexivity.
  - right. now apply Heq.
  - left. now apply Hlt.
  - discriminate.
  - exfalso. destruct H as [H|H].
    + apply Hlt in H. discriminate.
    + apply Heq in H. discriminate.
Qed.

Lemma leb_trans a b c :
  String.leb a b = true -> String.leb b c = true -> String.leb a c = true.
Proof.
  rewrite !leb_cases. intros [H1| ->] [H2| ->]; auto.
  left. eapply OrderedTypeEx.String_as_OT.lt_trans; eassumption.
Qed.

Lemma key_le_transitive {V : Type} : Relations_1.Transitive (@key_le V).
Proof. intros x y z. unfold key_le. apply leb_trans. Qed.

Lemma same_key_same_member {V : Type} (x y : string * V) l :
  NoDup (List.map fst l) -> In x l -> In y l -> fst x = fst y -> x = y.
Proof.
  induction l as [|z r IH]; simpl; [contradiction|].
  intros Hnd Hx Hy Hk. inversion Hnd as [|? ? Hz Hr]; subst.
  destruct Hx as [->|Hx]; destruct Hy as [->|Hy].
  - reflexivity.
  - exfalso. apply Hz. rewrite Hk. now apply in_map.
  - exfalso. apply Hz. rewrite <- Hk. now apply in_map.
  - now apply IH.
Qed.

(** Two lists in key order that hold the same members, no key twice, are
    the same list. *)
Lemma sorted_members_unique {V : Type} (l1 : list (string * V)) :
  forall l2,
    StronglySorted key_le l1 -> StronglySorted key_le l2 ->
    Permutation l1 l2 -> NoDup (List.map fst l1) -> l1 = l2.
Proof.
  induction l1 as [|x r1 IH]; intros l2 H1 H2 Hp Hnd.
  - apply Permutation_nil in Hp. now subst.
  - destruct l2 as [|y r2].
    { apply Permutation_sym, Permutation_nil in Hp. discriminate. }
    inversion H1 as [|? ? Hs1 Hf1]; subst.
    inversion H2 as [|? ? Hs2 Hf2]; subst.
    assert (Hxy : x = y).
    { assert (Hx : In x (y :: r2))
        by (eapply Permutation_in; [exact Hp|now left]).
      assert (Hy : In y (x :: r1))
        by (eapply Permutation_in; [apply Permutation_sym, Hp|now left]).
      destruct Hx as [Hx|Hx]; [now subst|].
      destruct Hy as [Hy|Hy]; [now subst|].
      rewrite Forall_forall in Hf1, Hf2.
      apply (@same_key_same_member V x y (x :: r1) Hnd);
        [now left|now right|].
      apply String.leb_antisym; [now apply Hf1|now apply Hf2]. }
    subst y. f_equal.
    apply IH; try assumption.
    + now apply Permutation_cons_inv in Hp.
    + simpl in Hnd. now inversion Hnd.
Qed.

Lemma sort_by_key_permutation_invariant {V : Type} (l1 l2 : list (string * V)) :
  Permutation l1 l2 -> NoDup (List.map fst l1) ->
  Str.sort_by_key l1 = Str.sort_by_key l2.
Proof.
  intros Hp Hnd.
  destruct (sort_by_key_sorted l1) as [Hs1 Hp1].
  destruct (sort_by_key_sorted l2) as [Hs2 Hp2].
  apply sorted_members_unique.
  - apply Sorted_StronglySorted; [apply key_le_transitive|exact Hs1].
  - apply Sorted_StronglySorted; [apply key_le_transitive|exact Hs2].
  - rewrite Hp1, Hp2. exact Hp.
  - eapply Permutation_NoDup; [|exact Hnd].
    apply Permutation_map, Permutation_sym, Hp1.
Qed.

(** X2.  Two objects with the same members in a different order, no key
    twice, have the same canonical text and so the same canonical bytes:
    the order in which a dict was filled does not reach the hash. *)
Theorem canonical_json_member_order (kvs kvs' : list (string * json)) :
  Permutation kvs kvs' ->
  NoDup (List.map fst kvs) ->
  json_dumps_canonical (JObj kvs) = json_dumps_canonical (JObj kvs') /\
  canonical_json_bytes (JObj kvs) = canonical_json_bytes (JObj kvs').
Proof.
  intros Hp Hnd.
  assert (H : json_dumps_canonical (JObj kvs) = json_dumps_canonical (JObj kvs')).
  { rewrite !json_dumps_canonical_obj. do 4 f_equal.
    apply sort_by_key_permutation_invariant.
    - now apply Permutation_map.
    - rewrite map_map. exact Hnd. }
  split; [exact H|]. unfold canonical_json_bytes. now rewrite H.
Qed.

Lemma canonical_json_member_order_witness :
  json_dumps_canonical (JObj [("b", JInt 1); ("a", JInt 2)])
  = json_dumps_canonical (JObj [("a", JInt 2); ("b", JInt 1)]).
Proof.
  apply (@canonical_json_member_order
           [("b", JInt 1); ("a", JInt 2)] [("a", JInt 2); ("b", JInt 1)]).
  - apply perm_swap.
  - repeat constructor; simpl; intuition discriminate.
Defined.

(** ** store.py: what a parsed log looks like *)

Lemma filter_nil_all {A : Type} (f : A -> bool) l :
  List.filter f l = [] -> forall x, In x l -> f x = false.
Proof.
  induction l as [|y r IH]; simpl; [contradiction|].
  destruct (f y) eqn:E; [discriminate|].
  intros H x [<-|Hx]; [exact E|now apply IH].
Qed.

Lemma in_str_set_true v S :
  in_str_set v S = Ok true -> exists a, v = JStr a /\ In a S.
Proof.
  destruct v; simpl; try discriminate.
  intros H. injection H as H. apply existsb_exists in H.
  destruct H as (x & Hx & He). apply String.eqb_eq in He. subst x.
  now exists s.
Qed.

(** What one turn of the loop returns. *)
Lemma parse_line_accepts raw seen_ids last_seq ev seen_ids' last_seq' :
  parse_line raw seen_ids last_seq = Ok (ev, seen_ids', last_seq') ->
  stored_event ev /\
  exists id,
    Dict.get "event_id" ev = Some id /\ hashable id = true /\
    List.existsb (py_eq id) seen_ids = false /\ seen_ids' = id :: seen_ids.
Proof.
  unfold parse_line.
  destruct (normalize_legacy_event raw) as [e|]; cbn [Res.bind];
    [|discriminate].
  destruct (isinstance_int (dict_get e "event_seq")) as [n|]; [|discriminate].
  destruct (negb (n =? last_seq + 1)); [discriminate|].
  match goal with
  | |- context [dict_getitem ?x "event_id"] => set (e' := x)
  end.
  unfold dict_getitem.
  destruct (Dict.get "event_id" e') as [eid|] eqn:Eid; cbn [Res.bind];
    [|discriminate].
  destruct (hashable eid) eqn:Hh; cbn [negb]; [|discriminate].
  destruct (existsb (py_eq eid) seen_ids) eqn:Hex; [discriminate|].
  match goal with
  | |- context [filter ?f required_fields] =>
      destruct (filter f required_fields) eqn:Hmiss; [|discriminate]
  end.
  destruct (Dict.get "action" e') as [a|] eqn:Ea; cbn [Res.bind];
    [|discriminate].
  destruct (in_str_set a CANONICAL_ACTIONS) as [b|] eqn:Hin; cbn [Res.bind];
    [|discriminate].
  destruct b; cbn [negb]; [|discriminate].
  intros H. injection H as <- <- _.
  split.
  - split.
    + intros k Hk. pose proof (filter_nil_all _ _ Hmiss k Hk) as Hf.
      now apply negb_false_iff in Hf.
    + apply in_str_set_true in Hin. destruct Hin as (s & -> & Hs).
      now exists s.
  - exists eid. repeat split; assumption.
Qed.

Lemma parse_lines_accepts lines :
  forall events seen_ids last_seq out,
    parse_lines lines events seen_ids last_seq = Ok out ->
    exists new,
      out = (events ++ new)%list /\ Forall stored_event new /\
      fresh_ids seen_ids new.
Proof.
  induction lines as [|[raw|] rest IH]; intros events seen_ids last_seq out;
    simpl.
  - intros H. injection H as <-. exists []. split; [now rewrite app_nil_r|].
    split; constructor.
  - destruct (parse_line raw seen_ids last_seq) as [[[ev seen'] last']|] eqn:Hp;
      cbn [Res.bind]; [|discriminate].
    intros H. apply IH in H. destruct H as (new & -> & Hst & Hfr).
    apply parse_line_accepts in Hp.
    destruct Hp as (Hev & id & Hid & Hh & Hex & ->).
    exists (ev :: new). split; [now rewrite <- app_assoc|].
    split; [now constructor|]. econstructor; eassumption.
  - discriminate.
Qed.

Lemma fresh_ids_not_seen seen events :
  fresh_ids seen events ->
  forall ev s, In ev events -> In s seen -> py_eq (event_id_of ev) s = false.
Proof.
  induction 1 as [|seen ev id rest Hid Hh Hex Hrest IH]; intros e s He Hs.
  - destruct He.
  - destruct He as [<-|He].
    + unfold event_id_of. rewrite dict_get_unfold, Hid.
      destruct (py_eq id s) eqn:E; [|reflexivity].
      assert (existsb (py_eq id) seen = true)
        by (apply existsb_exists; now exists s).
      congruence.
    + apply IH; [exact He|now right].
Qed.

Lemma fresh_ids_pairwise seen events :
  fresh_ids seen events ->
  forall i j ei ej,
    (i < j)%nat ->
    nth_error events i = Some ei -> nth_error events j = Some ej ->
    py_eq (event_id_of ej) (event_id_of ei) = false.
Proof.
  induction 1 as [|seen ev id rest Hid Hh Hex Hrest IH]; intros i j ei ej Hlt.
  - destruct i; discriminate.
  - destruct j as [|j]; [lia|]. destruct i as [|i]; simpl.
    + intros Hi Hj. injection Hi as <-.
      replace (event_id_of ev) with id
        by (unfold event_id_of; now rewrite dict_get_unfold, Hid).
      apply (fresh_ids_not_seen Hrest ej id).
      * eapply nth_error_In; eassumption.
      * now left.
    + intros Hi Hj. apply (IH i j); [lia|assumption..].
Qed.

(** X3.  Every event of a log that parses has the seven required fields,
    an action of the canonical set and an [event_seq] equal to its position,
    counted from 1; and no two events have equal [event_id]s. *)
Theorem parsed_log_well_formed (lines : list (option dict))
  (events : list dict) :
  parse_event_store lines = Ok events ->
  Forall stored_event events /\
  numbered 0 events /\
  forall i j ei ej,
    (i < j)%nat ->
    nth_error events i = Some ei -> nth_error events j = Some ej ->
    py_eq (event_id_of ej) (event_id_of ei) = false.
Proof.
  intros H. split; [|split].
  - apply parse_lines_accepts in H. destruct H as (new & -> & Hst & _).
    exact Hst.
  - now apply parse_event_store_numbered in H.
  - apply parse_lines_accepts in H. destruct H as (new & -> & _ & Hfr).
    now apply fresh_ids_pairwise with (seen := []).
Qed.

Lemma parsed_log_well_formed_witness :
  Forall stored_event
    [Scenario.run_start; Scenario.create; Scenario.claim_by 3 "agent-a"].
Proof.
  exact (proj1 (@parsed_log_well_formed three_line_log
                  [Scenario.run_start; Scenario.create;
                   Scenario.claim_by 3 "agent-a"] eq_refl)).
Defined.

(** ** store.py: logs that the service wrote parse to themselves *)

Lemma canonical_not_legacy a :
  In a CANONICAL_ACTIONS -> String.eqb a "run.init" = false.
Proof.
  unfold CANONICAL_ACTIONS. simpl.
  intros H. repeat (destruct H as [<-|H]; [reflexivity|]). destruct H.
Qed.

(** An event with no ["data"] field, a canonical action and a
    [schema_version] is left as it is. *)
Lemma normalize_legacy_event_canonical ev :
  stored_event ev -> Dict.mem "data" ev = false ->
  normalize_legacy_event ev = Ok ev.
Proof.
  intros [Hreq (a & Ha & Hin)] Hdata. unfold normalize_legacy_event.
  rewrite Hdata, andb_false_r.
  rewrite dict_get_unfold, Ha. cbn [py_eq].
  rewrite (canonical_not_legacy Hin). cbn [Res.bind].
  unfold Dict.setdefault. rewrite (Hreq "schema_version"); [reflexivity|].
  simpl. tauto.
Qed.

Lemma parse_line_canonical ev seen_ids last_seq id :
  stored_event ev -> Dict.mem "data" ev = false ->
  event_seq_is ev (last_seq + 1) ->
  Dict.get "event_id" ev = Some id -> hashable id = true ->
  List.existsb (py_eq id) seen_ids = false ->
  parse_line ev seen_ids last_seq = Ok (ev, id :: seen_ids, last_seq + 1).
Proof.
  intros Hst Hdata (v & Hv & Hi) Hid Hh Hex. unfold parse_line.
  rewrite (normalize_legacy_event_canonical Hst Hdata). cbn [Res.bind].
  destruct Hst as [Hreq (a & Ha & Hin)].
  rewrite dict_get_unfold, Hv, Hi, Z.eqb_refl. cbn [negb].
  rewrite mem_get, Hid. cbn [negb]. unfold dict_getitem. rewrite Hid.
  cbn [Res.bind]. rewrite Hh, Hex. cbn [negb].
  unfold required_fields. cbn [filter].
  rewrite !Hreq by (simpl; tauto). cbn [negb].
  rewrite Ha. cbn [Res.bind in_str_set].
  assert (Hk : existsb (String.eqb a) CANONICAL_ACTIONS = true).
  { apply existsb_exists. exists a. split; [exact Hin|apply String.eqb_refl]. }
  rewrite Hk. reflexivity.
Qed.

Lemma parse_lines_canonical events :
  forall acc seen_ids last_seq,
    Forall stored_event events ->
    Forall (fun ev => Dict.mem "data" ev = false) events ->
    fresh_ids seen_ids events ->
    numbered last_seq events ->
    parse_lines (List.map Some events) acc seen_ids last_seq
    = Ok (acc ++ events)%list.
Proof.
  induction events as [|ev rest IH]; intros acc seen_ids last_seq Hst Hd Hfr Hn;
    simpl.
  - now rewrite app_nil_r.
  - inversion Hst as [|? ? Hev Hst']; subst.
    inversion Hd as [|? ? Hdv Hd']; subst.
    inversion Hfr as [|? ? id ? Hid Hh Hex Hfr']; subst.
    inversion Hn as [|? ? ? Hseq Hn']; subst.
    rewrite (@parse_line_canonical _ _ _ _ Hev Hdv Hseq Hid Hh Hex).
    cbn [Res.bind].
    rewrite (IH _ _ _ Hst' Hd' Hfr' Hn'). now rewrite <- app_assoc.
Qed.

(** X4.  A log of stored events without a ["data"] field, numbered from 1
    and with ids that are all different, parses to the very same events:
    nothing is rewritten and nothing is refused. *)
Theorem well_formed_log_parses (events : list dict) :
  well_formed_log events ->
  parse_event_store (List.map Some events) = Ok events.
Proof.
  intros (Hst & Hd & Hfr & Hn). unfold parse_event_store.
  now rewrite (@parse_lines_canonical _ [] _ _ Hst Hd Hfr Hn).
Qed.

Lemma scenario_log_well_formed :
  well_formed_log
    [Scenario.run_start; Scenario.create; Scenario.claim_by 3 "agent-a"].
Proof.
  split; [|split; [|split]].
  - repeat constructor;
      try (intros k Hk; simpl in Hk;
           repeat (destruct Hk as [<-|Hk]; [reflexivity|]); destruct Hk);
      eexists; (split; [reflexivity|simpl; tauto]).
  - repeat constructor.
  - repeat (econstructor; [reflexivity|reflexivity|reflexivity|]).
    constructor.
  - repeat (constructor; [eexists; split; reflexivity|]). constructor.
Qed.

Lemma well_formed_log_parses_witness :
  parse_event_store
    (List.map Some
       [Scenario.run_start; Scenario.create; Scenario.claim_by 3 "agent-a"])
  = Ok [Scenario.run_start; Scenario.create; Scenario.claim_by 3 "agent-a"].
Proof.
  apply well_formed_log_parses. exact scenario_log_well_formed.
Defined.

(** ** store.py: appending the next event *)

Lemma numbered_app k l1 l2 :
  numbered k l1 -> numbered (k + Z.of_nat (List.length l1)) l2 ->
  numbered k (l1 ++ l2).
Proof.
  intros H. revert l2. induction H as [k|k ev rest Hev Hrest IH]; intros l2 H2;
    simpl in *.
  - now rewrite Z.add_0_r in H2.
  - constructor; [exact Hev|]. apply IH.
    replace (k + 1 + Z.of_nat (Datatypes.length rest))
      with (k + Z.pos (Pos.of_succ_nat (Datatypes.length rest))) by lia.
    exact H2.
Qed.

Lemma numbered_last k l ev :
  numbered k (l ++ [ev]) -> event_seq_is ev (k + Z.of_nat (List.length l) + 1).
Proof.
  revert k. induction l as [|x r IH]; intros k H; simpl in *.
  - inversion H; subst. now rewrite Z.add_0_r.
  - inversion H as [|? ? ? _ Hr]; subst. apply IH in Hr.
    replace (k + Z.pos (Pos.of_succ_nat (Datatypes.length r)) + 1)
      with (k + 1 + Z.of_nat (Datatypes.length r) + 1) by lia.
    exact Hr.
Qed.

Lemma py_int_of_isinstance decimal v n :
  isinstance_int v = Some n -> py_int decimal v = Ok n.
Proof. destruct v; simpl; try discriminate; congruence. Qed.

Lemma next_event_seq_numbered decimal events :
  numbered 0 events ->
  next_event_seq decimal events = Ok (Z.of_nat (List.length events) + 1).
Proof.
  intros H. unfold next_event_seq.
  destruct events as [|e0 r0] using rev_ind; [reflexivity|].
  rewrite rev_app_distr. simpl.
  apply numbered_last in H. destruct H as (v & Hv & Hi).
  unfold dict_getitem. rewrite Hv. cbn [Res.bind].
  rewrite (@py_int_of_isinstance decimal _ _ Hi). cbn [Res.bind].
  rewrite length_app. simpl. f_equal. lia.
Qed.

Lemma parse_lines_app l1 :
  forall acc seen_ids last_seq out,
    parse_lines l1 acc seen_ids last_seq = Ok out ->
    exists new,
      out = (acc ++ new)%list /\
      forall l2,
        parse_lines (l1 ++ l2) acc seen_ids last_seq
        = parse_lines l2 out
            (List.rev (List.map event_id_of new) ++ seen_ids)
            (last_seq + Z.of_nat (List.length new)).
Proof.
  induction l1 as [|[raw|] rest IH]; intros acc seen_ids last_seq out; simpl.
  - intros H. injection H as <-. exists []. split; [now rewrite app_nil_r|].
    intros l2. simpl. now rewrite Z.add_0_r.
  - destruct (parse_line raw seen_ids last_seq) as [[[ev seen'] last']|] eqn:Hp;
      cbn [Res.bind]; [|discriminate].
    intros H. destruct (IH _ _ _ _ H) as (new & -> & Happ).
    destruct (parse_line_accepts _ _ _ Hp) as (_ & id & Hid & _ & _ & ->).
    apply parse_line_seq in Hp. destruct Hp as [-> _].
    exists (ev :: new). split; [now rewrite <- app_assoc|].
    intros l2. rewrite Happ. simpl.
    replace (event_id_of ev) with id
      by (unfold event_id_of; now rewrite dict_get_unfold, Hid).
    rewrite <- !app_assoc. simpl.
    f_equal. lia.
  - discriminate.
Qed.

Lemma existsb_false_forall {A : Type} (f : A -> bool) l :
  (forall x, In x l -> f x = false) -> List.existsb f l = false.
Proof.
  induction l as [|y r IH]; simpl; [reflexivity|]. intros H.
  rewrite (H y) by now left. apply IH. intros x Hx. apply H. now right.
Qed.

(** X5.  On a log that parses to [events], [next_event_seq] is the number
    of events plus one; and a log of one more line, a line that decodes to
    the event [make_event] builds with that number and a canonical action,
    parses to the old events followed by the new one, provided no old
    event already has the id of the new one.  The statement is about the
    decoded lines [parse_event_store] works on.  Whether the line
    [append_events] writes for an event decodes to that event is no part
    of it: it does not when a string of the event holds U+0085, U+2028 or
    U+2029, which [json.dumps] writes as they are and at which
    [splitlines] cuts the line. *)
Theorem append_next_event (unicodedata_decimal : string -> option Z)
  (lines : list (option dict)) (events : list dict)
  (ts actor action : string) (payload : json) :
  parse_event_store lines = Ok events ->
  In action CANONICAL_ACTIONS ->
  (forall ev, In ev events ->
     py_eq (JStr ("EV-" ++ Str.zero_padded 8 (Z.of_nat (List.length events) + 1)))
       (event_id_of ev) = false) ->
  next_event_seq unicodedata_decimal events
  = Ok (Z.of_nat (List.length events) + 1) /\
  parse_event_store
    (lines ++ [Some (make_event ts (Z.of_nat (List.length events) + 1)
                       actor action payload)])%list
  = Ok (events ++ [make_event ts (Z.of_nat (List.length events) + 1)
                     actor action payload])%list.
Proof.
  intros Hparse Hact Hfresh.
  split; [apply next_event_seq_numbered; exact (parse_event_store_numbered _ Hparse)|].
  unfold parse_event_store in *.
  destruct (parse_lines_app _ _ _ _ Hparse) as (new & Hnew & Happ).
  simpl in Hnew. subst new. rewrite Happ. simpl.
  erewrite parse_line_canonical; [reflexivity| | | | | |].
  - split.
    + intros k Hk. simpl in Hk.
      repeat (destruct Hk as [<-|Hk]; [reflexivity|]). destruct Hk.
    + exists action. split; [reflexivity|exact Hact].
  - reflexivity.
  - eexists. split; reflexivity.
  - reflexivity.
  - reflexivity.
  - rewrite app_nil_r. apply existsb_false_forall. intros x Hx.
    apply in_rev in Hx. apply in_map_iff in Hx.
    destruct Hx as (ev & <- & Hev). now apply Hfresh.
Qed.

Lemma append_next_event_witness :
  parse_event_store
    (three_line_log ++
       [Some (make_event Scenario.t0 4 "agent-a" "complete"
                (JObj [("task_id", JStr "T-1")]))])%list
  = Ok ([Scenario.run_start; Scenario.create; Scenario.claim_by 3 "agent-a"] ++
          [make_event Scenario.t0 4 "agent-a" "complete"
             (JObj [("task_id", JStr "T-1")])])%list.
Proof.
  refine (proj2 (@append_next_event Scenario.no_digit three_line_log
                   [Scenario.run_start; Scenario.create;
                    Scenario.claim_by 3 "agent-a"]
                   Scenario.t0 "agent-a" "complete"
                   (JObj [("task_id", JStr "T-1")]) eq_refl _ _)).
  - simpl. tauto.
  - intros ev Hev. simpl in Hev.
    repeat (destruct Hev as [<-|Hev]; [reflexivity|]). destruct Hev.
Defined.

(** ** projector.py: what is raised *)

Section Raises.

Variable ok : exn -> Prop.

Hypothesis ok_builtin : forall e, is_ESAAError e = false -> ok e.

Hypothesis ok_codes : forall c, In c handler_codes -> ok (ESAAError c).

Ltac builtin_only :=
  intros e; try discriminate;
  intros H; injection H as <-; apply ok_builtin; reflexivity.

Lemma rr_ok {A : Type} (a : A) : result_raises_only ok (Ok a).
Proof. intros e H. discriminate H. Qed.

Lemma rr_res_bind {A B : Type} (r : result A) (k : A -> result B) :
  result_raises_only ok r ->
  (forall a, result_raises_only ok (k a)) ->
  result_raises_only ok (Res.bind r k).
Proof.
  intros Hr Hk e. destruct r as [a|e']; simpl.
  - apply Hk.
  - intros H. injection H as <-. now apply Hr.
Qed.

Lemma rr_dict_getitem d k : result_raises_only ok (dict_getitem d k).
Proof. unfold dict_getitem. destruct (Dict.get k d); builtin_only. Qed.

Lemma rr_getitem v k : result_raises_only ok (getitem v k).
Proof.
  unfold getitem. destruct v; try destruct (Dict.get k kvs); builtin_only.
Qed.

Lemma rr_as_dict v : result_raises_only ok (as_dict v).
Proof. destruct v; simpl; builtin_only. Qed.

Lemma rr_in_str_set v S : result_raises_only ok (in_str_set v S).
Proof. destruct v; simpl; builtin_only. Qed.

Lemma rr_py_list v : result_raises_only ok (py_list v).
Proof. destruct v; simpl; builtin_only. Qed.

Lemma rr_key_lt a b : result_raises_only ok (key_lt a b).
Proof.
  unfold key_lt.
  destruct (isinstance_int a), (isinstance_int b), a, b; builtin_only.
Qed.

Lemma rr_insert_sorted {A : Type} (x : json * A) l :
  result_raises_only ok (insert_sorted x l).
Proof.
  induction l as [|y r IH]; simpl; [apply rr_ok|].
  apply rr_res_bind; [apply rr_key_lt|]. intros [|]; [apply rr_ok|].
  apply rr_res_bind; [exact IH|]. intros ?. apply rr_ok.
Qed.

Lemma rr_sorted_by_key {A : Type} (l : list (json * A)) :
  forall acc, result_raises_only ok (sorted_by_key acc l).
Proof.
  induction l as [|x r IH]; intros acc; simpl; [apply rr_ok|].
  apply rr_res_bind; [apply rr_insert_sorted|]. intros ?. apply IH.
Qed.

Lemma rr_mapM {A B : Type} (f : A -> result B) l :
  (forall x, result_raises_only ok (f x)) -> result_raises_only ok (mapM f l).
Proof.
  intros Hf. induction l as [|x r IH]; simpl; [apply rr_ok|].
  apply rr_res_bind; [apply Hf|]. intros ?.
  apply rr_res_bind; [exact IH|]. intros ?. apply rr_ok.
Qed.

Lemma rr_kappend k x d :
  result_raises_only ok x -> result_raises_only ok (kappend k x d).
Proof.
  intros Hx. unfold kappend. destruct (hashable k); [|builtin_only].
  apply rr_res_bind; [exact Hx|]. intros ?. apply rr_ok.
Qed.

Lemma rr_fold_left {A B : Type} (f : result A -> B -> result A) l :
  (forall acc x, result_raises_only ok acc -> result_raises_only ok (f acc x)) ->
  forall init,
    result_raises_only ok init -> result_raises_only ok (List.fold_left f l init).
Proof.
  intros Hf. induction l as [|x r IH]; intros init Hi; simpl; [exact Hi|].
  apply IH. now apply Hf.
Qed.

Ltac rr_step :=
  first
    [ apply rr_ok | apply rr_dict_getitem | apply rr_getitem | apply rr_as_dict
    | apply rr_in_str_set | apply rr_py_list | apply rr_sorted_by_key
    | assumption
    | apply rr_kappend
    | apply rr_mapM; intros ?
    | apply rr_fold_left; [intros ? ? ?|]
    | apply rr_res_bind; [|intros ?]
    | match goal with
      | |- result_raises_only _ (if ?b then _ else _) => destruct b eqn:?
      | |- result_raises_only _ (match ?x with _ => _ end) => destruct x eqn:?
      end ].

Lemma rr_new_task payload : result_raises_only ok (_new_task payload).
Proof. unfold _new_task. repeat rr_step. Qed.

Lemma rr_find_task tid ts :
  forall n, result_raises_only ok (find_task ts tid n).
Proof.
  induction ts as [|t r IH]; intros n; simpl.
  - intros e H. injection H as <-. apply ok_codes. simpl. tauto.
  - apply rr_res_bind; [apply rr_dict_getitem|]. intros a.
    destruct (py_eq a tid); [apply rr_ok|apply IH].
Qed.

Lemma rr_has_task_id tid ts : result_raises_only ok (has_task_id ts tid).
Proof.
  induction ts as [|t r IH]; simpl; [apply rr_ok|].
  apply rr_res_bind; [apply rr_dict_getitem|]. intros a.
  destruct (py_eq a tid); [apply rr_ok|apply IH].
Qed.

Lemma rr_issues_index iss : result_raises_only ok (issues_index iss).
Proof. unfold issues_index. repeat rr_step. Qed.

Lemma rr_lessons_index lessons : result_raises_only ok (lessons_index lessons).
Proof. unfold lessons_index. repeat rr_step. Qed.

Section Finish.

Variable sha256_hexdigest : list Byte.byte -> string.

Variable py_repr : json -> string.

Lemma rr_finish st :
  result_raises_only ok (finish sha256_hexdigest py_repr st).
Proof.
  unfold finish, compute_projection_hash. cbv zeta.
  repeat first [apply rr_issues_index | apply rr_lessons_index | rr_step].
Qed.

End Finish.

Lemma ro_task_by_id tid : raises_only ok (_task_by_id tid).
Proof. intros st e. unfold _task_by_id. simpl. apply rr_find_task. Qed.

Lemma ro_task_getitem t k : raises_only ok (task_getitem t k).
Proof.
  intros st e. unfold task_getitem.
  destruct (nth_error (tasks st) t); simpl; [apply rr_dict_getitem|].
  revert e. builtin_only.
Qed.

Lemma ro_task_get t k : raises_only ok (task_get t k).
Proof.
  intros st e. unfold task_get.
  destruct (nth_error (tasks st) t); simpl; revert e; builtin_only.
Qed.

Lemma ro_issue_getitem key k : raises_only ok (issue_getitem key k).
Proof.
  intros st e. unfold issue_getitem.
  destruct (kget key (_issues st)); simpl; [apply rr_dict_getitem|].
  revert e. builtin_only.
Qed.

Lemma ro_issue_get key k dflt : raises_only ok (issue_get key k dflt).
Proof.
  intros st e. unfold issue_get.
  destruct (kget key (_issues st)); simpl; revert e; builtin_only.
Qed.

Ltac ro_step :=
  first
    [ apply ro_ret | apply ro_gets | apply ro_modify
    | apply ro_raise;
        first [ apply ok_codes; simpl; tauto
              | apply ok_builtin; reflexivity
              | assumption ]
    | apply ro_task_by_id | apply ro_task_getitem | apply ro_task_get
    | apply ro_issue_getitem | apply ro_issue_get
    | apply ro_lift;
        first [ apply rr_dict_getitem | apply rr_getitem | apply rr_as_dict
              | apply rr_in_str_set | apply rr_new_task | apply rr_has_task_id ]
    | apply ro_bind; [|intros ?]
    | match goal with
      | |- raises_only _ (if ?b then _ else _) => destruct b eqn:?
      | |- raises_only _ (match ?x with _ => _ end) => destruct x eqn:?
      end ].

Ltac unfold_handlers :=
  unfold _apply_claim, _apply_complete, _apply_review, _apply_issue_report,
    _apply_hotfix_create, _apply_issue_resolve, _ensure_owner, task_setitem,
    issue_setitem2, issue_setitem.

(** With [UNKNOWN_ACTION] allowed, any event. *)
Lemma ro_apply_event event :
  ok (ESAAError "UNKNOWN_ACTION") -> raises_only ok (_apply_event event).
Proof.
  intros Hu. unfold _apply_event. unfold_handlers. repeat ro_step.
Qed.

(** Without it, an event with a canonical action. *)
Lemma ro_apply_event_canonical event a :
  Dict.get "action" event = Some (JStr a) -> In a CANONICAL_ACTIONS ->
  raises_only ok (_apply_event event).
Proof.
  intros Hact Hin. unfold _apply_event. unfold dict_getitem at 1.
  rewrite Hact, bind_lift_ok.
  apply ro_bind; [ro_step|]. intros payload.
  unfold CANONICAL_ACTIONS in Hin. simpl in Hin.
  unfold_handlers.
  repeat (destruct Hin as [<-|Hin];
          [repeat match goal with
                  | |- context [is_action (JStr ?x) ?n] =>
                      let b := eval vm_compute in (is_action (JStr x) n) in
                      change (is_action (JStr x) n) with b
                  | |- context [in_str_set (JStr ?x) audit_only_actions] =>
                      let b := eval vm_compute
                               in (in_str_set (JStr x) audit_only_actions) in
                      change (in_str_set (JStr x) audit_only_actions) with b
                  end;
           cbv iota; try rewrite bind_lift_ok; cbv iota; repeat ro_step|]).
  destruct Hin.
Qed.

Lemma ro_apply_events events :
  Forall stored_event events -> raises_only ok (apply_events events).
Proof.
  induction 1 as [|ev rest [_ (a & Ha & Hin)] _ IH]; simpl; [apply ro_ret|].
  apply ro_bind; [exact (@ro_apply_event_canonical _ _ Ha Hin)|]. intros _. exact IH.
Qed.

End Raises.

Lemma handler_error_builtin e : is_ESAAError e = false -> handler_error e.
Proof. destruct e; simpl; try discriminate; trivial. Qed.

Lemma handler_error_codes c : In c handler_codes -> handler_error (ESAAError c).
Proof. trivial. Qed.

Lemma not_canonical_eqb a :
  ~ In a CANONICAL_ACTIONS ->
  forall n, In n CANONICAL_ACTIONS -> String.eqb a n = false.
Proof.
  intros Hn n Hin. apply String.eqb_neq. intros ->. now apply Hn.
Qed.

(** X6.  The projector knows exactly the actions the store admits: an
    event whose action is one of [CANONICAL_ACTIONS] never ends in
    [UNKNOWN_ACTION], and an event with any other action string is refused
    with [UNKNOWN_ACTION], the state being left as it was. *)
Theorem unknown_action_exactly (event : dict) (a : string) (payload : json)
  (st : state) :
  Dict.get "action" event = Some (JStr a) ->
  Dict.get "payload" event = Some payload ->
  (In a CANONICAL_ACTIONS ->
   fst (_apply_event event st) <> Raise (ESAAError "UNKNOWN_ACTION")) /\
  (~ In a CANONICAL_ACTIONS ->
   _apply_event event st = (Raise (ESAAError "UNKNOWN_ACTION"), st)).
Proof.
  intros Hact Hpay. split.
  - intros Hin H.
    apply (@ro_apply_event_canonical handler_error handler_error_builtin
             handler_error_codes _ _ Hact Hin) in H.
    simpl in H. intuition discriminate.
  - intros Hn. pose proof (not_canonical_eqb Hn) as Hne.
    unfold _apply_event, bind, lift, dict_getitem. rewrite Hact, Hpay.
    unfold is_action. cbn [py_eq].
    rewrite !Hne by (simpl; tauto).
    cbn [in_str_set audit_only_actions existsb].
    rewrite !Hne by (simpl; tauto). reflexivity.
Qed.

Lemma unknown_action_exactly_witness :
  _apply_event
    (make_event Scenario.t0 1 "agent-a" "task.update" (JObj []))
    (_empty_state Scenario.t0 (JStr "esaa-core"))
  = (Raise (ESAAError "UNKNOWN_ACTION"),
     _empty_state Scenario.t0 (JStr "esaa-core")).
Proof.
  refine (proj2 (@unknown_action_exactly
                   (make_event Scenario.t0 1 "agent-a" "task.update" (JObj []))
                   "task.update" (JObj [])
                   (_empty_state Scenario.t0 (JStr "esaa-core"))
                   eq_refl eq_refl) _).
  simpl. intuition discriminate.
Defined.

Section MaterializeRaises.

Variable sha256_hexdigest : list Byte.byte -> string.

Variable py_repr : json -> string.

Lemma parsed_log_materialize_raises (lines : list (option dict))
  (events : list dict) (now : string) (project_name : json) (e : exn) :
  parse_event_store lines = Ok events ->
  materialize sha256_hexdigest py_repr now events project_name = Raise e ->
  handler_error e.
Proof.
  intros Hparse. unfold materialize.
  destruct (parse_lines_accepts _ _ _ _ Hparse) as (new & Hnew & Hst & _).
  simpl in Hnew. subst new.
  pose proof (@ro_apply_events handler_error handler_error_builtin
                handler_error_codes _ Hst) as Hro.
  specialize (Hro (_empty_state now project_name)).
  destruct (apply_events events (_empty_state now project_name))
    as [[u|e'] st'].
  - apply rr_finish. exact handler_error_builtin.
  - intros H. injection H as <-. now apply Hro.
Qed.

(** X7.  When a log parses, materializing its events either returns or
    raises an exception of Python itself or an [ESAAError] with one of the
    seven codes of the handlers: never [UNKNOWN_ACTION], and never a
    [CorruptedStoreError]. *)
Theorem materialize_error_codes (lines : list (option dict))
  (events : list dict) (now : string) (project_name : json) (e : exn) :
  parse_event_store lines = Ok events ->
  materialize sha256_hexdigest py_repr now events project_name = Raise e ->
  handler_error e.
Proof. apply parsed_log_materialize_raises. Qed.

End MaterializeRaises.

Lemma materialize_error_codes_witness :
  handler_error (ESAAError "LOCKED_TASK").
Proof.
  exact (@materialize_error_codes Scenario.no_digest Scenario.no_repr
           [Some Scenario.run_start; Some Scenario.create;
            Some (Scenario.claim_by 3 "agent-a");
            Some (Scenario.claim_by 4 "agent-b")]
           [Scenario.run_start; Scenario.create;
            Scenario.claim_by 3 "agent-a"; Scenario.claim_by 4 "agent-b"]
           Scenario.t0 (JStr "esaa-core") (ESAAError "LOCKED_TASK")
           eq_refl eq_refl).
Defined.

(** ** projector.py: what is written to the task list *)

Lemma Forall_update_nth {A : Type} (P : A -> Prop) (f : A -> A) l :
  (forall x, P x -> P (f x)) ->
  forall t, Forall P l -> Forall P (update_nth t f l).
Proof.
  intros Hf. induction l as [|x r IH]; intros [|t] H; simpl;
    inversion H; subst; constructor; auto.
Qed.

Lemma stable_new_task (P : state -> Prop) {B : Type} payload (k : dict -> M B) :
  (forall task, _new_task payload = Ok task -> stable P (k task)) ->
  stable P (bind (lift (_new_task payload)) k).
Proof.
  intros Hk st H. unfold bind, lift.
  destruct (_new_task payload) as [task|e] eqn:E; [|exact H].
  now apply (Hk task).
Qed.

(** A property of the task list that the handlers' writes and the
    appending of a new task keep is kept by every event. *)
Section TaskWrites.

Variable Q : list dict -> Prop.

Hypothesis Q_write :
  forall t k v ts, task_write k v -> Q ts -> Q (update_nth t (Dict.set k v) ts).

Hypothesis Q_append :
  forall payload task ts,
    _new_task payload = Ok task -> Q ts -> Q (ts ++ [task])%list.

Lemma stable_task_write t k v :
  task_write k v -> stable (on_tasks Q) (task_setitem t k v).
Proof.
  intros Hw. apply stable_modify. intros st H. unfold on_tasks in *. simpl.
  now apply Q_write.
Qed.

Lemma stable_task_append payload task :
  _new_task payload = Ok task ->
  stable (on_tasks Q) (modify (fun st => set_tasks (tasks st ++ [task]) st)).
Proof.
  intros Hn. apply stable_modify. intros st H. unfold on_tasks in *. simpl.
  now apply (Q_append payload).
Qed.

Ltac tw_step :=
  first
    [ apply stable_ret | apply stable_raise | apply stable_lift
    | apply stable_gets | apply stable_task_get | apply stable_task_getitem
    | apply stable_task_by_id
    | apply stable_ensure_owner | apply stable_issue_getitem
    | apply stable_issue_get
    | eapply stable_task_append; eassumption
    | apply stable_on_tasks_modify; intros; reflexivity
    | apply stable_task_write; unfold task_write; simpl; auto 12
    | apply stable_new_task; intros ? ?
    | apply stable_bind; [|intros ?]
    | match goal with
      | |- stable _ (if ?b then _ else _) => destruct b eqn:?
      | |- stable _ (match ?x with _ => _ end) => destruct x eqn:?
      end ].

Lemma task_writes_apply_event event : stable (on_tasks Q) (_apply_event event).
Proof.
  unfold _apply_event, _apply_claim, _apply_complete, _apply_review,
    _apply_issue_report, _apply_hotfix_create, _apply_issue_resolve,
    issue_setitem2, issue_setitem.
  repeat tw_step.
Qed.

Lemma task_writes_apply_events events :
  stable (on_tasks Q) (apply_events events).
Proof.
  induction events as [|event rest IH]; simpl; [apply stable_ret|].
  apply stable_bind; [apply task_writes_apply_event|]. intros _. exact IH.
Qed.

End TaskWrites.

Lemma task_write_not_fixed k k' v :
  ~ In k mutable_task_keys -> task_write k' v -> k' <> k.
Proof.
  intros Hk Hw ->. apply Hk. destruct Hw as [[-> _]|Hw]; simpl in *; tauto.
Qed.

(** X8.  The task list only grows, and a record in it keeps, under every
    sequence of events and whether they are accepted or refused, the value
    that it has at each key other than the seven a handler writes
    ([status], [assigned_to], [started_at], [completed_at], [verification],
    [issue_id], [fixes]): the id, kind, title, description, dependencies,
    targets and outputs of a task never change. *)
Theorem task_identity_kept (events : list dict) (st : state) (i : nat)
  (task : dict) (k : string) :
  ~ In k mutable_task_keys ->
  nth_error (tasks st) i = Some task ->
  exists task',
    nth_error (tasks (snd (apply_events events st))) i = Some task' /\
    Dict.get k task' = Dict.get k task.
Proof.
  intros Hk Hi.
  apply (@task_writes_apply_events
           (fun ts => exists task', nth_error ts i = Some task' /\
                                    Dict.get k task' = Dict.get k task)).
  - intros t k' v ts Hw (task' & Ht & Hg).
    destruct (Nat.eq_dec t i) as [->|Hne].
    + exists (Dict.set k' v task'). rewrite nth_error_update_nth_eq, Ht.
      split; [reflexivity|].
      rewrite get_set_ne; [exact Hg|]. now apply (task_write_not_fixed Hk Hw).
    + exists task'. now rewrite nth_error_update_nth_ne.
  - intros payload new ts _ (task' & Ht & Hg). exists task'.
    split; [now apply nth_error_app_keep|exact Hg].
  - exists task. now split.
Qed.

Lemma task_identity_kept_witness :
  exists task',
    nth_error
      (tasks (snd (apply_events
                     [Scenario.claim_by 3 "agent-a";
                      Scenario.complete_by 4 "agent-a"]
                     (snd (apply_events [Scenario.run_start; Scenario.create]
                             (_empty_state Scenario.t0 (JStr "esaa-core")))))))
      0
    = Some task' /\
    Dict.get "task_id" task' = Some (JStr "T-1").
Proof.
  refine (@task_identity_kept
            [Scenario.claim_by 3 "agent-a"; Scenario.complete_by 4 "agent-a"]
            (snd (apply_events [Scenario.run_start; Scenario.create]
                    (_empty_state Scenario.t0 (JStr "esaa-core"))))
            0 _ "task_id" _ eq_refl).
  simpl. intuition discriminate.
Defined.

Lemma fold_hotfix_get k p :
  ~ In k hotfix_fields ->
  forall fields task,
    incl fields hotfix_fields ->
    Dict.get k
      (List.fold_left
         (fun task field =>
            if Dict.mem field p then Dict.set field (dict_get p field) task
            else task)
         fields task)
    = Dict.get k task.
Proof.
  intros Hk. induction fields as [|f r IH]; intros task Hincl; simpl;
    [reflexivity|].
  rewrite IH by (intros x Hx; apply Hincl; now right).
  destruct (Dict.mem f p); [|reflexivity].
  apply get_set_ne. intros ->. apply Hk, Hincl. now left.
Qed.

Lemma new_task_valid payload task :
  _new_task payload = Ok task -> valid_task task.
Proof.
  unfold _new_task.
  destruct (as_dict payload) as [p|]; cbn [Res.bind]; [|discriminate].
  destruct (dict_getitem p "title") as [title|]; cbn [Res.bind];
    [|discriminate].
  destruct (dict_getitem p "task_id") as [task_id|]; cbn [Res.bind];
    [|discriminate].
  destruct (dict_getitem p "task_kind") as [task_kind|]; cbn [Res.bind];
    [|discriminate].
  destruct (py_list _) as [depends_on|]; cbn [Res.bind]; [|discriminate].
  destruct (py_list _) as [targets|]; cbn [Res.bind]; [|discriminate].
  intros H.
  match type of H with
  | (if _ then Ok (fold_left _ _ (Dict.set _ _ ?t)) else _) = _ =>
      set (base := t) in *
  end.
  assert (Hget : forall k, In k task_keys ->
            Dict.get k task = Dict.get k base).
  { intros k Hk.
    destruct (truthy (dict_get p "is_hotfix"));
      match type of H with
      | Ok ?x = _ => assert (E : x = task) by congruence; clear H; subst task
      end; [|reflexivity].
    rewrite fold_hotfix_get.
    - apply get_set_ne. intros <-. simpl in Hk. intuition discriminate.
    - intros Hh. simpl in Hk, Hh.
      repeat (destruct Hk as [<-|Hk]; [intuition discriminate|]). destruct Hk.
    - apply incl_refl. }
  assert (Hbase : valid_task base).
  { unfold valid_task, base. repeat split.
    - intros k Hk. simpl in Hk.
      repeat (destruct Hk as [<-|Hk]; [reflexivity|]). destruct Hk.
    - exists "todo". split; [reflexivity|simpl; tauto].
    - eexists. reflexivity.
    - eexists. reflexivity. }
  destruct Hbase as (Hm & (s & Hs & Hin) & (ds & Hd) & (tg & Ht) & Him).
  unfold valid_task. repeat split.
  - intros k Hk. rewrite mem_get, (Hget k Hk), <- mem_get. now apply Hm.
  - exists s. rewrite Hget by (simpl; tauto). now split.
  - exists ds. now rewrite Hget by (simpl; tauto).
  - exists tg. now rewrite Hget by (simpl; tauto).
  - now rewrite Hget by (simpl; tauto).
Qed.

Lemma valid_task_set k v task :
  task_write k v -> valid_task task -> valid_task (Dict.set k v task).
Proof.
  intros Hw (Hm & (s & Hs & Hin) & (ds & Hd) & (tg & Ht) & Him).
  unfold valid_task. repeat split.
  - intros k0 Hk0. rewrite mem_get.
    destruct (string_dec k k0) as [->|Hne];
      [now rewrite get_set_eq|].
    rewrite get_set_ne by exact Hne. rewrite <- mem_get. now apply Hm.
  - destruct Hw as [[-> Hv]|Hk].
    + simpl in Hv.
      destruct Hv as [<-|[<-|[<-|[]]]]; eexists;
        (split; [apply get_set_eq|simpl; tauto]).
    + exists s. split; [|exact Hin].
      rewrite get_set_ne; [exact Hs|]. intros ->. simpl in Hk.
      intuition discriminate.
  - exists ds. rewrite get_set_ne; [exact Hd|].
    intros ->. destruct Hw as [[E _]|Hk]; [discriminate E|].
    simpl in Hk. intuition discriminate.
  - exists tg. rewrite get_set_ne; [exact Ht|].
    intros ->. destruct Hw as [[E _]|Hk]; [discriminate E|].
    simpl in Hk. intuition discriminate.
  - rewrite get_set_ne; [exact Him|].
    intros ->. destruct Hw as [[E _]|Hk]; [discriminate E|].
    simpl in Hk. intuition discriminate.
Qed.

Lemma valid_tasks_apply_events events :
  stable (on_tasks (Forall valid_task)) (apply_events events).
Proof.
  apply task_writes_apply_events.
  - intros t k v ts Hw H. apply Forall_update_nth; [|exact H].
    intros x. now apply valid_task_set.
  - intros payload task ts Hn H. apply Forall_app. split; [exact H|].
    constructor; [|constructor]. exact (new_task_valid _ Hn).
Qed.

(** X9.  Every task record of the projected state is valid, whatever the
    events are and whether they are accepted or refused: it has the nine
    keys of [_new_task], its status is one of [todo], [in_progress],
    [review] and [done], its dependencies and targets are lists, and it
    carries the immutability marker. *)
Theorem projected_tasks_valid (events : list dict) (now : string)
  (project_name : json) :
  Forall valid_task
    (tasks (snd (apply_events events (_empty_state now project_name)))).
Proof.
  apply (@valid_tasks_apply_events events). constructor.
Qed.

(** ** projector.py: what the projection hash depends on *)

Lemma same_projection_refl st : same_projection st st.
Proof. repeat split. Qed.

Lemma same_projection_sym s1 s2 :
  same_projection s1 s2 -> same_projection s2 s1.
Proof. intros (? & ? & ? & ? & ? & ?). repeat split; congruence. Qed.

Lemma respects_ret {A : Type} (a : A) : respects (ret a).
Proof. intros s1 s2 H. now split. Qed.

Lemma respects_raise {A : Type} (e : exn) : respects (@raise A e).
Proof. intros s1 s2 H. now split. Qed.

Lemma respects_lift {A : Type} (r : result A) : respects (lift r).
Proof. intros s1 s2 H. now split. Qed.

Lemma respects_gets {A : Type} (f : state -> A) :
  (forall s1 s2, same_projection s1 s2 -> f s1 = f s2) -> respects (gets f).
Proof. intros Hf s1 s2 H. simpl. split; [now rewrite (Hf s1 s2 H)|exact H]. Qed.

Lemma respects_modify (f : state -> state) :
  (forall s1 s2, same_projection s1 s2 -> same_projection (f s1) (f s2)) ->
  respects (modify f).
Proof. intros Hf s1 s2 H. simpl. split; [reflexivity|now apply Hf]. Qed.

Lemma respects_bind {A B : Type} (m : M A) (k : A -> M B) :
  respects m -> (forall a, respects (k a)) -> respects (bind m k).
Proof.
  intros Hm Hk s1 s2 H. unfold bind. destruct (Hm s1 s2 H) as [Hr Hs].
  destruct (m s1) as [[a1|e1] t1]; destruct (m s2) as [[a2|e2] t2];
    simpl in *; try discriminate Hr.
  - injection Hr as <-. now apply Hk.
  - injection Hr as <-. now split.
Qed.

(** A value read from [meta] may differ; what is done with it must not
    show. *)
Lemma respects_gets_any {A B : Type} (f : state -> A) (k : A -> M B) :
  (forall a1 a2 s1 s2,
     same_projection s1 s2 ->
     fst (k a1 s1) = fst (k a2 s2) /\
     same_projection (snd (k a1 s1)) (snd (k a2 s2))) ->
  respects (bind (gets f) k).
Proof. intros Hk s1 s2 H. unfold bind, gets. now apply Hk. Qed.

Lemma respects_task_getitem t k : respects (task_getitem t k).
Proof.
  intros s1 s2 H. unfold task_getitem.
  destruct H as (Hv & Hp & Ht & Hrest). rewrite Ht.
  destruct (nth_error (tasks s2) t); simpl; repeat split; tauto.
Qed.

Lemma respects_task_get t k : respects (task_get t k).
Proof.
  intros s1 s2 H. unfold task_get.
  destruct H as (Hv & Hp & Ht & Hrest). rewrite Ht.
  destruct (nth_error (tasks s2) t); simpl; repeat split; tauto.
Qed.

Lemma respects_task_by_id tid : respects (_task_by_id tid).
Proof.
  intros s1 s2 H. unfold _task_by_id. simpl.
  split; [|exact H]. destruct H as (_ & _ & -> & _). reflexivity.
Qed.

Lemma respects_issue_getitem key k : respects (issue_getitem key k).
Proof.
  intros s1 s2 H. unfold issue_getitem.
  destruct H as (Hv & Hp & Ht & Hi & Hiss & Hl). rewrite Hiss.
  destruct (kget key (_issues s2)); simpl; repeat split; tauto.
Qed.

Lemma respects_issue_get key k dflt : respects (issue_get key k dflt).
Proof.
  intros s1 s2 H. unfold issue_get.
  destruct H as (Hv & Hp & Ht & Hi & Hiss & Hl). rewrite Hiss.
  destruct (kget key (_issues s2)); simpl; repeat split; tauto.
Qed.

Ltac same_projection_fields :=
  let Hv := fresh in let Hp := fresh in let Ht := fresh in
  let Hi := fresh in let Hiss := fresh in let Hl := fresh in
  intros ? ? (Hv & Hp & Ht & Hi & Hiss & Hl);
  unfold same_projection; simpl;
  try rewrite Hv; try rewrite Hp; try rewrite Ht; try rewrite Hi;
  try rewrite Hiss; try rewrite Hl; repeat split; reflexivity.

Ltac respects_step :=
  first
    [ apply respects_ret | apply respects_raise | apply respects_lift
    | apply respects_task_getitem | apply respects_task_get
    | apply respects_task_by_id | apply respects_issue_getitem
    | apply respects_issue_get
    | apply respects_gets; same_projection_fields
    | apply respects_modify; same_projection_fields
    | apply respects_gets_any; intros ? ?; unfold bind, modify;
        same_projection_fields
    | apply respects_bind; [|intros ?]
    | match goal with
      | |- respects (if ?b then _ else _) => destruct b
      | |- respects (match ?x with _ => _ end) => destruct x
      end ].

Lemma respects_apply_event event : respects (_apply_event event).
Proof.
  unfold _apply_event, _apply_claim, _apply_complete, _apply_review,
    _apply_issue_report, _apply_hotfix_create, _apply_issue_resolve,
    _ensure_owner, task_setitem, issue_setitem2, issue_setitem.
  repeat respects_step.
Qed.

Lemma respects_apply_events events : respects (apply_events events).
Proof.
  induction events as [|event rest IH]; simpl; [apply respects_ret|].
  apply respects_bind; [apply respects_apply_event|]. intros _. exact IH.
Qed.

Lemma apply_events_app l1 l2 st :
  apply_events (l1 ++ l2) st
  = match apply_events l1 st with
    | (Ok _, st') => apply_events l2 st'
    | (Raise e, st') => (Raise e, st')
    end.
Proof.
  revert st. induction l1 as [|ev r IH]; intros st; simpl; [reflexivity|].
  unfold bind. destruct (_apply_event ev st) as [[u|e] st']; [apply IH|].
  reflexivity.
Qed.

(** A bookkeeping event is accepted and leaves the projected part of the
    state as it is. *)
Lemma bookkeeping_apply_event ev st :
  bookkeeping ev ->
  fst (_apply_event ev st) = Ok tt /\
  same_projection st (snd (_apply_event ev st)).
Proof.
  intros (a & p & Hact & Hin & Hpay & Hseq & Hts).
  rewrite mem_get in Hseq, Hts.
  destruct (Dict.get "event_seq" ev) as [seq|] eqn:Eseq; [|discriminate].
  destruct (Dict.get "ts" ev) as [ts|] eqn:Ets; [|discriminate].
  unfold _apply_event, bind, lift, dict_getitem.
  rewrite Hact, Hpay, Eseq, Ets.
  unfold bookkeeping_actions in Hin. simpl in Hin.
  repeat (destruct Hin as [<-|Hin];
          [repeat match goal with
                  | |- context [is_action (JStr ?x) ?n] =>
                      let b := eval vm_compute in (is_action (JStr x) n) in
                      change (is_action (JStr x) n) with b
                  | |- context [in_str_set (JStr ?x) audit_only_actions] =>
                      let b := eval vm_compute
                               in (in_str_set (JStr x) audit_only_actions) in
                      change (in_str_set (JStr x) audit_only_actions) with b
                  end;
           cbv iota; simpl; split; [reflexivity|repeat split]|]).
  destruct Hin.
Qed.

Section HashedPart.

Variable sha256_hexdigest : list Byte.byte -> string.

Variable py_repr : json -> string.

(** Whether [finish] returns, and the hash it reports, are the same for
    two states with the same projected part. *)
Lemma finish_same_projection s1 s2 :
  same_projection s1 s2 ->
  hash_of (finish sha256_hexdigest py_repr s1)
  = hash_of (finish sha256_hexdigest py_repr s2).
Proof.
  intros (Hsv & Hp & Ht & Hi & Hiss & Hl). unfold hash_of.
  assert (Hh : hashed_of_state py_repr s1 = hashed_of_state py_repr s2).
  { unfold hashed_of_state, final_indexes. now rewrite Hsv, Hp, Ht, Hi. }
  destruct (finish sha256_hexdigest py_repr s1) as [o1|e1] eqn:E1;
    destruct (finish sha256_hexdigest py_repr s2) as [o2|e2] eqn:E2;
    cbn [Res.map Res.bind].
  - destruct (@finish_roadmap _ _ _ _ E1) as [_ ->].
    destruct (@finish_roadmap _ _ _ _ E2) as [_ ->]. now rewrite Hh.
  - exfalso. revert E1 E2. unfold finish.
    cbn [compute_projection_hash roadmap_json getitem Dict.get
         String.eqb Ascii.eqb Bool.eqb meta_json Res.bind
         _issues _lessons with_run set_indexes].
    rewrite Hiss, Hl.
    destruct (issues_index (_issues s2)) as [[? ?]|]; cbn [Res.bind];
      [|discriminate].
    destruct (lessons_index (_lessons s2)) as [[? ?]|]; cbn [Res.bind];
      discriminate.
  - exfalso. revert E1 E2. unfold finish.
    cbn [compute_projection_hash roadmap_json getitem Dict.get
         String.eqb Ascii.eqb Bool.eqb meta_json Res.bind
         _issues _lessons with_run set_indexes].
    rewrite Hiss, Hl.
    destruct (issues_index (_issues s2)) as [[? ?]|]; cbn [Res.bind];
      [|discriminate].
    destruct (lessons_index (_lessons s2)) as [[? ?]|]; cbn [Res.bind];
      discriminate.
  - revert E1 E2. unfold finish.
    cbn [compute_projection_hash roadmap_json getitem Dict.get
         String.eqb Ascii.eqb Bool.eqb meta_json Res.bind
         _issues _lessons with_run set_indexes].
    rewrite Hiss, Hl.
    destruct (issues_index (_issues s2)) as [[? ?]|]; cbn [Res.bind];
      [|congruence].
    destruct (lessons_index (_lessons s2)) as [[? ?]|]; cbn [Res.bind];
      congruence.
Qed.

(** X10.  The projection hash does not depend on the bookkeeping events
    of the log: taking one out of it, wherever it stands, or putting one
    in, leaves the hash [materialize] reports, or the exception it raises,
    the same.  Such are the [run.start], [run.end], [verify.start],
    [verify.ok], [verify.fail], [output.rejected],
    [orchestrator.file.write] and [orchestrator.view.mutate] events. *)
Theorem bookkeeping_event_not_hashed (now : string) (project_name : json)
  (before after : list dict) (ev : dict) :
  bookkeeping ev ->
  hash_of (materialize sha256_hexdigest py_repr now
             (before ++ ev :: after) project_name)
  = hash_of (materialize sha256_hexdigest py_repr now
               (before ++ after) project_name).
Proof.
  intros Hev. unfold materialize. rewrite !apply_events_app.
  destruct (apply_events before (_empty_state now project_name))
    as [[u|e] st]; [|reflexivity].
  simpl. unfold bind.
  destruct (bookkeeping_apply_event st Hev) as [Hr Hs].
  destruct (_apply_event ev st) as [[u'|e'] st']; simpl in Hr, Hs;
    [|discriminate Hr].
  destruct (respects_apply_events after (same_projection_sym Hs)) as [Hr' Hs'].
  destruct (apply_events after st') as [[a1|e1] t1];
    destruct (apply_events after st) as [[a2|e2] t2]; simpl in Hr', Hs';
    try discriminate Hr'.
  - now apply finish_same_projection.
  - now injection Hr' as <-.
Qed.

End HashedPart.

Lemma bookkeeping_event_not_hashed_witness :
  hash_of (materialize Scenario.no_digest Scenario.no_repr Scenario.t0
             ([Scenario.run_start; Scenario.create] ++
                make_event Scenario.t0 3 "orchestrator" "verify.ok" (JObj [])
                :: [Scenario.claim_by 4 "agent-a"])
             (JStr "esaa-core"))
  = hash_of (materialize Scenario.no_digest Scenario.no_repr Scenario.t0
               ([Scenario.run_start; Scenario.create] ++
                  [Scenario.claim_by 4 "agent-a"])
               (JStr "esaa-core")).
Proof.
  apply bookkeeping_event_not_hashed.
  exists "verify.ok", []. repeat split; try reflexivity. simpl. tauto.
Defined.

(** ** projector.py: the transitions that are accepted *)

Ltac task_step_solve i Hfind Hnth :=
  unfold task_step; cbn [tasks _issues _lessons set_updated_at with_run
                         set_tasks meta];
  split; [rewrite !find_task_update_nth by discriminate; exact Hfind|];
  split;
  [ eexists; eexists; split; [exact Hnth|];
    split; [rewrite !nth_error_update_nth_eq, Hnth; reflexivity|]
  | split; [intros j Hj; rewrite !nth_error_update_nth_ne by congruence;
            reflexivity|split; reflexivity] ].

Lemma claim_accepted (st : state) (event : dict) (payload tid : json)
  (i : nat) (task : dict) (actor seq ts : json) :
  Dict.get "action" event = Some (JStr "claim") ->
  Dict.get "payload" event = Some payload ->
  getitem payload "task_id" = Ok tid ->
  find_task (tasks st) tid 0 = Ok i ->
  nth_error (tasks st) i = Some task ->
  Dict.get "status" task = Some (JStr "todo") ->
  truthy (dict_get task "assigned_to") = false ->
  Dict.get "actor" event = Some actor ->
  Dict.get "event_seq" event = Some seq ->
  Dict.get "ts" event = Some ts ->
  fst (_apply_event event st) = Ok tt /\
  task_step tid i
    (fun t t' =>
       t' = Dict.set "started_at" ts
              (Dict.set "assigned_to" actor
                 (Dict.set "status" (JStr "in_progress") t)))
    st (snd (_apply_event event st)).
Proof.
  intros Hact Hpay Htid Hfind Hnth Hs Hfree Hactor Hseq Hts.
  assert (Hrun : _apply_event event st
    = (Ok tt,
       set_updated_at ts
         (with_run (set_last_event_seq seq)
            (set_tasks
               (update_nth i (Dict.set "started_at" ts)
                  (update_nth i (Dict.set "assigned_to" actor)
                     (update_nth i (Dict.set "status" (JStr "in_progress"))
                        (tasks st))))
               st)))).
  { unfold _apply_event, _apply_claim, task_setitem. run_m.
    rewrite Hact, Hpay. cbn [is_action py_eq String.eqb Ascii.eqb Bool.eqb].
    rewrite Htid, Hfind. rewrite Hnth, Hs.
    cbn [py_eq String.eqb Ascii.eqb Bool.eqb negb]. rewrite Hnth, Hs.
    cbn [in_str_set existsb String.eqb Ascii.eqb Bool.eqb orb].
    rewrite Hnth, Hfree. cbn [orb]. rewrite Hactor, Hts, Hseq.
    reflexivity. }
  rewrite Hrun. cbn [fst snd]. split; [reflexivity|].
  task_step_solve i Hfind Hnth. reflexivity.
Qed.

Lemma complete_accepted (st : state) (event p : dict) (tid : json)
  (i : nat) (task : dict) (actor seq ts : json) :
  Dict.get "action" event = Some (JStr "complete") ->
  Dict.get "payload" event = Some (JObj p) ->
  Dict.get "task_id" p = Some tid ->
  find_task (tasks st) tid 0 = Ok i ->
  nth_error (tasks st) i = Some task ->
  Dict.get "status" task = Some (JStr "in_progress") ->
  Dict.get "actor" event = Some actor ->
  py_eq (dict_get task "assigned_to") actor = true ->
  Dict.get "event_seq" event = Some seq ->
  Dict.get "ts" event = Some ts ->
  fst (_apply_event event st) = Ok tt /\
  task_step tid i
    (fun t t' =>
       Dict.get "status" t' = Some (JStr "review") /\
       (truthy (dict_get p "verification") = true ->
        Dict.get "verification" t' = Some (dict_get p "verification")) /\
       (Dict.mem "issue_id" p = true ->
        Dict.get "issue_id" t' = Some (dict_get p "issue_id")) /\
       (Dict.mem "fixes" p = true ->
        Dict.get "fixes" t' = Some (dict_get p "fixes")) /\
       forall k, ~ In k ["status"; "verification"; "issue_id"; "fixes"] ->
                 Dict.get k t' = Dict.get k t)
    st (snd (_apply_event event st)).
Proof.
  intros Hact Hpay Htid Hfind Hnth Hs Hactor Hown Hseq Hts.
  unfold _apply_event, _apply_complete, _ensure_owner, task_setitem. run_m.
  rewrite Hact, Hpay. cbn [is_action py_eq String.eqb Ascii.eqb Bool.eqb].
  cbn [getitem]. rewrite Htid, Hfind. rewrite Hnth, Hs.
  cbn [py_eq String.eqb Ascii.eqb Bool.eqb negb]. rewrite Hnth, Hs.
  cbn [py_eq String.eqb Ascii.eqb Bool.eqb negb].
  rewrite Hactor, Hnth, Hown. cbn [negb as_dict].
  destruct (truthy (dict_get p "verification")) eqn:Ev;
    destruct (Dict.mem "issue_id" p) eqn:Ei;
    destruct (Dict.mem "fixes" p) eqn:Ef;
    cbn [ret]; rewrite Hseq, Hts; cbn [fst snd];
    (split; [reflexivity|]);
    task_step_solve i Hfind Hnth;
    cbn [option_map];
    (split; [dict_lookup; reflexivity|]);
    (split; [intros E; try discriminate E; dict_lookup; reflexivity|]);
    (split; [intros E; try discriminate E; dict_lookup; reflexivity|]);
    (split; [intros E; try discriminate E; dict_lookup; reflexivity|]);
    intros k Hk; simpl in Hk;
    rewrite !get_set_ne by (intros <-; tauto); reflexivity.
Qed.

Lemma approve_accepted (st : state) (event p : dict) (tid : json)
  (i : nat) (task : dict) (actor seq ts : json) :
  Dict.get "action" event = Some (JStr "review") ->
  Dict.get "payload" event = Some (JObj p) ->
  Dict.get "task_id" p = Some tid ->
  Dict.get "decision" p = Some (JStr "approve") ->
  find_task (tasks st) tid 0 = Ok i ->
  nth_error (tasks st) i = Some task ->
  Dict.get "status" task = Some (JStr "review") ->
  Dict.get "actor" event = Some actor ->
  py_eq (dict_get task "assigned_to") actor = true ->
  Dict.get "event_seq" event = Some seq ->
  Dict.get "ts" event = Some ts ->
  fst (_apply_event event st) = Ok tt /\
  task_step tid i
    (fun t t' =>
       t' = Dict.set "completed_at" ts (Dict.set "status" (JStr "done") t))
    st (snd (_apply_event event st)).
Proof.
  intros Hact Hpay Htid Hdec Hfind Hnth Hs Hactor Hown Hseq Hts.
  assert (Hd : dict_get p "decision" = JStr "approve").
  { now rewrite dict_get_unfold, Hdec. }
  unfold _apply_event, _apply_review, _ensure_owner, task_setitem. run_m.
  rewrite Hact, Hpay. cbn [is_action py_eq String.eqb Ascii.eqb Bool.eqb].
  cbn [getitem]. rewrite Htid, Hfind. cbn [as_dict]. rewrite Hnth, Hs.
  cbn [py_eq String.eqb Ascii.eqb Bool.eqb negb]. rewrite Hnth, Hs.
  cbn [py_eq String.eqb Ascii.eqb Bool.eqb negb].
  rewrite Hactor, Hnth, Hown. cbn [negb]. rewrite Hd.
  cbn [py_eq String.eqb Ascii.eqb Bool.eqb]. rewrite Hts, Hseq.
  cbn [fst snd]. split; [reflexivity|].
  task_step_solve i Hfind Hnth. reflexivity.
Qed.

Lemma task_step_trans tid i (P Q : dict -> dict -> Prop) st st1 st2 :
  task_step tid i P st st1 -> task_step tid i Q st1 st2 ->
  task_step tid i (fun t t2 => exists t1, P t t1 /\ Q t1 t2) st st2.
Proof.
  intros (_ & (t & t1 & Ht & Ht1 & HP) & Ho1 & Hi1 & Hl1)
         (Hf & (t1' & t2 & Ht1' & Ht2 & HQ) & Ho2 & Hi2 & Hl2).
  rewrite Ht1 in Ht1'. injection Ht1' as <-.
  split; [exact Hf|]. split; [|split; [|split]].
  - exists t, t2. repeat split; try assumption. now exists t1.
  - intros j Hj. now rewrite Ho2, Ho1.
  - congruence.
  - congruence.
Qed.

Lemma run_apply_event_bind {B : Type} event (k : unit -> M B) st :
  fst (_apply_event event st) = Ok tt ->
  bind (_apply_event event) k st = k tt (snd (_apply_event event st)).
Proof.
  unfold bind. destruct (_apply_event event st) as [[[]|e] st']; simpl;
    [reflexivity|discriminate].
Qed.

(** X11.  The life of a task.  A task that is [todo] and has no owner,
    claimed, completed and approved by one and the same actor, with
    events as [make_event] builds them, ends [done]: the three events are
    accepted, the record is assigned to the actor, it started at the time
    of the claim and was completed at the time of the review, its other
    fields are those it had but for [verification], [issue_id] and [fixes],
    which the [complete] event may set, and no other task, issue or lesson
    is touched. *)
Theorem task_lifecycle (st : state) (tid : json) (i : nat) (task : dict)
  (who t1 t2 t3 : string) (n1 n2 n3 : Z) (p2 p3 : dict) :
  find_task (tasks st) tid 0 = Ok i ->
  nth_error (tasks st) i = Some task ->
  Dict.get "status" task = Some (JStr "todo") ->
  truthy (dict_get task "assigned_to") = false ->
  Dict.get "task_id" p2 = Some tid ->
  Dict.get "task_id" p3 = Some tid ->
  Dict.get "decision" p3 = Some (JStr "approve") ->
  fst (apply_events
         [make_event t1 n1 who "claim" (JObj [("task_id", tid)]);
          make_event t2 n2 who "complete" (JObj p2);
          make_event t3 n3 who "review" (JObj p3)] st) = Ok tt /\
  task_step tid i
    (fun t t' =>
       Dict.get "status" t' = Some (JStr "done") /\
       Dict.get "assigned_to" t' = Some (JStr who) /\
       Dict.get "started_at" t' = Some (JStr t1) /\
       Dict.get "completed_at" t' = Some (JStr t3) /\
       forall k, ~ In k mutable_task_keys -> Dict.get k t' = Dict.get k t)
    st
    (snd (apply_events
            [make_event t1 n1 who "claim" (JObj [("task_id", tid)]);
             make_event t2 n2 who "complete" (JObj p2);
             make_event t3 n3 who "review" (JObj p3)] st)).
Proof.
  intros Hfind Hnth Hs Hfree Hp2 Hp3 Hdec.
  set (e1 := make_event t1 n1 who "claim" (JObj [("task_id", tid)])).
  set (e2 := make_event t2 n2 who "complete" (JObj p2)).
  set (e3 := make_event t3 n3 who "review" (JObj p3)).
  destruct (@claim_accepted st e1 (JObj [("task_id", tid)]) tid i task
              (JStr who) (JInt n1) (JStr t1) eq_refl eq_refl eq_refl
              Hfind Hnth Hs Hfree eq_refl eq_refl eq_refl) as [Hr1 H1].
  set (st1 := snd (_apply_event e1 st)) in *.
  pose proof H1 as (Hf1 & (ta & tb & Hta & Htb & Hab) & _).
  rewrite Hnth in Hta. injection Hta as <-.
  destruct (@complete_accepted st1 e2 p2 tid i tb (JStr who) (JInt n2)
              (JStr t2) eq_refl eq_refl Hp2 Hf1 Htb) as [Hr2 H2];
    try reflexivity.
  { subst tb. dict_lookup. reflexivity. }
  { subst tb. rewrite dict_get_unfold. dict_lookup. cbn [py_eq].
    apply String.eqb_refl. }
  set (st2 := snd (_apply_event e2 st1)) in *.
  pose proof H2 as (Hf2 & (tb' & tc & Htb' & Htc & Hbc) & _).
  rewrite Htb in Htb'. injection Htb' as <-.
  destruct Hbc as (Hc_status & _ & _ & _ & Hc_keep).
  destruct (@approve_accepted st2 e3 p3 tid i tc (JStr who) (JInt n3)
              (JStr t3) eq_refl eq_refl Hp3 Hdec Hf2 Htc Hc_status)
    as [Hr3 H3]; try reflexivity.
  { rewrite dict_get_unfold, Hc_keep by (simpl; intuition discriminate).
    subst tb. dict_lookup. cbn [py_eq]. apply String.eqb_refl. }
  set (st3 := snd (_apply_event e3 st2)) in *.
  assert (Hrun : apply_events [e1; e2; e3] st = (Ok tt, st3)).
  { cbn [apply_events].
    rewrite (@run_apply_event_bind _ _ _ _ Hr1). fold st1.
    rewrite (@run_apply_event_bind _ _ _ _ Hr2). fold st2.
    rewrite (@run_apply_event_bind _ _ _ _ Hr3). reflexivity. }
  rewrite Hrun. cbn [fst snd]. split; [reflexivity|].
  pose proof (task_step_trans (task_step_trans H1 H2) H3)
    as (Hf & (t & t' & Ht & Ht' & (tc' & (tb' & Eb & Hbc') & Ed)) & Hrest).
  split; [exact Hf|]. split; [|exact Hrest].
  exists t, t'. split; [exact Ht|]. split; [exact Ht'|].
  destruct Hbc' as (_ & _ & _ & _ & Hkeep). subst t' tb'.
  repeat split.
  - now dict_lookup.
  - rewrite !get_set_ne by discriminate.
    rewrite Hkeep by (simpl; intuition discriminate). now dict_lookup.
  - rewrite !get_set_ne by discriminate.
    rewrite Hkeep by (simpl; intuition discriminate). now dict_lookup.
  - now dict_lookup.
  - intros k Hk. unfold mutable_task_keys in Hk. simpl in Hk.
    rewrite !get_set_ne by (intros <-; tauto).
    rewrite Hkeep by (simpl; tauto).
    rewrite !get_set_ne by (intros <-; tauto). reflexivity.
Qed.

Lemma task_lifecycle_witness :
  fst (apply_events
         [make_event "t1" 3 "agent-a" "claim" (JObj [("task_id", JStr "T-1")]);
          make_event "t2" 4 "agent-a" "complete"
            (JObj [("task_id", JStr "T-1")]);
          make_event "t3" 5 "agent-a" "review"
            (JObj [("task_id", JStr "T-1"); ("decision", JStr "approve")])]
         (snd (apply_events [Scenario.run_start; Scenario.create]
                 (_empty_state Scenario.t0 (JStr "esaa-core")))))
  = Ok tt.
Proof.
  refine (proj1 (@task_lifecycle
                   (snd (apply_events [Scenario.run_start; Scenario.create]
                           (_empty_state Scenario.t0 (JStr "esaa-core"))))
                   (JStr "T-1") 0 _ "agent-a" "t1" "t2" "t3" 3 4 5
                   [("task_id", JStr "T-1")]
                   [("task_id", JStr "T-1"); ("decision", JStr "approve")]
                   eq_refl eq_refl eq_refl eq_refl eq_refl eq_refl eq_refl)).
Defined.

(** ** service.py: the task that is dispatched next *)

Lemma string_ltb_lt x y :
  String.ltb x y = true <-> OrderedTypeEx.String_as_OT.lt x y.
Proof.
  unfold String.ltb.
  pose proof (OrderedTypeEx.String_as_OT.cmp_lt x y) as Hlt.
  unfold OrderedTypeEx.String_as_OT.cmp in Hlt.
  destruct (String.compare x y); split; intros H;
    try reflexivity; try discriminate; try (now apply Hlt);
    apply Hlt in H; discriminate.
Qed.

Lemma string_ltb_asym x y : String.ltb x y = true -> String.ltb y x = false.
Proof.
  intros H. destruct (String.ltb y x) eqn:E; [|reflexivity].
  apply string_ltb_lt in H, E.
  pose proof (@OrderedTypeEx.String_as_OT.lt_trans _ _ _ H E) as Hxx.
  apply OrderedTypeEx.String_as_OT.lt_not_eq in Hxx.
  exfalso. apply Hxx. reflexivity.
Qed.

Lemma string_ltb_chain x y z :
  String.ltb x y = true -> String.ltb z y = false -> String.ltb z x = false.
Proof.
  intros Hxy Hzy. destruct (String.ltb z x) eqn:E; [|reflexivity].
  apply string_ltb_lt in Hxy, E.
  pose proof (@OrderedTypeEx.String_as_OT.lt_trans _ _ _ E Hxy) as Hzy'.
  apply string_ltb_lt in Hzy'. congruence.
Qed.

Lemma key_lt_cases a b r :
  key_lt a b = Ok r ->
  (exists x y, isinstance_int a = Some x /\ isinstance_int b = Some y /\
               r = (x <? y)) \/
  (exists s t, a = JStr s /\ b = JStr t /\ r = String.ltb s t).
Proof.
  unfold key_lt.
  destruct (isinstance_int a) as [x|] eqn:Ea;
    destruct (isinstance_int b) as [y|] eqn:Eb.
  - intros H. injection H as <-. left. now exists x, y.
  - destruct a, b; try discriminate. 
  - destruct a, b; try discriminate.
  - destruct a, b; try discriminate.
    intros H. injection H as <-. right. now eexists; eexists.
Qed.

Lemma key_lt_int a b x y :
  isinstance_int a = Some x -> isinstance_int b = Some y ->
  key_lt a b = Ok (x <? y).
Proof. intros Ha Hb. unfold key_lt. now rewrite Ha, Hb. Qed.

Lemma key_lt_asym x y : key_lt x y = Ok true -> key_lt y x = Ok false.
Proof.
  intros H. destruct (key_lt_cases _ _ H)
    as [(a & b & Ha & Hb & E)|(s & t & -> & -> & E)].
  - rewrite (key_lt_int _ _ Hb Ha). f_equal. lia.
  - unfold key_lt. simpl. f_equal. now apply string_ltb_asym.
Qed.

Lemma key_lt_chain x y z :
  key_lt x y = Ok true -> key_lt z y = Ok false -> key_lt z x = Ok false.
Proof.
  intros Hxy Hzy.
  destruct (key_lt_cases _ _ Hxy)
    as [(a & b & Ha & Hb & E)|(s & t & -> & -> & E)];
    destruct (key_lt_cases _ _ Hzy)
      as [(c & b' & Hc & Hb' & E')|(u & t' & -> & Ht & E')].
  - rewrite Hb in Hb'. injection Hb' as <-.
    rewrite (key_lt_int _ _ Hc Ha). f_equal. lia.
  - subst y. discriminate Hb.
  - discriminate Hb'.
  - injection Ht as <-. unfold key_lt. simpl. f_equal.
    eapply string_ltb_chain; eauto.
Qed.

Lemma insert_sorted_spec {A : Type} (x : json * A) l :
  forall l',
    insert_sorted x l = Ok l' ->
    StronglySorted key_not_before l ->
    StronglySorted key_not_before l' /\ Permutation l' (x :: l).
Proof.
  induction l as [|y r IH]; intros l' H Hs; simpl in H.
  - injection H as <-. split; [repeat constructor|reflexivity].
  - destruct (key_lt (fst x) (fst y)) as [[|]|] eqn:E; cbn [Res.bind] in H;
      try discriminate.
    + injection H as <-. split; [|reflexivity].
      constructor; [exact Hs|].
      inversion Hs as [|? ? Hr Hy]; subst.
      constructor; [now apply key_lt_asym|].
      rewrite Forall_forall in *. intros z Hz.
      unfold key_not_before in *. eapply key_lt_chain; eauto.
    + destruct (insert_sorted x r) as [r'|] eqn:Er; cbn [Res.bind] in H;
        [|discriminate].
      injection H as <-. inversion Hs as [|? ? Hr Hy]; subst.
      destruct (IH r' eq_refl Hr) as [Hs' Hp].
      split.
      * constructor; [exact Hs'|].
        rewrite Forall_forall in *. intros z Hz.
        apply (Permutation_in _ Hp) in Hz. destruct Hz as [<-|Hz];
          [exact E|now apply Hy].
      * rewrite Hp. apply perm_swap.
Qed.

Lemma sorted_by_key_spec {A : Type} (l : list (json * A)) :
  forall acc out,
    sorted_by_key acc l = Ok out ->
    StronglySorted key_not_before acc ->
    StronglySorted key_not_before out /\ Permutation out (acc ++ l).
Proof.
  induction l as [|x r IH]; intros acc out H Hs; simpl in H.
  - injection H as <-. split; [exact Hs|now rewrite app_nil_r].
  - destruct (insert_sorted x acc) as [acc'|] eqn:E; cbn [Res.bind] in H;
      [|discriminate].
    destruct (@insert_sorted_spec _ _ _ _ E Hs) as [Hs' Hp].
    destruct (IH _ _ H Hs') as [Hs'' Hp'].
    split; [exact Hs''|].
    rewrite Hp', Hp. simpl. apply Permutation_middle.
Qed.

Lemma mapM_keyed l :
  forall keyed,
    mapM (fun task : dict =>
            let? k := dict_getitem task "task_id" in Ok (k, task)) l
    = Ok keyed ->
    List.map snd keyed = l /\
    Forall (fun kt => Dict.get "task_id" (snd kt) = Some (fst kt)) keyed.
Proof.
  induction l as [|t r IH]; intros keyed H; simpl in H.
  - injection H as <-. split; constructor.
  - unfold dict_getitem in H at 1.
    destruct (Dict.get "task_id" t) as [k|] eqn:Ek; cbn [Res.bind] in H;
      [|discriminate].
    destruct (mapM _ r) as [tl|] eqn:Er; cbn [Res.bind] in H; [|discriminate].
    injection H as <-. destruct (IH _ eq_refl) as [Hm Hf].
    split; [simpl; now rewrite Hm|constructor; [exact Ek|exact Hf]].
Qed.

(** What [sorted(..., key=task_id)] returns: the same records, none
    before one with a smaller id. *)
Lemma sorted_by_task_id_spec l l' :
  sorted_by_task_id l = Ok l' ->
  Permutation l' l /\ StronglySorted not_before l'.
Proof.
  unfold sorted_by_task_id.
  destruct (mapM _ l) as [keyed|] eqn:Ek; cbn [Res.bind]; [|discriminate].
  destruct (sorted_by_key [] keyed) as [sorted|] eqn:Es; cbn [Res.bind];
    [|discriminate].
  intros H. injection H as <-.
  destruct (@mapM_keyed _ _ Ek) as [Hm Hf].
  destruct (@sorted_by_key_spec _ _ _ _ Es (SSorted_nil _)) as [Hs Hp].
  simpl in Hp. split.
  - rewrite <- Hm. now apply Permutation_map.
  - assert (Hf' : Forall (fun kt => Dict.get "task_id" (snd kt) = Some (fst kt))
                    sorted).
    { rewrite Forall_forall in *. intros x Hx. apply Hf.
      now apply (Permutation_in _ Hp). }
    clear - Hs Hf'. induction Hs as [|a r Hr IH Ha]; simpl; constructor.
    + apply IH. now inversion Hf'.
    + inversion Hf' as [|? ? Hida Hfr]; subst.
      rewrite Forall_forall in *. intros c Hc.
      apply in_map_iff in Hc. destruct Hc as (b & <- & Hb).
      exists (fst a), (fst b). repeat split; auto. now apply Ha.
Qed.

Lemma with_status_spec ts s :
  forall l,
    with_status ts s = Ok l ->
    forall t, In t l <-> In t ts /\ has_status s t.
Proof.
  induction ts as [|x r IH]; intros l H t; simpl in H.
  - injection H as <-. simpl. tauto.
  - unfold dict_getitem in H at 1.
    destruct (Dict.get "status" x) as [v|] eqn:Ev; cbn [Res.bind] in H;
      [|discriminate].
    destruct (with_status r s) as [tl|] eqn:Er; cbn [Res.bind] in H;
      [|discriminate].
    injection H as <-. specialize (IH _ eq_refl t).
    destruct (py_eq v (JStr s)) eqn:Ep.
    + apply py_eq_str_true in Ep. subst v. simpl. rewrite IH.
      unfold has_status. split.
      * intros [<-|[H1 H2]]; auto.
      * intros [[<-|H1] H2]; auto.
    + rewrite IH. simpl. unfold has_status. split.
      * intros [H1 H2]; auto.
      * intros [[<-|H1] H2]; auto.
        rewrite Ev in H2. injection H2 as ->. simpl in Ep.
        now rewrite String.eqb_refl in Ep.
Qed.

Lemma deps_done_true by_id deps :
  deps_done by_id deps = Ok true ->
  forall dep t, In dep deps -> kget dep by_id = Some t -> has_status "done" t.
Proof.
  induction deps as [|d r IH]; simpl; [intros _ ? ? []|].
  destruct (hashable d); [|discriminate].
  destruct (kget d by_id) as [t0|] eqn:Ek.
  - unfold dict_getitem.
    destruct (Dict.get "status" t0) as [s|] eqn:Es; cbn [Res.bind];
      [|discriminate].
    destruct (py_eq s (JStr "done")) eqn:Ep; [|discriminate].
    intros H dep t [<-|Hin] Hk.
    + rewrite Ek in Hk. injection Hk as <-.
      apply py_eq_str_true in Ep. now subst s.
    + now apply (IH H dep).
  - intros H dep t [<-|Hin] Hk; [congruence|now apply (IH H dep)].
Qed.

Lemma deps_done_false by_id deps :
  deps_done by_id deps = Ok false ->
  exists dep t, In dep deps /\ kget dep by_id = Some t /\ ~ has_status "done" t.
Proof.
  induction deps as [|d r IH]; simpl; [discriminate|].
  destruct (hashable d); [|discriminate].
  destruct (kget d by_id) as [t0|] eqn:Ek.
  - unfold dict_getitem.
    destruct (Dict.get "status" t0) as [s|] eqn:Es; cbn [Res.bind];
      [|discriminate].
    destruct (py_eq s (JStr "done")) eqn:Ep.
    + intros H. destruct (IH H) as (dep & t & Hin & Hk & Hn).
      exists dep, t. auto.
    + intros _. exists d, t0. repeat split; auto.
      unfold has_status. rewrite Es. intros E. injection E as ->.
      discriminate Ep.
  - intros H. destruct (IH H) as (dep & t & Hin & Hk & Hn).
    exists dep, t. auto.
Qed.

Lemma first_ready_some by_id todo task :
  first_ready by_id todo = Ok (Some task) ->
  exists pre post,
    todo = (pre ++ task :: post)%list /\ ready by_id task /\
    forall c, In c pre -> ~ ready by_id c.
Proof.
  induction todo as [|x r IH]; simpl; [discriminate|].
  destruct (py_list _) as [deps|] eqn:Ed; cbn [Res.bind]; [|discriminate].
  destruct (deps_done by_id deps) as [[|]|] eqn:Er; cbn [Res.bind];
    try discriminate.
  - intros H. injection H as <-. exists [], r. repeat split.
    + exists deps. split; [exact Ed|now apply deps_done_true].
    + intros c [].
  - intros H. destruct (IH H) as (pre & post & -> & Hr & Hpre).
    exists (x :: pre), post. repeat split; auto.
    intros c [<-|Hc]; [|now apply Hpre].
    intros (deps' & Hd' & Hall). rewrite Ed in Hd'. injection Hd' as <-.
    destruct (@deps_done_false _ _ Er) as (dep & t & Hin & Hk & Hn).
    apply Hn. now apply (Hall dep).
Qed.

Lemma first_ready_none by_id todo :
  first_ready by_id todo = Ok None ->
  forall c, In c todo -> ~ ready by_id c.
Proof.
  induction todo as [|x r IH]; simpl; [intros _ ? []|].
  destruct (py_list _) as [deps|] eqn:Ed; cbn [Res.bind]; [|discriminate].
  destruct (deps_done by_id deps) as [[|]|] eqn:Er; cbn [Res.bind];
    try discriminate.
  intros H c [<-|Hc]; [|now apply IH].
  intros (deps' & Hd' & Hall). rewrite Ed in Hd'. injection Hd' as <-.
  destruct (@deps_done_false _ _ Er) as (dep & t & Hin & Hk & Hn).
  apply Hn. now apply (Hall dep).
Qed.

Lemma sorted_head_first (first : dict) rest c :
  StronglySorted not_before (first :: rest) ->
  In c (first :: rest) -> c = first \/ not_before first c.
Proof.
  intros Hs [<-|Hc]; [now left|right].
  inversion Hs as [|? ? _ Hf]; subst. rewrite Forall_forall in Hf. now apply Hf.
Qed.

Lemma sorted_after_first (pre : list dict) task post c :
  StronglySorted not_before (pre ++ task :: post) ->
  In c post -> not_before task c.
Proof.
  induction pre as [|x r IH]; simpl; intros Hs Hc.
  - inversion Hs as [|? ? _ Hf]; subst. rewrite Forall_forall in Hf.
    now apply Hf.
  - inversion Hs; subst. now apply IH.
Qed.

Lemma select_next_task_some ts task :
  select_next_task ts = Ok (Some task) ->
  exists by_id,
    by_id_of ts [] = Ok by_id /\ In task ts /\
    (has_status "review" task /\
     (forall c, In c ts -> has_status "review" c ->
                c = task \/ not_before task c)
     \/
     has_status "in_progress" task /\
     (forall c, In c ts -> ~ has_status "review" c) /\
     (forall c, In c ts -> has_status "in_progress" c ->
                c = task \/ not_before task c)
     \/
     has_status "todo" task /\ ready by_id task /\
     (forall c, In c ts ->
                ~ has_status "review" c /\ ~ has_status "in_progress" c) /\
     (forall c, In c ts -> has_status "todo" c -> ready by_id c ->
                c = task \/ not_before task c)).
Proof.
  unfold select_next_task.
  destruct (by_id_of ts []) as [by_id|]; cbn [Res.bind]; [|discriminate].
  destruct (with_status ts "review") as [cr|] eqn:Ecr; cbn [Res.bind];
    [|discriminate].
  destruct (sorted_by_task_id cr) as [sr|] eqn:Esr; cbn [Res.bind];
    [|discriminate].
  pose proof (with_status_spec _ _ Ecr) as Hcr.
  destruct (sorted_by_task_id_spec _ Esr) as [Hpr Hsr].
  destruct sr as [|first rest].
  2: { intros H. injection H as <-. exists by_id. split; [reflexivity|].
       assert (Hin : In first cr) by (apply (Permutation_in _ Hpr); now left).
       apply Hcr in Hin. split; [tauto|]. left. split; [tauto|].
       intros c Hc Hs. apply (sorted_head_first Hsr).
       apply (Permutation_in _ (Permutation_sym Hpr)). apply Hcr. now split. }
  apply Permutation_nil in Hpr. subst cr.
  assert (Hnr : forall c, In c ts -> ~ has_status "review" c).
  { intros c Hc Hs. apply (proj2 (Hcr c)). now split. }
  destruct (with_status ts "in_progress") as [cp|] eqn:Ecp; cbn [Res.bind];
    [|discriminate].
  destruct (sorted_by_task_id cp) as [sp|] eqn:Esp; cbn [Res.bind];
    [|discriminate].
  pose proof (with_status_spec _ _ Ecp) as Hcp.
  destruct (sorted_by_task_id_spec _ Esp) as [Hpp Hsp].
  destruct sp as [|first rest].
  2: { intros H. injection H as <-. exists by_id. split; [reflexivity|].
       assert (Hin : In first cp) by (apply (Permutation_in _ Hpp); now left).
       apply Hcp in Hin. split; [tauto|]. right. left.
       split; [tauto|]. split; [exact Hnr|].
       intros c Hc Hs. apply (sorted_head_first Hsp).
       apply (Permutation_in _ (Permutation_sym Hpp)). apply Hcp. now split. }
  apply Permutation_nil in Hpp. subst cp.
  assert (Hnp : forall c, In c ts -> ~ has_status "in_progress" c).
  { intros c Hc Hs. apply (proj2 (Hcp c)). now split. }
  destruct (with_status ts "todo") as [ct|] eqn:Ect; cbn [Res.bind];
    [|discriminate].
  destruct (sorted_by_task_id ct) as [stodo|] eqn:Est; cbn [Res.bind];
    [|discriminate].
  pose proof (with_status_spec _ _ Ect) as Hct.
  destruct (sorted_by_task_id_spec _ Est) as [Hpt Hst].
  intros H. destruct (first_ready_some _ _ H) as (pre & post & -> & Hr & Hpre).
  exists by_id. split; [reflexivity|].
  assert (Hin : In task ct).
  { apply (Permutation_in _ Hpt). apply in_or_app. right. now left. }
  apply Hct in Hin. split; [tauto|]. right. right.
  split; [tauto|]. split; [exact Hr|]. split; [now split; auto|].
  intros c Hc Hs Hrc.
  assert (Hcin : In c (pre ++ task :: post)).
  { apply (Permutation_in _ (Permutation_sym Hpt)). apply Hct. now split. }
  apply in_app_or in Hcin. destruct Hcin as [Hp|[<-|Hp]].
  - exfalso. now apply (Hpre c).
  - now left.
  - right. now apply (@sorted_after_first pre task post c Hst).
Qed.

(** X12.  The task [select_next_task] returns is one of the given tasks.
    It is in review; or in progress, and then no task is in review; or
    todo, and then no task is in review or in progress and each of its
    dependencies that names a task is done.  Among the tasks of its kind
    (the todo ones counted when their dependencies are done) none has a
    smaller task id. *)
Theorem select_next_task_sound (ts : list dict) (task : dict) :
  select_next_task ts = Ok (Some task) ->
  exists by_id,
    by_id_of ts [] = Ok by_id /\ In task ts /\
    (has_status "review" task /\
     (forall c, In c ts -> has_status "review" c ->
                c = task \/ not_before task c)
     \/
     has_status "in_progress" task /\
     (forall c, In c ts -> ~ has_status "review" c) /\
     (forall c, In c ts -> has_status "in_progress" c ->
                c = task \/ not_before task c)
     \/
     has_status "todo" task /\ ready by_id task /\
     (forall c, In c ts ->
                ~ has_status "review" c /\ ~ has_status "in_progress" c) /\
     (forall c, In c ts -> has_status "todo" c -> ready by_id c ->
                c = task \/ not_before task c)).
Proof. exact (@select_next_task_some ts task). Qed.

Lemma select_next_task_sound_witness : In impl_todo [spec_done; impl_todo].
Proof.
  destruct (@select_next_task_sound [spec_done; impl_todo] impl_todo eq_refl)
    as (by_id & _ & H & _).
  exact H.
Defined.

(** X13.  When [select_next_task] returns [None], no task is in review
    or in progress, and every todo task has a dependency that names a
    task which is not done. *)
Theorem select_next_task_none (ts : list dict) :
  select_next_task ts = Ok None ->
  exists by_id,
    by_id_of ts [] = Ok by_id /\
    forall c, In c ts ->
      ~ has_status "review" c /\ ~ has_status "in_progress" c /\
      (has_status "todo" c ->
       exists deps dep t,
         py_list (Dict.get_default "depends_on" (JArr []) c) = Ok deps /\
         In dep deps /\ kget dep by_id = Some t /\ ~ has_status "done" t).
Proof.
  unfold select_next_task.
  destruct (by_id_of ts []) as [by_id|]; cbn [Res.bind]; [|discriminate].
  destruct (with_status ts "review") as [cr|] eqn:Ecr; cbn [Res.bind];
    [|discriminate].
  destruct (sorted_by_task_id cr) as [sr|] eqn:Esr; cbn [Res.bind];
    [|discriminate].
  pose proof (with_status_spec _ _ Ecr) as Hcr.
  destruct (sorted_by_task_id_spec _ Esr) as [Hpr _].
  destruct sr as [|first rest]; [|discriminate].
  apply Permutation_nil in Hpr. subst cr.
  destruct (with_status ts "in_progress") as [cp|] eqn:Ecp; cbn [Res.bind];
    [|discriminate].
  destruct (sorted_by_task_id cp) as [sp|] eqn:Esp; cbn [Res.bind];
    [|discriminate].
  pose proof (with_status_spec _ _ Ecp) as Hcp.
  destruct (sorted_by_task_id_spec _ Esp) as [Hpp _].
  destruct sp as [|first rest]; [|discriminate].
  apply Permutation_nil in Hpp. subst cp.
  destruct (with_status ts "todo") as [ct|] eqn:Ect; cbn [Res.bind];
    [|discriminate].
  destruct (sorted_by_task_id ct) as [stodo|] eqn:Est; cbn [Res.bind];
    [|discriminate].
  pose proof (with_status_spec _ _ Ect) as Hct.
  destruct (sorted_by_task_id_spec _ Est) as [Hpt _].
  intros H. exists by_id. split; [reflexivity|].
  intros c Hc. split; [|split].
  - intros Hs. apply (proj2 (Hcr c)). now split.
  - intros Hs. apply (proj2 (Hcp c)). now split.
  - intros Hs.
    assert (Hin : In c stodo).
    { apply (Permutation_in _ (Permutation_sym Hpt)). apply Hct. now split. }
    clear - H Hin. induction stodo as [|x r IH]; [destruct Hin|].
    simpl in H.
    destruct (py_list _) as [deps|] eqn:Ed; cbn [Res.bind] in H;
      [|discriminate].
    destruct (deps_done by_id deps) as [[|]|] eqn:Er; cbn [Res.bind] in H;
      try discriminate.
    destruct Hin as [<-|Hin]; [|now apply IH].
    destruct (@deps_done_false _ _ Er) as (dep & t & Hd & Hk & Hn).
    now exists deps, dep, t.
Qed.

Lemma select_next_task_none_witness : ~ has_status "review" spec_done.
Proof.
  destruct (@select_next_task_none [spec_done] eq_refl) as (by_id & _ & H).
  exact (proj1 (H spec_done (or_introl eq_refl))).
Defined.

Lemma all_status_done_spec ts :
  all_status_done ts = Ok true -> forall t, In t ts -> has_status "done" t.
Proof.
  induction ts as [|x r IH]; simpl; [intros _ ? []|].
  unfold dict_getitem.
  destruct (Dict.get "status" x) as [s|] eqn:Es; cbn [Res.bind];
    [|discriminate].
  destruct (py_eq s (JStr "done")) eqn:Ep; [|discriminate].
  intros H t [<-|Ht]; [|now apply IH].
  apply py_eq_str_true in Ep. now subst s.
Qed.

(** X14.  When [all_tasks_done] holds, there is at least one task, every
    task is done, and [select_next_task] returns no task: the loop of
    [run] stops. *)
Theorem all_done_nothing_selected (ts : list dict) :
  all_tasks_done ts = Ok true ->
  ts <> [] /\ (forall t, In t ts -> has_status "done" t) /\
  forall task, select_next_task ts <> Ok (Some task).
Proof.
  intros H. unfold all_tasks_done in H.
  destruct ts as [|x r]; [discriminate|].
  pose proof (all_status_done_spec _ H) as Hd.
  split; [discriminate|]. split; [exact Hd|].
  intros task Hsel.
  destruct (select_next_task_some _ Hsel) as (by_id & _ & Hin & Hcase).
  specialize (Hd task Hin). unfold has_status in *.
  destruct Hcase as [[Hs _]|[[Hs _]|[Hs _]]]; rewrite Hd in Hs;
    discriminate Hs.
Qed.

Lemma all_done_nothing_selected_witness :
  has_status "done" spec_done /\
  select_next_task [spec_done] <> Ok (Some spec_done).
Proof.
  destruct (@all_done_nothing_selected [spec_done] eq_refl) as (_ & Hd & Hn).
  split; [exact (Hd spec_done (or_introl eq_refl))|exact (Hn spec_done)].
Defined.

(** ** Looking a task up by its id: the first record or the last *)

Lemma py_eq_key_class a b :
  hashable a = true -> hashable b = true ->
  (py_eq a b = true <-> key_class a = key_class b).
Proof.
  destruct a, b; simpl; try discriminate; intros _ _; split; intros H;
    first
      [ reflexivity
      | discriminate
      | apply Z.eqb_eq in H; subst; reflexivity
      | apply String.eqb_eq in H; subst; reflexivity
      | apply eqb_prop in H; subst; reflexivity
      | injection H as H; apply Z.eqb_eq; exact H
      | injection H as H; apply String.eqb_eq; exact H
      | repeat match goal with x : bool |- _ => destruct x end;
        simpl in *; congruence ].
Qed.

Lemma py_eq_same_class a b c :
  hashable a = true -> hashable b = true -> hashable c = true ->
  py_eq a b = true -> py_eq a c = py_eq b c.
Proof.
  intros Ha Hb Hc Hab. apply py_eq_key_class in Hab; [|exact Ha|exact Hb].
  destruct (py_eq a c) eqn:Eac; destruct (py_eq b c) eqn:Ebc; try reflexivity.
  - apply py_eq_key_class in Eac; [|exact Ha|exact Hc].
    assert (E : py_eq b c = true)
      by (apply py_eq_key_class; [exact Hb|exact Hc|congruence]).
    congruence.
  - apply py_eq_key_class in Ebc; [|exact Hb|exact Hc].
    assert (E : py_eq a c = true)
      by (apply py_eq_key_class; [exact Ha|exact Hc|congruence]).
    congruence.
Qed.

Lemma py_eq_sym_hashable a b :
  hashable a = true -> hashable b = true -> py_eq a b = py_eq b a.
Proof.
  intros Ha Hb.
  destruct (py_eq a b) eqn:E1; destruct (py_eq b a) eqn:E2; try reflexivity.
  - apply py_eq_key_class in E1; [|exact Ha|exact Hb].
    assert (E : py_eq b a = true)
      by (apply py_eq_key_class; [exact Hb|exact Ha|congruence]).
    congruence.
  - apply py_eq_key_class in E2; [|exact Hb|exact Ha].
    assert (E : py_eq a b = true)
      by (apply py_eq_key_class; [exact Ha|exact Hb|congruence]).
    congruence.
Qed.

Lemma py_eq_meet a b c :
  hashable a = true -> hashable b = true -> hashable c = true ->
  py_eq a c = true -> py_eq b c = true -> py_eq a b = true.
Proof.
  intros Ha Hb Hc Hac Hbc.
  apply py_eq_key_class in Hac; [|exact Ha|exact Hc].
  apply py_eq_key_class in Hbc; [|exact Hb|exact Hc].
  apply py_eq_key_class; [exact Ha|exact Hb|congruence].
Qed.

Lemma kget_kset {V : Type} (k dep : json) (v : V) d :
  keys_hashable d -> hashable k = true -> hashable dep = true ->
  kget dep (kset k v d) = if py_eq k dep then Some v else kget dep d.
Proof.
  intros Hd Hk Hdep. unfold kset.
  destruct (kget k d) as [w|] eqn:Ek.
  - induction Hd as [|[k' v'] r Hk' Hr IH]; simpl in *; [discriminate|].
    destruct (py_eq k' k) eqn:E.
    + simpl. rewrite (py_eq_same_class k' k dep) by assumption.
      now destruct (py_eq k dep).
    + simpl. destruct (py_eq k' dep) eqn:E'.
      * destruct (py_eq k dep) eqn:E''; [|reflexivity].
        rewrite (py_eq_meet k' k dep) in E by assumption. discriminate E.
      * now apply IH.
  - induction Hd as [|[k' v'] r Hk' Hr IH]; simpl in *.
    + reflexivity.
    + destruct (py_eq k' k) eqn:E; [discriminate|].
      destruct (py_eq k' dep) eqn:E'.
      * destruct (py_eq k dep) eqn:E''; [|reflexivity].
        rewrite (py_eq_meet k' k dep) in E by assumption. discriminate E.
      * now apply IH.
Qed.

Lemma keys_hashable_kset {V : Type} (k : json) (v : V) d :
  keys_hashable d -> hashable k = true -> keys_hashable (kset k v d).
Proof.
  intros Hd Hk. unfold kset. destruct (kget k d).
  - induction Hd as [|[k' v'] r Hk' Hr IH]; simpl; [constructor|].
    destruct (py_eq k' k); constructor; auto.
  - apply Forall_app. split; [exact Hd|]. now repeat constructor.
Qed.

Lemma by_id_of_spec ts :
  forall acc by_id dep,
    by_id_of ts acc = Ok by_id ->
    keys_hashable acc -> hashable dep = true ->
    forall t,
      kget dep by_id = Some t <->
      last_with_id ts dep t \/
      ((forall c, In c ts -> py_eq (dict_get c "task_id") dep = false) /\
       kget dep acc = Some t).
Proof.
  induction ts as [|x r IH]; intros acc by_id dep H Hacc Hdep t; simpl in H.
  - injection H as <-. split.
    + intros Hk. right. split; [intros c []|exact Hk].
    + intros [(pre & post & E & _)|[_ Hk]]; [|exact Hk].
      now destruct pre.
  - unfold dict_getitem in H.
    destruct (Dict.get "task_id" x) as [k|] eqn:Ek; cbn [Res.bind] in H;
      [|discriminate].
    destruct (hashable k) eqn:Hk; [|discriminate].
    assert (Hx : dict_get x "task_id" = k)
      by now rewrite dict_get_unfold, Ek.
    rewrite (IH _ _ dep H (@keys_hashable_kset _ k x acc Hacc Hk) Hdep t).
    rewrite (@kget_kset _ k dep x acc Hacc Hk Hdep).
    split.
    + intros [(pre & post & -> & Hp & Hpost)|[Hnone Hget]].
      * left. exists (x :: pre), post. now repeat split.
      * destruct (py_eq k dep) eqn:E.
        -- injection Hget as <-. left. exists [], r. repeat split; auto.
           now rewrite Hx.
        -- right. split; [|exact Hget].
           intros c [<-|Hc]; [now rewrite Hx|now apply Hnone].
    + intros [(pre & post & E & Hp & Hpost)|[Hnone Hget]].
      * destruct pre as [|y pre]; simpl in E; injection E as -> ->.
        -- right. split; [exact Hpost|]. rewrite Hx in Hp. now rewrite Hp.
        -- left. now exists pre, post.
      * right. split; [intros c Hc; apply Hnone; now right|].
        specialize (Hnone x (or_introl eq_refl)). rewrite Hx in Hnone.
        now rewrite Hnone.
Qed.

Lemma find_task_spec tid ts :
  forall n i,
    find_task ts tid n = Ok i ->
    exists t, (n <= i)%nat /\ first_with_id ts tid (i - n) t.
Proof.
  induction ts as [|x r IH]; intros n i H; simpl in H; [discriminate|].
  unfold dict_getitem in H.
  destruct (Dict.get "task_id" x) as [k|] eqn:Ek; cbn [Res.bind] in H;
    [|discriminate].
  assert (Hx : dict_get x "task_id" = k) by now rewrite dict_get_unfold, Ek.
  destruct (py_eq k tid) eqn:E.
  - injection H as <-. exists x. split; [lia|].
    rewrite Nat.sub_diag. repeat split; [now rewrite Hx|].
    intros j c Hj. lia.
  - destruct (IH _ _ H) as (t & Hle & Hn & Hp & Hbefore).
    exists t. split; [lia|].
    replace (i - n)%nat with (S (i - S n)) by lia.
    repeat split; [exact Hn|exact Hp|].
    intros [|j] c Hj Hc; simpl in Hc.
    + injection Hc as <-. now rewrite Hx.
    + apply (Hbefore j c); [lia|exact Hc].
Qed.

(** X15.  With two records under one id, the handlers and the scheduler
    look at different ones: [_task_by_id] of the projector finds the first
    record with the id, and the [by_id] table of [select_next_task], by
    which the dependencies of a task are judged, holds the last. *)
Theorem first_and_last_by_id (ts : list dict) (tid : json) :
  hashable tid = true ->
  (forall i, find_task ts tid 0 = Ok i ->
             exists t, first_with_id ts tid i t) /\
  (forall by_id t,
     by_id_of ts [] = Ok by_id ->
     (kget tid by_id = Some t <-> last_with_id ts tid t)).
Proof.
  intros Hh. split.
  - intros i H. destruct (find_task_spec _ _ _ H) as (t & _ & Ht).
    rewrite Nat.sub_0_r in Ht. now exists t.
  - intros by_id t H.
    rewrite (by_id_of_spec _ _ H (Forall_nil _) Hh t).
    split; [|now left].
    intros [Hl|[_ Hk]]; [exact Hl|discriminate Hk].
Qed.

Lemma first_and_last_by_id_witness :
  find_task shared_id_tasks (JStr "T-1") 0 = Ok 0%nat /\
  first_with_id shared_id_tasks (JStr "T-1") 0 t1_todo /\
  by_id_of shared_id_tasks []
  = Ok [(JStr "T-1", t1_done); (JStr "T-2", t2_todo)] /\
  (kget (JStr "T-1") [(JStr "T-1", t1_done); (JStr "T-2", t2_todo)]
   = Some t1_done <->
   last_with_id shared_id_tasks (JStr "T-1") t1_done).
Proof.
  destruct (@first_and_last_by_id shared_id_tasks (JStr "T-1") eq_refl)
    as [Hfirst Hlast].
  split; [reflexivity|]. split; [|split; [reflexivity|]].
  - destruct (Hfirst 0%nat eq_refl) as (t & Hn & Hp & Hb).
    injection Hn as <-. split; [reflexivity|]. split; [exact Hp|exact Hb].
  - exact (Hlast [(JStr "T-1", t1_done); (JStr "T-2", t2_todo)] t1_done
             eq_refl).
Defined.

(** ** service.py: one hotfix for an issue *)

Section HotfixOnce.

Variable py_repr : json -> string.

Variable unicodedata_decimal : string -> option Z.

Lemma has_hotfix_event_app l1 l2 hf :
  has_hotfix_event l1 hf = Ok false ->
  has_hotfix_event (l1 ++ l2) hf = has_hotfix_event l2 hf.
Proof.
  induction l1 as [|ev r IH]; simpl; [reflexivity|].
  destruct (dict_getitem ev "action") as [a|]; cbn [Res.bind]; [|discriminate].
  destruct (py_eq a (JStr "hotfix.create")); [|exact IH].
  destruct (dict_getitem ev "payload") as [p|]; cbn [Res.bind];
    [|discriminate].
  destruct (as_dict p) as [d|]; cbn [Res.bind]; [|discriminate].
  destruct (py_eq (dict_get d "task_id") (JStr hf)); [discriminate|exact IH].
Qed.

Lemma build_hotfix_event_some ts events issue_payload ev :
  build_hotfix_event py_repr unicodedata_decimal ts events issue_payload
  = Ok (Some ev) ->
  truthy (dict_get issue_payload "issue_id") = true /\
  truthy (dict_get issue_payload "fixes") = true /\
  has_hotfix_event events
    ("HF-" ++ py_str py_repr (dict_get issue_payload "issue_id")) = Ok false /\
  exists seq affected,
    next_event_seq unicodedata_decimal events = Ok seq /\
    as_dict (Dict.get_default "affected" (JObj []) issue_payload)
    = Ok affected /\
    ev = make_event ts seq "orchestrator" "hotfix.create"
           (JObj (hotfix_payload py_repr issue_payload
                    (Dict.get_default "baseline_id" (JStr "B-000") affected))).
Proof.
  unfold build_hotfix_event.
  destruct (truthy (dict_get issue_payload "issue_id")); [|discriminate].
  destruct (truthy (dict_get issue_payload "fixes")); [|discriminate].
  cbn [negb orb].
  destruct (has_hotfix_event events _) as [[|]|]; cbn [Res.bind];
    try discriminate.
  destruct (next_event_seq unicodedata_decimal events) as [seq|]; cbn [Res.bind]; [|discriminate].
  destruct (as_dict _) as [affected|]; cbn [Res.bind]; [|discriminate].
  intros H. injection H as <-. repeat split. now exists seq, affected.
Qed.

(** X16.  An issue gets one hotfix.  The event [build_hotfix_event]
    returns is a [hotfix.create] event by the orchestrator, numbered with
    [next_event_seq], for the task [HF-<issue_id>]; once it is in the log,
    whatever comes after it, [build_hotfix_event] returns [None] for the
    same issue. *)
Theorem hotfix_built_once (ts : string) (events : list dict)
  (issue_payload ev : dict) :
  build_hotfix_event py_repr unicodedata_decimal ts events issue_payload
  = Ok (Some ev) ->
  Dict.get "action" ev = Some (JStr "hotfix.create") /\
  Dict.get "actor" ev = Some (JStr "orchestrator") /\
  Res.map JInt (next_event_seq unicodedata_decimal events) = dict_getitem ev "event_seq" /\
  getitem (dict_get ev "payload") "task_id"
  = Ok (JStr ("HF-" ++ py_str py_repr (dict_get issue_payload "issue_id"))) /\
  forall (ts' : string) (later : list dict),
    build_hotfix_event py_repr unicodedata_decimal ts' (events ++ ev :: later)
      issue_payload
    = Ok None.
Proof.
  intros H.
  destruct (build_hotfix_event_some _ _ _ H)
    as (Hi & Hf & Hno & seq & affected & Hseq & Haff & ->).
  split; [reflexivity|]. split; [reflexivity|].
  split; [now rewrite Hseq|]. split; [reflexivity|].
  intros ts' later. unfold build_hotfix_event.
  rewrite Hi, Hf. cbn [negb orb].
  rewrite (@has_hotfix_event_app _ _ _ Hno).
  cbn [has_hotfix_event make_event dict_getitem Dict.get String.eqb Ascii.eqb
       Bool.eqb Res.bind py_eq as_dict].
  unfold hotfix_payload, dict_get at 1, Dict.get_default.
  cbn [Dict.get String.eqb Ascii.eqb Bool.eqb py_eq].
  now rewrite String.eqb_refl.
Qed.

End HotfixOnce.

Lemma hotfix_built_once_witness :
  build_hotfix_event Scenario.no_repr Scenario.no_digit Scenario.t0
    ([Scenario.run_start; Scenario.create] ++
       make_event Scenario.t0 3 "orchestrator" "hotfix.create"
         (JObj (hotfix_payload Scenario.no_repr
                  [("issue_id", JStr "I-1"); ("fixes", JStr "T-1")]
                  (JStr "B-000")))
       :: [Scenario.claim_by 4 "agent-a"])
    [("issue_id", JStr "I-1"); ("fixes", JStr "T-1")]
  = Ok None.
Proof.
  exact (proj2 (proj2 (proj2 (proj2
    (@hotfix_built_once Scenario.no_repr Scenario.no_digit Scenario.t0
       [Scenario.run_start; Scenario.create]
       [("issue_id", JStr "I-1"); ("fixes", JStr "T-1")] _ eq_refl))))
    Scenario.t0 [Scenario.claim_by 4 "agent-a"]).
Defined.

Section HotfixApplied.

Variable py_repr : json -> string.

Variable unicodedata_decimal : string -> option Z.

Lemma hotfix_description_not_blank x :
  Str.blank ("Apply a minimal hotfix to resolve issue " ++ x
             ++ " without regressing immutable done tasks.") = false.
Proof. reflexivity. Qed.

Lemma new_task_hotfix issue_payload baseline_id :
  exists task,
    _new_task (JObj (hotfix_payload py_repr issue_payload baseline_id))
    = Ok task /\
    Dict.get "task_id" task
    = Some (JStr ("HF-" ++ py_str py_repr (dict_get issue_payload "issue_id")))
    /\
    Dict.get "is_hotfix" task = Some (JBool true) /\
    Dict.get "issue_id" task = Some (dict_get issue_payload "issue_id") /\
    Dict.get "fixes" task = Some (dict_get issue_payload "fixes") /\
    Dict.get "baseline_id" task = Some baseline_id.
Proof.
  unfold _new_task, hotfix_payload.
  cbn [as_dict Res.bind dict_getitem Dict.get Dict.get_default String.eqb
       Ascii.eqb Bool.eqb py_list].
  rewrite hotfix_description_not_blank.
  cbn [dict_get Dict.get Dict.get_default String.eqb Ascii.eqb Bool.eqb truthy
       hotfix_fields fold_left Dict.mem Dict.set].
  eexists. split; [reflexivity|].
  repeat split; reflexivity.
Qed.

(** X17.  The projector takes the hotfix event.  When no task has the id
    of the hotfix yet, and the issue, if it is known, has its [links], the
    event [build_hotfix_event] returns is accepted: it adds one task, which
    is valid, [todo], marked [is_hotfix] and carries the issue and what it
    fixes, and it records the task in the [links] of the issue. *)
Theorem hotfix_event_applied (ts : string) (events : list dict)
  (issue_payload ev : dict) (st : state) :
  build_hotfix_event py_repr unicodedata_decimal ts events issue_payload
  = Ok (Some ev) ->
  hashable (dict_get issue_payload "issue_id") = true ->
  has_task_id (tasks st)
    (JStr ("HF-" ++ py_str py_repr (dict_get issue_payload "issue_id")))
  = Ok false ->
  (forall issue,
     kget (dict_get issue_payload "issue_id") (_issues st) = Some issue ->
     exists links, Dict.get "links" issue = Some (JObj links)) ->
  exists task,
    fst (_apply_event ev st) = Ok tt /\
    tasks (snd (_apply_event ev st)) = (tasks st ++ [task])%list /\
    valid_task task /\ has_status "todo" task /\
    Dict.get "task_id" task
    = Some (JStr ("HF-" ++ py_str py_repr (dict_get issue_payload "issue_id")))
    /\
    Dict.get "is_hotfix" task = Some (JBool true) /\
    Dict.get "issue_id" task = Some (dict_get issue_payload "issue_id") /\
    Dict.get "fixes" task = Some (dict_get issue_payload "fixes") /\
    forall issue links,
      kget (dict_get issue_payload "issue_id") (_issues st) = Some issue ->
      Dict.get "links" issue = Some (JObj links) ->
      kget (dict_get issue_payload "issue_id")
        (_issues (snd (_apply_event ev st)))
      = Some (Dict.set "links"
                (JObj (Dict.set "hotfix_task_id"
                         (JStr ("HF-" ++ py_str py_repr
                                           (dict_get issue_payload "issue_id")))
                         links))
                issue).
Proof.
  intros H Hh Hdup Hlinks.
  destruct (@build_hotfix_event_some _ _ _ _ _ _ H)
    as (Hi & Hf & Hno & seq & affected & Hseq & Haff & ->).
  set (issue_id := dict_get issue_payload "issue_id") in *.
  set (hf := JStr ("HF-" ++ py_str py_repr issue_id)) in *.
  set (baseline := Dict.get_default "baseline_id" (JStr "B-000") affected).
  destruct (new_task_hotfix issue_payload baseline)
    as (task & Hnew & Htid & Hhot & Hiss & Hfix & _).
  fold issue_id in Htid, Hiss. fold hf in Htid.
  assert (Hstatus : has_status "todo" task).
  { revert Hnew. unfold _new_task, hotfix_payload.
    cbn [as_dict Res.bind dict_getitem Dict.get Dict.get_default String.eqb
         Ascii.eqb Bool.eqb py_list].
    rewrite hotfix_description_not_blank.
    cbn [dict_get Dict.get Dict.get_default String.eqb Ascii.eqb Bool.eqb
         truthy hotfix_fields fold_left Dict.mem Dict.set].
    intros E. injection E as <-. reflexivity. }
  set (p := hotfix_payload py_repr issue_payload baseline) in *.
  assert (Hp_tid : Dict.get "task_id" p = Some hf) by reflexivity.
  assert (Hp_iss : dict_get p "issue_id" = issue_id) by reflexivity.
  pose proof (new_task_valid _ Hnew) as Hvalid.
  assert (Hrun : exists st',
             _apply_event (make_event ts seq "orchestrator" "hotfix.create"
                             (JObj p)) st = (Ok tt, st') /\
             tasks st' = (tasks st ++ [task])%list /\
             forall issue links,
               kget issue_id (_issues st) = Some issue ->
               Dict.get "links" issue = Some (JObj links) ->
               kget issue_id (_issues st')
               = Some (Dict.set "links"
                         (JObj (Dict.set "hotfix_task_id" hf links)) issue)).
  { unfold _apply_event, _apply_hotfix_create, issue_setitem2, issue_setitem,
      issue_getitem.
    run_m.
    cbn [make_event Dict.get String.eqb Ascii.eqb Bool.eqb is_action py_eq
         getitem].
    rewrite Hp_tid. cbn [tasks]. rewrite Hdup, Hnew.
    cbn [as_dict]. rewrite Hp_iss, Hi, Hh.
    change (_issues (set_tasks (tasks st ++ [task]) st)) with (_issues st).
    destruct (kget issue_id (_issues st)) as [issue|] eqn:Ek.
    - destruct (Hlinks issue eq_refl) as (links & Hl).
      cbv beta.
      change (_issues (set_tasks (tasks st ++ [task]) st)) with (_issues st).
      rewrite Ek. unfold dict_getitem. rewrite Hl.
      cbn [Res.bind]. eexists. split; [reflexivity|].
      split; [reflexivity|].
      intros issue' links' E El. injection E as <-.
      rewrite Hl in El. injection El as <-.
      cbn [_issues set_updated_at with_run set_issues meta].
      change (_issues (set_tasks (tasks st ++ [task]) st)) with (_issues st).
      now rewrite kget_kupdate, Ek.
    - eexists. split; [reflexivity|]. split; [reflexivity|].
      intros issue links E. discriminate E. }
  destruct Hrun as (st' & Hrun & Htasks & Hissue).
  exists task. rewrite Hrun. cbn [fst snd].
  split; [reflexivity|]. split; [exact Htasks|]. split; [exact Hvalid|].
  split; [exact Hstatus|]. split; [exact Htid|]. split; [exact Hhot|].
  split; [exact Hiss|]. split; [exact Hfix|]. exact Hissue.
Qed.

End HotfixApplied.

Lemma hotfix_event_applied_witness :
  exists task,
    fst (_apply_event
           (make_event Scenario.t0 3 "orchestrator" "hotfix.create"
              (JObj (hotfix_payload Scenario.no_repr
                       [("issue_id", JStr "I-1"); ("fixes", JStr "T-1")]
                       (JStr "B-000"))))
           (snd (apply_events [Scenario.run_start; Scenario.create]
                   (_empty_state Scenario.t0 (JStr "esaa-core"))))) = Ok tt /\
    has_status "todo" task.
Proof.
  destruct (@hotfix_event_applied Scenario.no_repr Scenario.no_digit
              Scenario.t0
              [Scenario.run_start; Scenario.create]
              [("issue_id", JStr "I-1"); ("fixes", JStr "T-1")] _
              (snd (apply_events [Scenario.run_start; Scenario.create]
                      (_empty_state Scenario.t0 (JStr "esaa-core"))))
              eq_refl eq_refl eq_refl)
    as (task & Hr & _ & _ & Hs & _).
  - intros issue E. discriminate E.
  - exists task. split; [exact Hr|exact Hs].
Defined.

(** ** service.py: [verify] after [project] *)

Lemma py_eq_refl_hashable v : hashable v = true -> py_eq v v = true.
Proof. intros H. now apply py_eq_key_class. Qed.

Lemma event_tail_last_seq (body : M unit) event st :
  fst (bind body
         (fun _ =>
            bind (lift (dict_getitem event "event_seq"))
              (fun event_seq =>
                 bind (modify (with_run (set_last_event_seq event_seq)))
                   (fun _ =>
                      bind (lift (dict_getitem event "ts"))
                        (fun ts => modify (set_updated_at ts))))) st)
  = Ok tt ->
  Dict.get "event_seq" event
  = Some (last_event_seq
            (run (meta (snd (bind body
         (fun _ =>
            bind (lift (dict_getitem event "event_seq"))
              (fun event_seq =>
                 bind (modify (with_run (set_last_event_seq event_seq)))
                   (fun _ =>
                      bind (lift (dict_getitem event "ts"))
                        (fun ts => modify (set_updated_at ts))))) st))))).
Proof.
  unfold bind, lift, modify, dict_getitem.
  destruct (body st) as [[[]|e] st1]; [|discriminate].
  destruct (Dict.get "event_seq" event) as [seq|]; [|discriminate].
  destruct (Dict.get "ts" event) as [ts|]; [|discriminate].
  reflexivity.
Qed.

Lemma apply_event_last_seq event st :
  fst (_apply_event event st) = Ok tt ->
  Dict.get "event_seq" event
  = Some (last_event_seq (run (meta (snd (_apply_event event st))))).
Proof.
  unfold _apply_event.
  destruct (dict_getitem event "action") as [action|] eqn:Ea;
    [|unfold bind, lift; discriminate].
  rewrite bind_lift_ok.
  destruct (dict_getitem event "payload") as [payload|] eqn:Ep;
    [|unfold bind, lift; discriminate].
  rewrite bind_lift_ok.
  apply event_tail_last_seq.
Qed.

Lemma apply_events_last_seq events :
  forall k st,
    numbered k events ->
    hashable (last_event_seq (run (meta st))) = true ->
    fst (apply_events events st) = Ok tt ->
    hashable (last_event_seq (run (meta (snd (apply_events events st)))))
    = true.
Proof.
  induction events as [|ev r IH]; intros k st Hn Hh; simpl; [intros _; exact Hh|].
  inversion Hn as [|? ? ? (v & Hv & Hi) Hr]; subst.
  unfold bind. pose proof (@apply_event_last_seq ev st) as Hseq.
  destruct (_apply_event ev st) as [[[]|e] st1]; simpl in *; [|discriminate].
  apply (IH _ _ Hr).
  specialize (Hseq eq_refl). rewrite Hv in Hseq. injection Hseq as <-.
  destruct v; simpl in *; try discriminate; reflexivity.
Qed.

Section VerifyAfterProject.

Variable sha256_hexdigest : list Byte.byte -> string.

Variable py_repr : json -> string.

Variable exn_message : exn -> string.

(** The two fields [verify] compares, in what [finish] returns: read the
    way a projected roadmap is read or the way a stored one is. *)
Lemma finish_run_fields st out :
  finish sha256_hexdigest py_repr st = Ok out ->
  Service.projected_run_field (roadmap_of out) "last_event_seq"
  = Ok (last_event_seq (run (meta st))) /\
  Service.stored_run_field (roadmap_of out) "last_event_seq"
  = Ok (last_event_seq (run (meta st))) /\
  Service.stored_run_field (roadmap_of out) "projection_hash_sha256"
  = Service.projected_run_field (roadmap_of out) "projection_hash_sha256" /\
  exists h,
    Service.projected_run_field (roadmap_of out) "projection_hash_sha256"
    = Ok (JStr h).
Proof.
  unfold finish.
  cbn [compute_projection_hash roadmap_json getitem Dict.get
       String.eqb Ascii.eqb Bool.eqb meta_json Res.bind].
  destruct (issues_index _) as [[issues open_by_baseline]|];
    cbn [Res.bind]; [|discriminate].
  destruct (lessons_index _) as [[by_task_kind by_enforcement]|];
    cbn [Res.bind]; [|discriminate].
  intros H. injection H as <-.
  repeat split; try reflexivity. eexists. reflexivity.
Qed.

Lemma materialize_run_fields now1 now2 events project_name out1 :
  materialize sha256_hexdigest py_repr now1 events project_name = Ok out1 ->
  exists out2,
    materialize sha256_hexdigest py_repr now2 events project_name = Ok out2 /\
    Service.projected_run_field (roadmap_of out2) "last_event_seq"
    = Service.projected_run_field (roadmap_of out1) "last_event_seq" /\
    Service.projected_run_field (roadmap_of out2) "projection_hash_sha256"
    = Service.projected_run_field (roadmap_of out1) "projection_hash_sha256".
Proof.
  intros H1.
  pose proof (materialize_any_time sha256_hexdigest py_repr now1 now2 events
                project_name) as Hh.
  rewrite H1 in Hh. unfold hash_of in Hh. cbn [Res.map Res.bind] in Hh.
  revert H1 Hh. unfold materialize.
  assert (H : same_but_time (_empty_state now1 project_name)
                (_empty_state now2 project_name)) by reflexivity.
  destruct (apply_events_same_but_time events H) as [Hr Hs].
  destruct (apply_events events (_empty_state now1 project_name))
    as [[a1|e1] s1];
    destruct (apply_events events (_empty_state now2 project_name))
      as [[a2|e2] s2]; simpl in Hr, Hs; try discriminate Hr;
    [|discriminate].
  intros H1 Hh.
  destruct (finish_run_fields _ H1) as (Hseq1 & _ & _ & h1 & Hhash1).
  destruct (finish sha256_hexdigest py_repr s2) as [out2|e2] eqn:H2.
  - exists out2. split; [reflexivity|].
    destruct (finish_run_fields _ H2) as (Hseq2 & _).
    destruct (same_but_time_fields Hs) as (_ & Hrun & _).
    split; [now rewrite Hseq1, Hseq2, Hrun|].
    cbn [Res.map Res.bind] in Hh. symmetry. exact Hh.
  - cbn [Res.map Res.bind] in Hh.
    change (reported_hash (roadmap_of out1))
      with (Service.projected_run_field (roadmap_of out1) "projection_hash_sha256")
      in Hh.
    rewrite Hhash1 in Hh. discriminate Hh.
Qed.

(** X18.  [verify] after [project].  When [project] returns, a [verify]
    of the same log against the roadmap that [project] saved, at whatever
    time it runs, answers [ok] with the sequence number and the hash that
    [project] reported. *)
Theorem verify_after_project (now1 now2 : string)
  (lines : list (option dict)) (summary : dict) (roadmap : json) :
  Service.project sha256_hexdigest py_repr now1 lines = Ok (summary, roadmap) ->
  Service.verify sha256_hexdigest py_repr exn_message now2 lines (Some roadmap)
  = Ok [("verify_status", JStr "ok");
        ("last_event_seq", dict_get summary "last_event_seq");
        ("projection_hash_sha256",
          dict_get summary "projection_hash_sha256")].
Proof.
  unfold Service.project, Service.verify.
  destruct (parse_event_store lines) as [events|] eqn:Hparse;
    cbn [Res.bind]; [|discriminate].
  destruct (materialize sha256_hexdigest py_repr now1 events (JStr "esaa-core"))
    as [[[roadmap1 issues1] lessons1]|] eqn:Hm1; cbn [Res.bind];
    [|discriminate].
  destruct (@materialize_run_fields now1 now2 _ _ _ Hm1)
    as ([[roadmap2 issues2] lessons2] & Hm2 & Hseq & Hhash).
  rewrite Hm2. cbn [roadmap_of fst] in Hseq, Hhash.
  assert (Hfin : exists st,
             fst (apply_events events (_empty_state now1 (JStr "esaa-core")))
             = Ok tt /\
             st = snd (apply_events events
                         (_empty_state now1 (JStr "esaa-core"))) /\
             finish sha256_hexdigest py_repr st
             = Ok (roadmap1, issues1, lessons1)).
  { revert Hm1. unfold materialize.
    destruct (apply_events events (_empty_state now1 (JStr "esaa-core")))
      as [[[]|e] st]; [|discriminate].
    intros Hf. now exists st. }
  destruct Hfin as (st & Hok & Hst & Hf).
  destruct (finish_run_fields _ Hf) as (Hps & Hss & Hsh & h & Hph).
  cbn [roadmap_of fst] in Hps, Hss, Hsh, Hph.
  assert (Hhs : hashable (last_event_seq (run (meta st))) = true).
  { subst st.
    apply (@apply_events_last_seq _ _ _ (@parse_event_store_numbered _ _ Hparse));
      [reflexivity|exact Hok]. }
  rewrite Hph in Hhash, Hsh. rewrite Hps in Hseq.
  unfold Service.projected_run_field in Hps, Hph.
  destruct (getitem roadmap1 "meta") as [m|]; cbn [Res.bind] in *;
    [|discriminate].
  destruct (getitem m "run") as [r|]; cbn [Res.bind] in *; [|discriminate].
  rewrite Hps, Hph. cbn [Res.bind].
  destruct (getitem roadmap1 "tasks") as [ts|]; cbn [Res.bind];
    [|discriminate].
  destruct (Service.py_len ts) as [n|]; cbn [Res.bind]; [|discriminate].
  intros H. injection H as <- <-.
  rewrite Hhash, Hsh, Hseq, Hss. cbn [Res.bind py_eq].
  rewrite String.eqb_refl, (@py_eq_refl_hashable _ Hhs). reflexivity.
Qed.

End VerifyAfterProject.

Lemma verify_after_project_witness :
  exists summary roadmap,
    Service.project Scenario.no_digest Scenario.no_repr Scenario.t0 three_line_log
    = Ok (summary, roadmap) /\
    Service.verify Scenario.no_digest Scenario.no_repr (fun _ => "")
      "2026-03-01T00:00:00Z" three_line_log (Some roadmap)
    = Ok [("verify_status", JStr "ok");
          ("last_event_seq", dict_get summary "last_event_seq");
          ("projection_hash_sha256",
            dict_get summary "projection_hash_sha256")].
Proof.
  assert (H : exists sr,
             Service.project Scenario.no_digest Scenario.no_repr Scenario.t0
               three_line_log = Ok sr)
    by (vm_compute; eexists; reflexivity).
  destruct H as [[summary roadmap] H].
  exists summary, roadmap. split; [exact H|].
  exact (@verify_after_project Scenario.no_digest Scenario.no_repr
           (fun _ => "") Scenario.t0 "2026-03-01T00:00:00Z" three_line_log
           summary roadmap H).
Defined.

Section VerifyCorrupted.

Variable sha256_hexdigest : list Byte.byte -> string.

Variable py_repr : json -> string.

Variable exn_message : exn -> string.

(** X19.  [verify] answers [corrupted] when, and only when, reading the
    event store raises a [CorruptedStoreError]; the code it reports is the
    code of that error.  No event that the store admits makes the
    projection itself count as corruption. *)
Theorem verify_corrupted_iff (now : string) (lines : list (option dict))
  (stored : option json) (c : string) :
  parse_event_store lines = Raise (CorruptedStoreError c) <->
  exists d,
    Service.verify sha256_hexdigest py_repr exn_message now lines stored = Ok d /\
    Dict.get "verify_status" d = Some (JStr "corrupted") /\
    Dict.get "error_code" d = Some (JStr c).
Proof.
  unfold Service.verify. split.
  - intros ->. cbn [Res.bind is_CorruptedStoreError code_of].
    eexists. split; [reflexivity|]. split; reflexivity.
  - intros (d & H & Hs & Hc). revert H.
    destruct (parse_event_store lines) as [events|e] eqn:Hparse;
      cbn [Res.bind].
    + destruct (materialize sha256_hexdigest py_repr now events
                  (JStr "esaa-core")) as [[[projected i] l]|e] eqn:Hm.
      * destruct stored as [stored|].
        -- destruct (Service.projected_run_field projected "projection_hash_sha256");
             cbn [Res.bind]; [|discriminate].
           destruct (Service.stored_run_field stored "projection_hash_sha256");
             cbn [Res.bind]; [|discriminate].
           destruct (Service.projected_run_field projected "last_event_seq");
             cbn [Res.bind]; [|discriminate].
           destruct (Service.stored_run_field stored "last_event_seq");
             cbn [Res.bind]; [|discriminate].
           destruct (_ && _); intros H; injection H as <-; discriminate Hs.
        -- destruct (Service.projected_run_field projected "last_event_seq");
             cbn [Res.bind]; [|discriminate].
           destruct (Service.projected_run_field projected "projection_hash_sha256");
             cbn [Res.bind]; [|discriminate].
           intros H; injection H as <-; discriminate Hs.
      * pose proof (@parsed_log_materialize_raises sha256_hexdigest py_repr
                      _ _ _ _ _ Hparse Hm) as He.
        destruct e; simpl in He |- *; try discriminate. destruct He.
    + destruct e; cbn [is_CorruptedStoreError]; try discriminate.
      cbn [code_of]. intros H. injection H as <-.
      cbn [Dict.get String.eqb Ascii.eqb Bool.eqb] in Hc. congruence.
Qed.

End VerifyCorrupted.

(** ** projector.py: what is written to the issues *)

Lemma stable_on_issues_modify (Q : list (json * dict) -> Prop)
  (f : state -> state) :
  (forall st, _issues (f st) = _issues st) -> stable (on_issues Q) (modify f).
Proof.
  intros Hf. apply stable_modify. intros st H. unfold on_issues in *.
  now rewrite Hf.
Qed.

Lemma valid_issue_set key k v issue :
  issue_write k v -> valid_issue (key, issue) ->
  valid_issue (key, Dict.set k v issue).
Proof.
  intros Hw (Hh & Hm & (id & Hid & Heq) & (s & Hs & Hin) & (l & Hl) & (t & Ht)).
  unfold valid_issue. cbn [fst snd] in *.
  split; [exact Hh|]. split; [|split; [|split; [|split]]].
  - intros k0 Hk0. rewrite mem_get.
    destruct (string_dec k k0) as [->|Hne]; [now rewrite get_set_eq|].
    rewrite get_set_ne by exact Hne. rewrite <- mem_get. now apply Hm.
  - exists id. split; [|exact Heq].
    rewrite get_set_ne; [exact Hid|]. intros ->.
    destruct Hw as [[E _]|[[Hk _]|Hk]]; [discriminate E| |];
      simpl in Hk; intuition discriminate.
  - destruct Hw as [[-> Hv]|Hw].
    + simpl in Hv. destruct Hv as [<-|[<-|[]]]; eexists;
        (split; [apply get_set_eq|simpl; tauto]).
    + exists s. split; [|exact Hin].
      rewrite get_set_ne; [exact Hs|]. intros ->.
      destruct Hw as [[Hk _]|Hk]; simpl in Hk; intuition discriminate.
  - destruct (string_dec k "links") as [->|Hne].
    + destruct Hw as [[E _]|[[_ (d & ->)]|Hk]].
      * discriminate E.
      * exists d. apply get_set_eq.
      * simpl in Hk. intuition discriminate.
    + exists l. now rewrite get_set_ne.
  - destruct (string_dec k "timeline") as [->|Hne].
    + destruct Hw as [[E _]|[[_ (d & ->)]|Hk]].
      * discriminate E.
      * exists d. apply get_set_eq.
      * simpl in Hk. intuition discriminate.
    + exists t. now rewrite get_set_ne.
Qed.

Lemma valid_issues_kupdate key k v iss :
  issue_write k v -> Forall valid_issue iss ->
  Forall valid_issue (kupdate key (Dict.set k v) iss).
Proof.
  intros Hw H. induction H as [|[k' issue] r Hx Hr IH]; simpl; [constructor|].
  destruct (py_eq k' key); constructor; auto.
  now apply valid_issue_set.
Qed.

Lemma valid_issues_ksetdefault key fresh iss :
  valid_issue (key, fresh) -> Forall valid_issue iss ->
  Forall valid_issue (ksetdefault key fresh iss).
Proof.
  intros Hf H. unfold ksetdefault. destruct (kget key iss); [exact H|].
  apply Forall_app. split; [exact H|]. constructor; [exact Hf|constructor].
Qed.

Lemma stable_issue_write key k v :
  issue_write k v ->
  stable (on_issues (Forall valid_issue)) (issue_setitem key k v).
Proof.
  intros Hw. apply stable_modify. intros st H. unfold on_issues in *. simpl.
  now apply valid_issues_kupdate.
Qed.

Lemma stable_issue_new key fresh :
  valid_issue (key, fresh) ->
  stable (on_issues (Forall valid_issue))
    (modify (fun st => set_issues (ksetdefault key fresh (_issues st)) st)).
Proof.
  intros Hf. apply stable_modify. intros st H. unfold on_issues in *. simpl.
  now apply valid_issues_ksetdefault.
Qed.

Lemma stable_guard (P : state -> Prop) {B : Type} (b : bool) e
  (k : unit -> M B) :
  (b = true -> stable P (k tt)) ->
  stable P (bind (if b then ret tt else raise e) k).
Proof.
  intros Hk st H. unfold bind. destruct b; simpl; [now apply Hk|exact H].
Qed.

Ltac issue_write_solve :=
  unfold issue_write; simpl;
  first [ left; split; [reflexivity|auto 6]
        | right; left; split; [auto 6|eexists; reflexivity]
        | right; right; auto 8 ].

Ltac fresh_issue_solve :=
  match goal with
  | H : hashable ?id = true |- valid_issue (?id, _) =>
      unfold valid_issue; cbn [fst snd];
      split; [exact H|];
      split; [intros k Hk; simpl in Hk;
              repeat (destruct Hk as [<-|Hk]; [reflexivity|]); destruct Hk|];
      split; [exists id; split; [reflexivity|now apply py_eq_refl_hashable]|];
      split; [exists "open"; split; [reflexivity|simpl; tauto]|];
      split; eexists; reflexivity
  end.

Ltac iw_step :=
  first
    [ apply stable_ret | apply stable_raise | apply stable_lift
    | apply stable_gets | apply stable_task_get | apply stable_task_getitem
    | apply stable_task_by_id
    | apply stable_ensure_owner | apply stable_issue_getitem
    | apply stable_issue_get
    | apply stable_on_issues_modify; intros; reflexivity
    | apply stable_issue_write; issue_write_solve
    | apply stable_issue_new; fresh_issue_solve
    | apply stable_guard; intros ?
    | apply stable_bind; [|intros ?]
    | match goal with
      | |- stable _ (if ?b then _ else _) => destruct b eqn:?
      | |- stable _ (match ?x with _ => _ end) => destruct x eqn:?
      end ].

Lemma valid_issues_apply_event event :
  stable (on_issues (Forall valid_issue)) (_apply_event event).
Proof.
  unfold _apply_event, _apply_claim, _apply_complete, _apply_review,
    _apply_issue_report, _apply_hotfix_create, _apply_issue_resolve,
    issue_setitem2, task_setitem.
  repeat iw_step.
Qed.

Lemma valid_issues_apply_events events :
  stable (on_issues (Forall valid_issue)) (apply_events events).
Proof.
  induction events as [|event rest IH]; simpl; [apply stable_ret|].
  apply stable_bind; [apply valid_issues_apply_event|]. intros _. exact IH.
Qed.

Lemma kget_In {V : Type} (k : json) (d : list (json * V)) v :
  kget k d = Some v -> exists k', In (k', v) d /\ py_eq k' k = true.
Proof.
  induction d as [|[k' v'] r IH]; simpl; [discriminate|].
  destruct (py_eq k' k) eqn:E.
  - intros H. injection H as <-. exists k'. auto.
  - intros H. destruct (IH H) as (k'' & Hin & Heq). exists k''. auto.
Qed.

(** X20.  Every issue of the projected state is valid, whatever the
    events are and whether they are accepted or refused: its key is
    hashable and equal to its [issue_id], it has the ten keys of
    [_apply_issue_report], its status is [open] or [resolved], and its
    [links] and [timeline] are dicts.  So an issue that is looked up is
    never empty, and the hotfix link and the resolution time can always be
    written. *)
Theorem projected_issues_valid (events : list dict) (now : string)
  (project_name : json) :
  Forall valid_issue
    (_issues (snd (apply_events events (_empty_state now project_name)))) /\
  forall issue_id issue,
    kget issue_id
      (_issues (snd (apply_events events (_empty_state now project_name))))
    = Some issue ->
    issue <> [] /\
    (exists links, Dict.get "links" issue = Some (JObj links)) /\
    (exists timeline, Dict.get "timeline" issue = Some (JObj timeline)).
Proof.
  assert (H : Forall valid_issue
                (_issues (snd (apply_events events
                                 (_empty_state now project_name))))).
  { apply (@valid_issues_apply_events events). constructor. }
  split; [exact H|].
  intros issue_id issue Hk. apply kget_In in Hk.
  destruct Hk as (k' & Hin & _). rewrite Forall_forall in H.
  destruct (H _ Hin) as (_ & Hm & _ & _ & Hl & Ht). cbn [snd] in *.
  split; [|split; assumption].
  intros ->. specialize (Hm "status"). simpl in Hm.
  assert (false = true) by (apply Hm; tauto). discriminate.
Qed.

(** ** projector.py: the indexes count the tasks *)

Lemma in_keys_set {V : Type} (k x : string) (v : V) d :
  In x (List.map fst (Dict.set k v d)) -> x = k \/ In x (List.map fst d).
Proof.
  induction d as [|[k' v'] r IH]; simpl.
  - intros [<-|[]]. now left.
  - destruct (String.eqb k' k) eqn:E; simpl.
    + apply String.eqb_eq in E. subst k'. tauto.
    + intros [<-|H]; [tauto|]. destruct (IH H); tauto.
Qed.

Lemma set_keys_nodup {V : Type} (k : string) (v : V) d :
  NoDup (List.map fst d) -> NoDup (List.map fst (Dict.set k v d)).
Proof.
  induction d as [|[k' v'] r IH]; simpl; intros H.
  - repeat constructor. intros [].
  - inversion H as [|? ? Hn Hr]; subst.
    destruct (String.eqb k' k) eqn:E; simpl.
    + apply String.eqb_eq in E. subst k'. now constructor.
    + constructor; [|now apply IH].
      intros Hin. apply in_keys_set in Hin. destruct Hin as [->|Hin].
      * now rewrite String.eqb_refl in E.
      * now apply Hn.
Qed.

Lemma get_In {V : Type} (s : string) (v : V) l :
  NoDup (List.map fst l) -> (Dict.get s l = Some v <-> In (s, v) l).
Proof.
  induction l as [|[k w] r IH]; simpl; intros H.
  - split; [discriminate|tauto].
  - inversion H as [|? ? Hn Hr]; subst.
    destruct (String.eqb k s) eqn:E.
    + apply String.eqb_eq in E. subst k. split.
      * intros E. injection E as <-. now left.
      * intros [E|Hin]; [now injection E as <-|].
        exfalso. apply Hn. apply in_map_iff. now exists (s, v).
    + rewrite (IH Hr). split; [tauto|].
      intros [E'|Hin]; [|exact Hin].
      injection E' as -> _. now rewrite String.eqb_refl in E.
Qed.

Lemma get_permutation {V : Type} (s : string) (l l' : list (string * V)) :
  NoDup (List.map fst l) -> Permutation l l' -> Dict.get s l = Dict.get s l'.
Proof.
  intros Hn Hp.
  assert (Hn' : NoDup (List.map fst l')).
  { eapply Permutation_NoDup; [|exact Hn]. now apply Permutation_map. }
  destruct (Dict.get s l) as [v|] eqn:E.
  - symmetry. apply get_In; [exact Hn'|].
    apply (Permutation_in _ Hp). now apply get_In.
  - destruct (Dict.get s l') as [v|] eqn:E'; [|reflexivity].
    apply get_In in E'; [|exact Hn'].
    apply (Permutation_in _ (Permutation_sym Hp)) in E'.
    apply get_In in E'; [|exact Hn]. congruence.
Qed.

Lemma get_map_values {V W : Type} (f : V -> W) (s : string) l :
  Dict.get s (List.map (fun kv => (fst kv, f (snd kv))) l)
  = option_map f (Dict.get s l).
Proof.
  induction l as [|[k v] r IH]; simpl; [reflexivity|].
  now destruct (String.eqb k s).
Qed.

Lemma zsum_set k d :
  zsum (Dict.set k (Dict.get_default k 0 d + 1) d) = zsum d + 1.
Proof.
  unfold Dict.get_default.
  induction d as [|[k' v'] r IH]; simpl; [reflexivity|].
  destruct (String.eqb k' k); simpl; [lia|].
  rewrite IH. lia.
Qed.

Lemma zsum_permutation l l' : Permutation l l' -> zsum l = zsum l'.
Proof.
  induction 1; simpl; lia.
Qed.

Lemma count_sum_map l :
  count_sum (List.map (fun kv : string * Z => (fst kv, JInt (snd kv))) l)
  = zsum l.
Proof. induction l as [|[k v] r IH]; simpl; [reflexivity|]. now rewrite IH. Qed.

Section IndexCounts.

Variable py_repr : json -> string.

Variable key : string.

(** The counter, after the loop over [ts] that starts from [out]. *)
Lemma index_counts_loop ts :
  forall out,
    NoDup (List.map fst out) ->
    (forall s v, Dict.get s out = Some v -> 0 < v) ->
    let out' :=
      List.fold_left
        (fun out task =>
           let value := py_str py_repr (Dict.get_default key (JStr "unknown") task) in
           Dict.set value (Dict.get_default value 0 out + 1) out)
        ts out in
    NoDup (List.map fst out') /\
    (forall s v, Dict.get s out' = Some v -> 0 < v) /\
    (forall s, Dict.get_default s 0 out'
               = Dict.get_default s 0 out
                 + Z.of_nat (count_value py_repr key s ts)) /\
    zsum out' = zsum out + Z.of_nat (List.length ts).
Proof.
  induction ts as [|task r IH]; intros out Hn Hpos; cbn zeta.
  - simpl. repeat split; auto; try lia.
  - simpl fold_left.
    set (value := py_str py_repr (Dict.get_default key (JStr "unknown") task)).
    set (out1 := Dict.set value (Dict.get_default value 0 out + 1) out).
    assert (Hn1 : NoDup (List.map fst out1)) by now apply set_keys_nodup.
    assert (Hpos1 : forall s v, Dict.get s out1 = Some v -> 0 < v).
    { intros s v. unfold out1. destruct (string_dec value s) as [<-|Hne].
      - rewrite get_set_eq. intros E. injection E as <-.
        unfold Dict.get_default.
        destruct (Dict.get value out) as [w|] eqn:Ew; [|lia].
        specialize (Hpos _ _ Ew). lia.
      - rewrite get_set_ne by exact Hne. apply Hpos. }
    destruct (IH out1 Hn1 Hpos1) as (Hn' & Hpos' & Hget & Hsum).
    split; [exact Hn'|]. split; [exact Hpos'|]. split.
    + intros s. rewrite Hget. unfold count_value. simpl.
      fold (index_value py_repr key task). unfold index_value. fold value.
      unfold out1, Dict.get_default at 1.
      destruct (string_dec value s) as [<-|Hne].
      * rewrite get_set_eq, String.eqb_refl. simpl.
        unfold Dict.get_default. lia.
      * rewrite get_set_ne by exact Hne.
        apply String.eqb_neq in Hne. rewrite Hne.
        unfold Dict.get_default. lia.
    + transitivity (zsum out1 + Z.of_nat (List.length r)); [exact Hsum|].
      unfold out1. rewrite zsum_set.
      change (List.length (task :: r)) with (S (List.length r)). lia.
Qed.

(** X21.  The index [_index_counts] builds counts the tasks: it maps a
    string to the number of tasks whose value at the key, made a string,
    is that string, and has no entry for a string that no task has; its
    keys come in increasing order, none twice; and its counts add up to
    the number of tasks. *)
Theorem index_counts_spec (ts : list dict) :
  (forall s,
     Dict.get s (_index_counts py_repr ts key)
     = if (count_value py_repr key s ts =? 0)%nat then None
       else Some (JInt (Z.of_nat (count_value py_repr key s ts)))) /\
  Sorted key_le (_index_counts py_repr ts key) /\
  NoDup (List.map fst (_index_counts py_repr ts key)) /\
  count_sum (_index_counts py_repr ts key) = Z.of_nat (List.length ts).
Proof.
  assert (H0 : forall s v, Dict.get s (@nil (string * Z)) = Some v -> 0 < v)
    by (intros s v E; discriminate E).
  pose proof (@index_counts_loop ts [] (NoDup_nil _) H0) as H.
  unfold _index_counts. cbv zeta in H |- *.
  match type of H with
  | context [fold_left ?f ts ?i] => set (out := fold_left f ts i) in *
  end.
  destruct H as (Hn & Hpos & Hget & Hsum).
  destruct (sort_by_key_sorted out) as [Hs Hp].
  assert (Hns : NoDup (List.map fst (Str.sort_by_key out))).
  { eapply Permutation_NoDup; [|exact Hn].
    apply Permutation_map. now apply Permutation_sym. }
  split; [|split; [|split]].
  - intros s. rewrite get_map_values.
    rewrite (get_permutation s Hns Hp).
    specialize (Hget s). unfold Dict.get_default in Hget. simpl in Hget.
    destruct (Dict.get s out) as [v|] eqn:E.
    + specialize (Hpos _ _ E). subst v.
      destruct (count_value py_repr key s ts); [lia|reflexivity].
    + assert (E0 : count_value py_repr key s ts = 0%nat) by lia.
      now rewrite E0.
  - clear - Hs. induction Hs as [|a l Hl IH Ha]; simpl; constructor.
    + exact IH.
    + destruct Ha; simpl; constructor. exact H.
  - now rewrite map_map.
  - rewrite count_sum_map, (zsum_permutation Hp), Hsum.
    change (zsum []) with 0. apply Z.add_0_l.
Qed.

End IndexCounts.

(** ** validator.py: what an accepted update looks like *)

Section BoundariesAccepted.

Variable fnmatch : string -> string -> bool.

Lemma matches_any_loop_true path ps :
  matches_any_loop fnmatch path ps = Ok true ->
  exists pattern,
    In (JStr pattern) ps /\
    fnmatch path (Str.replace_char "\" "/" pattern) = true.
Proof.
  induction ps as [|x r IH]; simpl; [discriminate|].
  destruct x as [| | |p| |]; try discriminate.
  destruct (fnmatch path (Str.replace_char "\" "/" p)) eqn:E.
  - intros _. exists p. auto.
  - intros H. destruct (IH H) as (q & Hin & Hq). exists q. auto.
Qed.

Lemma matches_any_loop_false path ps :
  matches_any_loop fnmatch path ps = Ok false ->
  forall pattern, In pattern ps ->
    exists p, pattern = JStr p /\
              fnmatch path (Str.replace_char "\" "/" p) = false.
Proof.
  induction ps as [|x r IH]; simpl; [intros _ ? []|].
  destruct x as [| | |p| |]; try discriminate.
  destruct (fnmatch path (Str.replace_char "\" "/" p)) eqn:E;
    [discriminate|].
  intros H pattern [<-|Hin]; [now exists p|now apply IH].
Qed.

Lemma in_scope_loop_true path ps :
  in_scope_loop path ps = Ok true ->
  exists prefix,
    In (JStr prefix) ps /\
    Str.starts_with (normalize_rel_path prefix) path = true.
Proof.
  induction ps as [|x r IH]; simpl; [discriminate|].
  destruct x as [| | |p| |]; try discriminate.
  destruct (Str.starts_with (normalize_rel_path p) path) eqn:E.
  - intros _. exists p. auto.
  - intros H. destruct (IH H) as (q & Hin & Hq). exists q. auto.
Qed.

Lemma check_update_accepted allowlist denylist enabled task item :
  check_update fnmatch allowlist denylist enabled task
    (Dict.get_default "scope_patch" (JArr []) task) item = Ok tt ->
  exists p norm,
    getitem item "path" = Ok (JStr p) /\
    _validate_safe_path p = Ok norm /\
    some_pattern_matches fnmatch norm allowlist /\
    (truthy denylist = true -> no_pattern_matches fnmatch norm denylist) /\
    (truthy enabled = true -> truthy (dict_get task "is_hotfix") = true ->
     under_some_prefix norm (Dict.get_default "scope_patch" (JArr []) task)).
Proof.
  unfold check_update.
  destruct (getitem item "path") as [raw|] eqn:Eg; cbn [Res.bind];
    [|discriminate].
  destruct raw as [| | |p| |]; cbn [Res.bind]; try discriminate.
  destruct (_validate_safe_path p) as [norm|] eqn:Ev; cbn [Res.bind];
    [|discriminate].
  unfold _matches_any at 1.
  destruct (py_list allowlist) as [aps|] eqn:Ea; cbn [Res.bind];
    [|discriminate].
  destruct (matches_any_loop fnmatch norm aps) as [[|]|] eqn:Em;
    cbn [Res.bind negb]; try discriminate.
  intros H. exists p, norm.
  split; [first [reflexivity|assumption]|].
  split; [first [reflexivity|assumption]|].
  split.
  { destruct (matches_any_loop_true _ _ Em) as (pat & Hin & Hpat).
    now exists aps, pat. }
  revert H.
  destruct (truthy denylist) eqn:Ed.
  - unfold _matches_any.
    destruct (py_list denylist) as [dps|] eqn:Edl; cbn [Res.bind];
      [|discriminate].
    destruct (matches_any_loop fnmatch norm dps) as [[|]|] eqn:Emd;
      cbn [Res.bind]; try discriminate.
    intros H. split.
    + intros _. exists dps. split; [exact Edl|].
      now apply matches_any_loop_false.
    + intros He Hh. rewrite He, Hh in H. cbn [andb] in H.
      destruct (truthy (Dict.get_default "scope_patch" (JArr []) task));
        cbn [negb] in H; [|discriminate].
      destruct (py_list (Dict.get_default "scope_patch" (JArr []) task))
        as [sps|] eqn:Es; cbn [Res.bind] in H;
        [|discriminate].
      destruct (in_scope_loop norm sps) as [[|]|] eqn:Ei;
        cbn [Res.bind negb] in H; try discriminate.
      destruct (in_scope_loop_true _ _ Ei) as (prefix & Hin & Hp).
      exists sps, prefix. repeat split; assumption.
  - cbn [Res.bind]. intros H. split; [discriminate|].
    intros He Hh. rewrite He, Hh in H. cbn [andb] in H.
    destruct (truthy (Dict.get_default "scope_patch" (JArr []) task));
      cbn [negb] in H; [|discriminate].
    destruct (py_list (Dict.get_default "scope_patch" (JArr []) task))
        as [sps|] eqn:Es; cbn [Res.bind] in H;
      [|discriminate].
    destruct (in_scope_loop norm sps) as [[|]|] eqn:Ei;
      cbn [Res.bind negb] in H; try discriminate.
    destruct (in_scope_loop_true _ _ Ei) as (prefix & Hin & Hp).
    exists sps, prefix. repeat split; assumption.
Qed.

(** X22.  Every update that [_validate_boundaries] lets through is inside
    the boundaries of the task's kind.  Its path is a string that
    [_validate_safe_path] accepts, and the normalised path matches a
    pattern of the [write] list; it matches no pattern of a
    [forbidden_write] list that is not empty; and when patches are scoped
    and the task is a hotfix, it lies under one of the prefixes of the
    task's [scope_patch]. *)
Theorem boundaries_accepted (updates : list json) (contract : json)
  (task : dict) :
  _validate_boundaries fnmatch updates contract task = Ok tt ->
  exists allowlist denylist enabled,
    task_boundaries contract task = Ok (allowlist, denylist, enabled) /\
    forall item, In item updates ->
      exists p norm,
        getitem item "path" = Ok (JStr p) /\
        _validate_safe_path p = Ok norm /\
        some_pattern_matches fnmatch norm allowlist /\
        (truthy denylist = true ->
         no_pattern_matches fnmatch norm denylist) /\
        (truthy enabled = true ->
         truthy (dict_get task "is_hotfix") = true ->
         under_some_prefix norm
           (Dict.get_default "scope_patch" (JArr []) task)).
Proof.
  unfold _validate_boundaries.
  destruct (task_boundaries contract task) as [[[allowlist denylist] enabled]|];
    cbn [Res.bind]; [|discriminate].
  intros H. exists allowlist, denylist, enabled. split; [reflexivity|].
  induction updates as [|x r IH]; [intros ? []|].
  simpl in H.
  destruct (check_update fnmatch allowlist denylist enabled task _ x)
    as [[]|] eqn:Ex; cbn [Res.bind] in H; [|discriminate].
  intros item [<-|Hin]; [|now apply IH].
  now apply check_update_accepted.
Qed.

End BoundariesAccepted.

Lemma boundaries_accepted_witness :
  exists allowlist denylist enabled,
    task_boundaries sample_contract sample_task
    = Ok (allowlist, denylist, enabled) /\
    forall item, In item [sample_update] ->
      exists p norm,
        getitem item "path" = Ok (JStr p) /\
        _validate_safe_path p = Ok norm /\
        some_pattern_matches prefix_match norm allowlist /\
        (truthy denylist = true ->
         no_pattern_matches prefix_match norm denylist) /\
        (truthy enabled = true ->
         truthy (dict_get sample_task "is_hotfix") = true ->
         under_some_prefix norm
           (Dict.get_default "scope_patch" (JArr []) sample_task)).
Proof.
  exact (@boundaries_accepted prefix_match [sample_update] sample_contract
           sample_task eq_refl).
Defined.
